(** * DFGviz: safe git-history traversal and CMake flag extraction

    A shallow embedding of [git_history_dataflow_analyzer.py]
    ([SafeGitHistoryAnalyzer], the start button of [GitHistoryDataflowGUI])
    and of [cmake_parser.py] ([CMakeParser]), with the properties of the
    traversal core stated and proved over that embedding.

    Conventions.  Python [str] is [string]; a Python object is a [pyval];
    a [dict] is a [gmap] from string keys; a function that may raise returns
    an [outcome]; code that touches the outside world is a state-passing
    computation over a [World].  The host is POSIX: the path separator is
    [/] and [pathlib.Path] objects are absolute, so a path is the list of
    its components below the root. *)

From Stdlib Require Import ZArith String Ascii List Bool Lia.
From stdpp Require Import base option list gmap strings pretty.
Import ListNotations.

Set Warnings "-register-all".

Local Open Scope string_scope.
Local Open Scope list_scope.

(* ===================================================================== *)
(** * Python strings *)
(* ===================================================================== *)

Module PyStr.

(** [str.isspace] on the ASCII range: TAB, LF, VT, FF, CR, the four
    separators FS, GS, RS, US, and the space. *)
Definition isspace (c : ascii) : bool :=
  let n := nat_of_ascii c in
  (((9 <=? n) && (n <=? 13)) || ((28 <=? n) && (n <=? 32)))%nat.

Definition isdigit (c : ascii) : bool :=
  let n := nat_of_ascii c in ((48 <=? n) && (n <=? 57))%nat.

Definition lower_char (c : ascii) : ascii :=
  let n := nat_of_ascii c in
  if ((65 <=? n) && (n <=? 90))%nat then ascii_of_nat (n + 32) else c.

(** [s.lower()] *)
Fixpoint lower (s : string) : string :=
  match s with
  | EmptyString => EmptyString
  | String c s' => String (lower_char c) (lower s')
  end.

(** [s.startswith(p)] *)
Fixpoint startswith (p s : string) : bool :=
  match p, s with
  | EmptyString, _ => true
  | String a p', String b s' => Ascii.eqb a b && startswith p' s'
  | String _ _, EmptyString => false
  end.

(** [sub in s] *)
Fixpoint contains (sub s : string) : bool :=
  startswith sub s ||
  match s with
  | EmptyString => false
  | String _ s' => contains sub s'
  end.

Fixpoint drop (n : nat) (s : string) : string :=
  match n, s with
  | O, _ => s
  | S n', String _ s' => drop n' s'
  | S _, EmptyString => EmptyString
  end.

(** [s[:n]] *)
Definition take (n : nat) (s : string) : string := String.substring 0 n s.

Definition rev (s : string) : string :=
  string_of_list_ascii (List.rev (list_ascii_of_string s)).

(** [s.lstrip()], [s.rstrip()], [s.strip()] *)
Fixpoint lstrip (s : string) : string :=
  match s with
  | EmptyString => EmptyString
  | String c s' => if isspace c then lstrip s' else s
  end.

Definition rstrip (s : string) : string := rev (lstrip (rev s)).

Definition strip (s : string) : string := rstrip (lstrip s).

(** [s.split(sep)] for a one-character separator: never empty. *)
Fixpoint split_on (sep : ascii) (s : string) : list string :=
  match s with
  | EmptyString => [EmptyString]
  | String c s' =>
      if Ascii.eqb c sep then EmptyString :: split_on sep s'
      else match split_on sep s' with
           | w :: ws => String c w :: ws
           | [] => [String c EmptyString]
           end
  end.

(** [s.split()]: the maximal runs of non-whitespace characters. *)
Fixpoint split (s : string) : list string :=
  match s with
  | EmptyString => []
  | String c s' =>
      if isspace c then split s'
      else match s' with
           | EmptyString => [String c EmptyString]
           | String c' _ =>
               if isspace c' then String c EmptyString :: split s'
               else match split s' with
                    | w :: ws => String c w :: ws
                    | [] => [String c EmptyString]
                    end
           end
  end.

(** [sep.join(l)] *)
Fixpoint join (sep : string) (l : list string) : string :=
  match l with
  | [] => EmptyString
  | [x] => x
  | x :: rest => x +:+ sep +:+ join sep rest
  end.

(** [s.replace(old, new)] for a non-empty [old]: leftmost occurrences,
    not overlapping.  [fuel] bounds the scan by the length of [s]. *)
Fixpoint replace_fuel (fuel : nat) (old new s : string) : string :=
  match fuel with
  | O => s
  | S fuel' =>
      match s with
      | EmptyString => EmptyString
      | String c s' =>
          if startswith old s
          then new +:+ replace_fuel fuel' old new (drop (String.length old) s)
          else String c (replace_fuel fuel' old new s')
      end
  end.

Definition replace (old new s : string) : string :=
  replace_fuel (String.length s) old new s.

(** [s.split(sep)[0]] for a one-character separator. *)
Definition before (sep : ascii) (s : string) : string :=
  List.hd EmptyString (split_on sep s).

(** The truth value of a string: non-empty. *)
Definition nonempty (s : string) : bool :=
  match s with EmptyString => false | _ => true end.

End PyStr.

(* ===================================================================== *)
(** * POSIX paths: [os.path] and [pathlib] *)
(* ===================================================================== *)

Module PosixPath.

(** An absolute path, as the components below [/]. *)
Definition path := list string.

Definition is_dot_or_empty (c : string) : bool :=
  String.eqb c "" || String.eqb c ".".

(** The components [pathlib] keeps when it parses a string: empty
    components and [.] are dropped, [..] is kept. *)
Definition parse_parts (s : string) : list string :=
  List.filter (fun c => negb (is_dot_or_empty c)) (PyStr.split_on "/" s).

(** [str(p)] *)
Definition path_str (p : path) : string := "/" +:+ PyStr.join "/" p.

(** [os.path.isabs(s)] *)
Definition isabs (s : string) : bool := PyStr.startswith "/" s.

(** [Path(s)] for an absolute string [s]. *)
Definition Path (s : string) : path := parse_parts s.

(** [base / s] *)
Definition joinpath (base : path) (s : string) : path :=
  if isabs s then parse_parts s else base ++ parse_parts s.

(** [p.parent]: the root is its own parent. *)
Definition parent (p : path) : path := removelast p.

(** [os.path.normpath] on an absolute path, on components: [new_comps]
    is kept reversed in [acc]; at the root [..] is dropped. *)
Fixpoint normpath_abs (comps : list string) (acc : list string) : list string :=
  match comps with
  | [] => List.rev acc
  | c :: cs =>
      if is_dot_or_empty c then normpath_abs cs acc
      else if String.eqb c ".." then normpath_abs cs (List.tl acc)
      else normpath_abs cs (c :: acc)
  end.

(** The components of [os.path.abspath(s)]; [cwd] is [os.getcwd()]. *)
Definition abspath (cwd : path) (s : string) : path :=
  if isabs s then normpath_abs (PyStr.split_on "/" s) []
  else normpath_abs (cwd ++ PyStr.split_on "/" s) [].

(** [len(os.path.commonprefix([a, b]))] on two component lists. *)
Fixpoint commonprefix_len (a b : list string) : nat :=
  match a, b with
  | x :: a', y :: b' => if String.eqb x y then S (commonprefix_len a' b') else 0
  | _, _ => 0
  end.

(** [rel_list] of [os.path.relpath(p, start)]. *)
Definition rel_list (cwd : path) (p : string) (start : string) : list string :=
  let start_list := abspath cwd start in
  let path_list := abspath cwd p in
  let i := commonprefix_len start_list path_list in
  List.repeat ".." (length start_list - i) ++ List.skipn i path_list.

(** [os.path.relpath(p, start)], [None] for the [ValueError] raised on an
    empty [p]. *)
Definition relpath (cwd : path) (p : string) (start : string) : option string :=
  if PyStr.nonempty p then
    Some match rel_list cwd p start with
         | [] => "."
         | l => PyStr.join "/" l
         end
  else None.

End PosixPath.

(* ===================================================================== *)
(** * Python objects, exceptions and the outside world *)
(* ===================================================================== *)

Module Py.

(** The objects the analysis capability can hand back. *)
Inductive pyval :=
  | PyNone
  | PyBool (b : bool)
  | PyInt (z : Z)
  | PyStr (s : string)
  | PyList (l : list pyval)
  | PyDict (d : gmap string pyval).

(** [bool(v)] *)
Definition truthy (v : pyval) : bool :=
  match v with
  | PyNone => false
  | PyBool b => b
  | PyInt z => negb (Z.eqb z 0)
  | PyStr s => PyStr.nonempty s
  | PyList l => negb (Nat.eqb (length l) 0)
  | PyDict d => negb (Nat.eqb (size d) 0)
  end.

(** [isinstance(v, dict)] *)
Definition isinstance_dict (v : pyval) : bool :=
  match v with PyDict _ => true | _ => false end.

(** [v is not None] *)
Definition is_not_None (v : pyval) : bool :=
  match v with PyNone => false | _ => true end.

(** [v.get(k)] on a dict [v]. *)
Definition get (v : pyval) (k : string) : pyval :=
  match v with
  | PyDict d => default PyNone (d !! k)
  | _ => PyNone
  end.

(** [a or b] *)
Definition or_ (a b : pyval) : pyval := if truthy a then a else b.

(** [if k not in v: v[k] = {}] on a dict [v]. *)
Definition setdefault_empty (k : string) (v : pyval) : pyval :=
  match v with
  | PyDict d =>
      match d !! k with
      | Some _ => v
      | None => PyDict (<[k := PyDict ∅]> d)
      end
  | _ => v
  end.

(** The exceptions deriving from [Exception]: [CalledProcessError], which
    the code names, and every other class.  What does not derive from
    [Exception] ([KeyboardInterrupt], [SystemExit]) is outside the model. *)
Inductive exn :=
  | CalledProcessError (returncode : Z) (cmd : list string)
  | PyError (cls : string) (msg : string).

Definition quote (s : string) : string := "'" +:+ s +:+ "'".

(** [str(e)] *)
Definition exn_str (e : exn) : string :=
  match e with
  | CalledProcessError rc cmd =>
      "Command '[" +:+ PyStr.join ", " (List.map quote cmd) +:+
      "]' returned non-zero exit status " +:+ pretty rc +:+ "."
  | PyError _ msg => msg
  end.

Definition exn_cls (e : exn) : string :=
  match e with
  | CalledProcessError _ _ => "subprocess.CalledProcessError"
  | PyError cls _ => cls
  end.

Inductive outcome (A : Type) :=
  | Ret (a : A)
  | Raise (e : exn).
Arguments Ret {A} a.
Arguments Raise {A} e.

Definition returned {A} (o : outcome A) : bool :=
  match o with Ret _ => true | Raise _ => false end.

End Py.

Import PyStr PosixPath Py.

(** The repository at the target path: what a mutating git command could
    change.  [odb] is the object database, newest revision first, with the
    tree of each revision. *)
Record Commit := mkCommit {
  c_hash : string;
  c_subject : string;
  c_tree : gmap string string
}.

Record Repo := mkRepo {
  git_dir : bool;
  HEAD : string;
  refs : gmap string string;
  worktree : gmap string string;
  odb : list Commit
}.

(** The world a run acts on: the repository, the file system outside it
    (directories and text files), the position in the stream of candidate
    temporary names, what was printed on stderr, what was passed to the
    progress callback, and the git command lines run so far. *)
Record World := mkWorld {
  w_repo : Repo;
  w_dirs : gset path;
  w_files : gmap path string;
  w_rng : nat;
  w_stderr : list string;
  w_progress : list string;
  w_cmds : list (list string)
}.

Definition set_repo (r : Repo) (w : World) : World :=
  mkWorld r (w_dirs w) (w_files w) (w_rng w) (w_stderr w) (w_progress w) (w_cmds w).
Definition set_fs (ds : gset path) (fs : gmap path string) (w : World) : World :=
  mkWorld (w_repo w) ds fs (w_rng w) (w_stderr w) (w_progress w) (w_cmds w).
Definition set_rng (n : nat) (w : World) : World :=
  mkWorld (w_repo w) (w_dirs w) (w_files w) n (w_stderr w) (w_progress w) (w_cmds w).
Definition add_stderr (msg : string) (w : World) : World :=
  mkWorld (w_repo w) (w_dirs w) (w_files w) (w_rng w) (w_stderr w ++ [msg]) (w_progress w)
    (w_cmds w).
Definition add_progress (msg : string) (w : World) : World :=
  mkWorld (w_repo w) (w_dirs w) (w_files w) (w_rng w) (w_stderr w) (w_progress w ++ [msg])
    (w_cmds w).
Definition add_cmd (argv : list string) (w : World) : World :=
  mkWorld (w_repo w) (w_dirs w) (w_files w) (w_rng w) (w_stderr w) (w_progress w)
    (w_cmds w ++ [argv]).

(** File-system operations the core issues; the environment may make any
    of them fail. *)
Inductive io_op :=
  | OpMkdtemp (d : path)
  | OpMkdir (d : path)
  | OpWrite (p : path) (content : string)
  | OpRmtree (d : path).

(** Everything the code calls and does not define. *)
Record Env := mkEnv {
  (** [os.getcwd()] *)
  cwd : path;
  (** [tempfile.gettempdir()] *)
  tempdir : path;
  (** the candidate names [tempfile] draws, and how many it tries *)
  tmp_names : nat -> string;
  TMP_MAX : nat;
  (** [subprocess.run(argv, cwd=repo_path, capture_output=True, text=True,
      check=True)]: the standard output, or the exception raised, and the
      repository afterwards *)
  git : list string -> Repo -> outcome string * Repo;
  (** the [OSError] an operation fails with, if it fails *)
  io_fault : io_op -> World -> option exn;
  (** the imported analysis capability, [None] when the import failed;
      it reads the files it is given *)
  run_complete_dataflow_analysis :
    option (list string -> gmap path string -> outcome pyval)
}.

(* ===================================================================== *)
(** * Computations that act on the world and may raise *)
(* ===================================================================== *)

Definition M (A : Type) : Type := World -> outcome A * World.

Definition ret {A} (a : A) : M A := fun w => (Ret a, w).

Definition raise {A} (e : exn) : M A := fun w => (Raise e, w).

Definition bind {A B} (m : M A) (k : A -> M B) : M B :=
  fun w =>
    match m w with
    | (Ret a, w') => k a w'
    | (Raise e, w') => (Raise e, w')
    end.

Notation "'let*' x := c1 'in' c2" := (bind c1 (fun x => c2))
  (at level 10, x name, c1 at level 100, c2 at level 200).
Notation "c1 ;;; c2" := (bind c1 (fun _ => c2))
  (at level 100, c2 at level 200, right associativity).

(** [try: m  except Exception as e: h e] *)
Definition catch {A} (m : M A) (h : exn -> M A) : M A :=
  fun w =>
    match m w with
    | (Ret a, w') => (Ret a, w')
    | (Raise e, w') => h e w'
    end.

(** [try: m  finally: f]: [f] runs on every exit of [m]; an exception of
    [f] replaces the outcome of [m]. *)
Definition finally {A} (m : M A) (f : M unit) : M A :=
  fun w =>
    match m w with
    | (o, w') =>
        match f w' with
        | (Ret _, w'') => (o, w'')
        | (Raise e, w'') => (Raise e, w'')
        end
    end.

(** [print(msg, file=sys.stderr)] *)
Definition print_stderr (msg : string) : M unit :=
  fun w => (Ret tt, add_stderr msg w).

(** [traceback.print_exc()]: the stack frames are not modelled, the last
    line is. *)
Definition traceback_print_exc (e : exn) : M unit :=
  print_stderr ("Traceback (most recent call last): " +:+ exn_cls e +:+ ": " +:+ exn_str e).

(** [if progress_callback: progress_callback(msg)].  The callback is the
    one-way message channel of the caller: it records the message. *)
Definition notify (progress_callback : bool) (msg : string) : M unit :=
  fun w => (Ret tt, if progress_callback then add_progress msg w else w).

(* ===================================================================== *)
(** * The file system outside the repository *)
(* ===================================================================== *)

(** [os.path.exists(p)] *)
Definition path_exists (p : path) (w : World) : bool :=
  bool_decide (p ∈ w_dirs w) || bool_decide (is_Some (w_files w !! p)).

Definition os_path_exists (p : path) : M bool :=
  fun w => (Ret (path_exists p w), w).

(** The non-empty prefixes of a path: the path and its ancestors. *)
Definition ancestors (d : path) : list path :=
  List.map (fun k => List.firstn k d) (List.seq 1 (length d)).

Definition under (d p : path) : Prop := d `prefix_of` p.

Section FileSystem.
Context (E : Env).

(** [tempfile.mkdtemp(prefix=prefix)]: candidate names are drawn until
    one is free; the directory is created under [tempdir]. *)
Fixpoint mkdtemp_from (prefix : string) (fuel : nat) : M path :=
  fun w =>
    match fuel with
    | O => (Raise (PyError "FileExistsError"
                     "No usable temporary directory name found"), w)
    | S fuel' =>
        let d := tempdir E ++ [prefix +:+ tmp_names E (w_rng w)] in
        let w1 := set_rng (S (w_rng w)) w in
        if path_exists d w then mkdtemp_from prefix fuel' w1
        else match io_fault E (OpMkdtemp d) w with
             | Some e => (Raise e, w1)
             | None => (Ret d, set_fs ({[d]} ∪ w_dirs w1) (w_files w1) w1)
             end
    end.

Definition mkdtemp (prefix : string) : M path :=
  mkdtemp_from prefix (TMP_MAX E).

(** [d.mkdir(parents=True, exist_ok=True)] *)
Definition mkdir_parents (d : path) : M unit :=
  fun w =>
    match io_fault E (OpMkdir d) w with
    | Some e => (Raise e, w)
    | None =>
        if List.existsb (fun a => bool_decide (is_Some (w_files w !! a))) (ancestors d)
        then (Raise (PyError "FileExistsError" (path_str d)), w)
        else (Ret tt, set_fs (list_to_set (ancestors d) ∪ w_dirs w) (w_files w) w)
    end.

(** [p.write_text(content, encoding='utf-8')] *)
Definition write_text (p : path) (content : string) : M unit :=
  fun w =>
    match io_fault E (OpWrite p content) w with
    | Some e => (Raise e, w)
    | None =>
        if bool_decide (p ∈ w_dirs w) || bool_decide (p = [])
        then (Raise (PyError "IsADirectoryError" (path_str p)), w)
        else if bool_decide (parent p ∈ w_dirs w) || bool_decide (parent p = [])
        then (Ret tt, set_fs (w_dirs w) (<[p := content]> (w_files w)) w)
        else (Raise (PyError "FileNotFoundError" (path_str p)), w)
    end.

(** [shutil.rmtree(d)]: on success nothing at or below [d] is left; a
    failing removal leaves the tree in place. *)
Definition rmtree (d : path) : M unit :=
  fun w =>
    match io_fault E (OpRmtree d) w with
    | Some e => (Raise e, w)
    | None =>
        (Ret tt,
         set_fs (filter (fun p => ¬ under d p) (w_dirs w))
                (filter (fun kv => ¬ under d kv.1) (w_files w)) w)
    end.

(** [subprocess.run(argv, cwd=self.repo_path, capture_output=True,
    text=True, check=True).stdout] *)
Definition subprocess_run (argv : list string) : M string :=
  fun w =>
    match git E argv (w_repo w) with
    | (o, r') => (o, set_repo r' (add_cmd argv w))
    end.

(** The analysis capability applied to the materialized files. *)
Definition call_analysis
    (f : list string -> gmap path string -> outcome pyval)
    (temp_files : list string) : M pyval :=
  fun w => (f temp_files (w_files w), w).

End FileSystem.

(* ===================================================================== *)
(** * [SafeGitHistoryAnalyzer] *)
(* ===================================================================== *)

Record SafeGitHistoryAnalyzer := mkAnalyzer {
  repo_path : path;
  commit_data : gmap string pyval
}.

(** [commit_hash[:8]] *)
Definition short (commit_hash : string) : string := PyStr.take 8 commit_hash.

Section Analyzer.
Context (E : Env).

(** [SafeGitHistoryAnalyzer.__init__]: [repo] is [Path(repo_path).resolve()]. *)
Definition SafeGitHistoryAnalyzer_init (repo : path) : M SafeGitHistoryAnalyzer :=
  fun w =>
    if git_dir (w_repo w)
    then (Ret (mkAnalyzer repo ∅), w)
    else (Raise (PyError "ValueError" ("Not a git repository: " +:+ path_str repo)), w).

Definition get_file_content_at_commit (self : SafeGitHistoryAnalyzer)
    (commit_hash file_path : string) : M (option string) :=
  catch
    (let* stdout := subprocess_run E ["git"; "show"; commit_hash +:+ ":" +:+ file_path] in
     ret (Some stdout))
    (fun e =>
       match e with
       | CalledProcessError _ _ => ret None
       | _ => raise e
       end).

(** The [for file_path in target_files] loop of [analyze_commit_safely];
    [temp_files] is the list built so far. *)
Fixpoint materialize (self : SafeGitHistoryAnalyzer) (temp_dir : path)
    (commit_hash : string) (target_files : list string)
    (temp_files : list string) : M (list string) :=
  match target_files with
  | [] => ret temp_files
  | file_path :: rest =>
      match relpath (cwd E) file_path (path_str (repo_path self)) with
      | None => raise (PyError "ValueError" "no path specified")
      | Some rel_path =>
          if startswith ".." rel_path
          then materialize self temp_dir commit_hash rest temp_files
          else
            let* content := get_file_content_at_commit self commit_hash rel_path in
            match content with
            | Some text =>
                let temp_file_path := joinpath temp_dir rel_path in
                mkdir_parents E (parent temp_file_path) ;;;
                write_text E temp_file_path text ;;;
                materialize self temp_dir commit_hash rest
                  (temp_files ++ [path_str temp_file_path])
            | None => materialize self temp_dir commit_hash rest temp_files
            end
      end
  end.

(** The [if run_complete_dataflow_analysis: ... else: ...] block. *)
Definition run_analysis (commit_hash : string) (progress_callback : bool)
    (temp_files : list string) : M pyval :=
  match run_complete_dataflow_analysis E with
  | Some f =>
      catch
        (let* result := call_analysis f temp_files in
         if truthy result && isinstance_dict result
         then ret (setdefault_empty "metadata" (setdefault_empty "variables" result))
         else
           notify progress_callback
             ("Analysis returned invalid result for commit " +:+ short commit_hash) ;;;
           ret PyNone)
        (fun e =>
           notify progress_callback
             ("Error during analysis for commit " +:+ short commit_hash +:+ ": " +:+ exn_str e) ;;;
           print_stderr ("Error analyzing commit " +:+ commit_hash +:+ ": " +:+ exn_str e) ;;;
           traceback_print_exc e ;;;
           ret PyNone)
  | None =>
      notify progress_callback
        ("Analysis module not available for commit " +:+ short commit_hash) ;;;
      ret PyNone
  end.

(** The body of the outer [try] after [temp_dir] is bound. *)
Definition try_body (self : SafeGitHistoryAnalyzer) (commit_hash : string)
    (target_files : list string) (progress_callback : bool) (temp_dir : path) : M pyval :=
  let* temp_files := materialize self temp_dir commit_hash target_files [] in
  match temp_files with
  | [] =>
      notify progress_callback ("No files found in commit " +:+ short commit_hash) ;;;
      ret PyNone
  | _ => run_analysis commit_hash progress_callback temp_files
  end.

(** The outer [except Exception as e] handler. *)
Definition on_error (commit_hash : string) (e : exn) : M pyval :=
  print_stderr ("Error analyzing commit " +:+ commit_hash +:+ ": " +:+ exn_str e) ;;;
  traceback_print_exc e ;;;
  ret PyNone.

(** The [finally] block; [temp_dir] is [None] when [mkdtemp] raised. *)
Definition cleanup (temp_dir : option path) : M unit :=
  match temp_dir with
  | Some d =>
      let* present := os_path_exists d in
      if present
      then catch (rmtree E d)
             (fun e => print_stderr ("Warning: Could not clean up temp directory "
                                     +:+ path_str d +:+ ": " +:+ exn_str e))
      else ret tt
  | None => ret tt
  end.

(** [analyze_commit_safely]: the outer [try] is split at the binding of
    [temp_dir], the variable the [finally] block reads. *)
Definition analyze_commit_safely (self : SafeGitHistoryAnalyzer) (commit_hash : string)
    (target_files : list string) (progress_callback : bool) : M pyval :=
  notify progress_callback ("Analyzing commit " +:+ short commit_hash +:+ "...") ;;;
  fun w =>
    match mkdtemp E ("git_analysis_" +:+ short commit_hash +:+ "_") w with
    | (Raise e, w1) => finally (on_error commit_hash e) (cleanup None) w1
    | (Ret temp_dir, w1) =>
        finally
          (catch (try_body self commit_hash target_files progress_callback temp_dir)
                 (on_error commit_hash))
          (cleanup (Some temp_dir)) w1
    end.

(** [[line.split()[0] for line in commit_lines if line.strip()]] *)
Fixpoint commits_of_lines (commit_lines : list string) : outcome (list string) :=
  match commit_lines with
  | [] => Ret []
  | line :: rest =>
      if nonempty (strip line) then
        match split line with
        | [] => Raise (PyError "IndexError" "list index out of range")
        | first :: _ =>
            match commits_of_lines rest with
            | Ret commits => Ret (first :: commits)
            | Raise e => Raise e
            end
        end
      else commits_of_lines rest
  end.

(** The body of the [for i, commit_hash in enumerate(commits)] loop after
    the call of [analyze_commit_safely]. *)
Definition store_result (progress_callback : bool) (commit_hash : string)
    (result : pyval) (results : gmap string pyval) : M (gmap string pyval) :=
  if is_not_None result && isinstance_dict result then
    if truthy (or_ (get result "variables") (get result "metadata"))
    then ret (<[commit_hash := result]> results)
    else
      notify progress_callback ("Commit " +:+ short commit_hash +:+ " has no dataflow data") ;;;
      ret results
  else ret results.

Fixpoint for_commits (self : SafeGitHistoryAnalyzer) (target_files : list string)
    (progress_callback : bool) (total i : nat) (commits : list string)
    (results : gmap string pyval) : M (gmap string pyval) :=
  match commits with
  | [] => ret results
  | commit_hash :: rest =>
      notify progress_callback
        ("Processing commit " +:+ pretty (i + 1) +:+ "/" +:+ pretty total +:+ ": "
         +:+ short commit_hash) ;;;
      let* result := analyze_commit_safely self commit_hash target_files progress_callback in
      let* results' := store_result progress_callback commit_hash result results in
      for_commits self target_files progress_callback total (S i) rest results'
  end.

Definition LF : ascii := "010"%char.

Definition analyze_all_commits (self : SafeGitHistoryAnalyzer)
    (target_files : list string) (progress_callback : bool) : M (gmap string pyval) :=
  fun w =>
    match subprocess_run E ["git"; "log"; "--oneline"; "--all"] w with
    | (Ret stdout, w1) =>
        match commits_of_lines (split_on LF (strip stdout)) with
        | Ret commits =>
            for_commits self target_files progress_callback (length commits) 0 commits ∅ w1
        | Raise e => (Raise e, w1)
        end
    | (Raise (CalledProcessError rc cmd), w1) =>
        (print_stderr ("Error getting commit list: " +:+ exn_str (CalledProcessError rc cmd)) ;;;
         ret ∅) w1
    | (Raise e, w1) => (Raise e, w1)
    end.

End Analyzer.

(* ===================================================================== *)
(** * A small git and a sample environment *)
(* ===================================================================== *)

Module MiniGit.

(** [rev:path] of [git show]. *)
Definition rev_of (spec : string) : string := before ":" spec.
Definition path_of (spec : string) : string :=
  PyStr.drop (String.length (rev_of spec) + 1) spec.

Definition find_commit (rev : string) (r : Repo) : option Commit :=
  List.find (fun c => String.eqb (c_hash c) rev) (odb r).

(** [git log --oneline --all]: one line per revision. *)
Definition oneline (c : Commit) : string :=
  c_hash c +:+ " " +:+ c_subject c +:+ String LF "".

Definition log_all (r : Repo) : string :=
  List.fold_right (fun c acc => oneline c +:+ acc) "" (odb r).

Definition is_cmd (sub : string) (argv : list string) : bool :=
  match argv with
  | g :: s :: _ => String.eqb g "git" && String.eqb s sub
  | _ => false
  end.

(** The commands of git this development needs: the two queries the
    analyzer issues, and [git checkout <rev>], which moves [HEAD] and
    rewrites the working tree.  Exit status 128 is git's fatal error. *)
Definition run (argv : list string) (r : Repo) : outcome string * Repo :=
  if negb (git_dir r) then (Raise (CalledProcessError 128 argv), r)
  else if is_cmd "show" argv then
    match List.nth_error argv 2 with
    | Some spec =>
        match find_commit (rev_of spec) r with
        | Some c =>
            match c_tree c !! path_of spec with
            | Some text => (Ret text, r)
            | None => (Raise (CalledProcessError 128 argv), r)
            end
        | None => (Raise (CalledProcessError 128 argv), r)
        end
    | None => (Raise (CalledProcessError 128 argv), r)
    end
  else if is_cmd "log" argv then
    match odb r with
    | [] => (Raise (CalledProcessError 128 argv), r)
    | _ => (Ret (log_all r), r)
    end
  else if is_cmd "checkout" argv then
    match List.nth_error argv 2 with
    | Some rev =>
        match find_commit rev r with
        | Some c => (Ret "", mkRepo (git_dir r) rev (refs r) (c_tree c) (odb r))
        | None => (Raise (CalledProcessError 1 argv), r)
        end
    | None => (Raise (CalledProcessError 1 argv), r)
    end
  else (Raise (CalledProcessError 1 argv), r).

End MiniGit.

Module Sample.

(** Three revisions, newest first: [a1] introduces [a.py], [b2] adds
    [b.py] and a file under a directory whose name starts with two dots,
    [c3] deletes [a.py]. *)
Definition tree1 : gmap string string := {[ "a.py" := "x = 1" ]}.
Definition tree2 : gmap string string :=
  <[ "..cfg/k.py" := "k = 0" ]> (<[ "b.py" := "y = x" ]> tree1).
Definition tree3 : gmap string string := delete "a.py" tree2.

Definition history : list Commit :=
  [ mkCommit "c3c3c3c" "delete a" tree3;
    mkCommit "b2b2b2b" "add b" tree2;
    mkCommit "a1a1a1a" "add a" tree1 ].

Definition repo0 : Repo :=
  mkRepo true "c3c3c3c" {[ "refs/heads/main" := "c3c3c3c" ]} tree3 history.

Definition world0 : World :=
  mkWorld repo0 {[ ["tmp"] ]} ∅ 0 [] [] [].

(** An analysis capability: one variable per file it is given; it raises
    on a file that reads [raise], and leaves out [metadata]. *)
Definition analysis (temp_files : list string) (files : gmap path string)
    : outcome pyval :=
  if List.existsb
       (fun f => bool_decide (files !! Path f = Some "raise")) temp_files
  then Raise (PyError "SyntaxError" "invalid syntax")
  else
    Ret (PyDict {[ "variables" :=
           PyDict (list_to_map
             (List.map (fun f => (f, PyStr (default "" (files !! Path f))))
                temp_files)) ]}).

Definition no_fault : io_op -> World -> option exn := fun _ _ => None.

Definition env : Env :=
  mkEnv ["home"] ["tmp"] pretty 100 MiniGit.run no_fault (Some analysis).



(** The same host where removing a tree fails. *)
Definition rmtree_fault (op : io_op) (w : World) : option exn :=
  match op with
  | OpRmtree _ => Some (PyError "PermissionError" "[Errno 13] Permission denied")
  | _ => None
  end.

Definition env_no_rm : Env :=
  mkEnv ["home"] ["tmp"] pretty 100 MiniGit.run rmtree_fault (Some analysis).

Definition analyzer : SafeGitHistoryAnalyzer := mkAnalyzer ["repo"] ∅.

Definition targets : list string := ["/repo/a.py"; "/repo/b.py"].

End Sample.

(** A repository without a revision: [git log] fails. *)
Module EmptyRepo.
Definition repo : Repo := mkRepo true "" ∅ ∅ [].
Definition world : World := mkWorld repo {[ ["tmp"] ]} ∅ 0 [] [] [].
End EmptyRepo.

(* ===================================================================== *)
(** * The start button of [GitHistoryDataflowGUI] *)
(* ===================================================================== *)

Module Gui.

(** The part of the window [start_analysis] and its worker thread read
    and write.  Handlers of the window run one at a time on the main
    thread; a worker thread takes its steps between them.  A worker is
    [traversing] until its [finally] block has run
    [self.is_analyzing = False], and [finishing] from then until the
    thread ends. *)
Record State := mkState {
  is_analyzing : bool;
  analyzer : bool;              (** [self.analyzer is not None] *)
  repo_valid : bool;            (** [(self.repo_path / '.git').exists()] *)
  target_files : list string;   (** the files list box *)
  traversing : nat;
  finishing : nat;
  dialogs : list string         (** message boxes shown so far *)
}.

Inductive response := AlreadyRunning | NotStarted | Started.

Definition show_dialog (msg : string) (s : State) : State :=
  mkState (is_analyzing s) (analyzer s) (repo_valid s) (target_files s)
          (traversing s) (finishing s) (dialogs s ++ [msg]).

(** [_ensure_analyzer()] *)
Definition _ensure_analyzer (s : State) : bool * State :=
  if analyzer s then (true, s)
  else if repo_valid s
  then (true, mkState (is_analyzing s) true (repo_valid s) (target_files s)
                (traversing s) (finishing s) (dialogs s))
  else (false, show_dialog "Error: Not a git repository" s).

(** [start_analysis]: the last statement starts the worker thread. *)
Definition start_analysis (s : State) : State * response :=
  if is_analyzing s
  then (show_dialog "Warning: Analysis already in progress" s, AlreadyRunning)
  else
    match _ensure_analyzer s with
    | (false, s1) => (s1, NotStarted)
    | (true, s1) =>
        match target_files s1 with
        | [] => (show_dialog "Error: Please select at least one file to analyze" s1,
                 NotStarted)
        | _ =>
            (mkState true (analyzer s1) (repo_valid s1) (target_files s1)
               (S (traversing s1)) (finishing s1) (dialogs s1), Started)
        end
    end.

(** The steps of the window and of its workers. *)
Inductive step : State -> State -> Prop :=
  | step_start s :
      step s (start_analysis s).1
  | step_finally s n :
      (** a worker runs [self.is_analyzing = False] *)
      traversing s = S n ->
      step s (mkState false (analyzer s) (repo_valid s) (target_files s)
                n (S (finishing s)) (dialogs s))
  | step_exit s n :
      (** a worker thread ends *)
      finishing s = S n ->
      step s (mkState (is_analyzing s) (analyzer s) (repo_valid s) (target_files s)
                (traversing s) n (dialogs s))
  | step_edit s a v fs :
      (** the other handlers: browse for a repository, edit the file list *)
      step s (mkState (is_analyzing s) a v fs (traversing s) (finishing s) (dialogs s)).

Definition initial (s : State) : Prop :=
  is_analyzing s = false /\ traversing s = 0 /\ finishing s = 0.

Inductive reachable : State -> Prop :=
  | reach_init s : initial s -> reachable s
  | reach_step s s' : reachable s -> step s s' -> reachable s'.

(** The flag covers the traversing worker. *)
Definition guarded (s : State) : Prop :=
  if is_analyzing s then traversing s <= 1 else traversing s = 0.

End Gui.

(* ===================================================================== *)
(** * The regular expressions of [cmake_parser.py] *)
(* ===================================================================== *)

Module Re.

(** [re.search]: the leftmost position at which [m] matches. *)
Fixpoint search {A} (m : string -> option A) (s : string) : option A :=
  match m s with
  | Some a => Some a
  | None =>
      match s with
      | EmptyString => None
      | String _ s' => search m s'
      end
  end.

(** A literal at the start of [s]; the rest of [s] is returned. *)
Definition lit (name s : string) : option string :=
  if startswith name s then Some (PyStr.drop (String.length name) s) else None.

(** The same under [re.IGNORECASE]. *)
Definition lit_i (name s : string) : option string :=
  if startswith (lower name) (lower s)
  then Some (PyStr.drop (String.length name) s) else None.

(** [\s*\(]: the rest after the parenthesis. *)
Definition open_paren (s : string) : option string :=
  match lstrip s with
  | String "(" s' => Some s'
  | _ => None
  end.

(** [(.*?)\)]: the text before the first closing parenthesis; [.] does
    not match a line feed. *)
Fixpoint until_close (s : string) : option string :=
  match s with
  | EmptyString => None
  | String c s' =>
      if Ascii.eqb c ")" then Some EmptyString
      else if Ascii.eqb c LF then None
      else option_map (String c) (until_close s')
  end.

(** [[^)]+\)] *)
Definition some_then_close (s : string) : bool :=
  match s with
  | EmptyString => false
  | String c s' => negb (Ascii.eqb c ")") && contains ")" s'
  end.

Fixpoint digits (s : string) : string :=
  match s with
  | String c s' => if isdigit c then String c (digits s') else EmptyString
  | EmptyString => EmptyString
  end.

(** [name\s*\((.*?)\)] with [re.IGNORECASE]: group 1. *)
Definition call_args (name : string) : string -> option string :=
  search (fun s =>
    match lit_i name s with
    | Some rest =>
        match open_paren rest with
        | Some inner => until_close inner
        | None => None
        end
    | None => None
    end).

(** [name\s*\([^)]+\)] with [re.IGNORECASE]: whether it is found. *)
Definition call_nonempty (name : string) (line : string) : bool :=
  match search (fun s =>
          match lit_i name s with
          | Some rest =>
              match open_paren rest with
              | Some inner => if some_then_close inner then Some tt else None
              | None => None
              end
          | None => None
          end) line with
  | Some _ => true
  | None => false
  end.

(** [CMAKE_CXX_STANDARD\s+(\d+)]: group 1. *)
Definition cxx_standard_value : string -> option string :=
  search (fun s =>
    match lit "CMAKE_CXX_STANDARD" s with
    | Some rest =>
        let after := lstrip rest in
        if (String.length after <? String.length rest)%nat
        then match digits after with
             | EmptyString => None
             | d => Some d
             end
        else None
    | None => None
    end).

(** [set\s*\(\s*VAR] with [re.IGNORECASE]: whether it is found. *)
Definition set_var (var : string) (line : string) : bool :=
  match search (fun s =>
          match lit_i "set" s with
          | Some rest =>
              match open_paren rest with
              | Some inner => lit_i var (lstrip inner)
              | None => None
              end
          | None => None
          end) line with
  | Some _ => true
  | None => false
  end.

End Re.

(* ===================================================================== *)
(** * [CMakeParser] *)
(* ===================================================================== *)

Module CMake.

(** [self.settings]; the empty dict of a parser whose descriptor does not
    exist reads, through [settings.get(key, default)], as
    [initial_settings]. *)
Record Settings := mkSettings {
  include_dirs : list string;
  definitions : list string;
  cxx_standard : string;
  source_files : list string;
  header_files : list string;
  link_directories : list string;
  link_libraries : list string
}.

Definition initial_settings : Settings := mkSettings [] [] "17" [] [] [] [].

(** The two keys [_parse_file_list] is called with. *)
Inductive file_key := key_source_files | key_header_files.

Definition append_include_dir (v : string) (st : Settings) : Settings :=
  mkSettings (include_dirs st ++ [v]) (definitions st) (cxx_standard st)
    (source_files st) (header_files st) (link_directories st) (link_libraries st).

Definition append_definition (v : string) (st : Settings) : Settings :=
  mkSettings (include_dirs st) (definitions st ++ [v]) (cxx_standard st)
    (source_files st) (header_files st) (link_directories st) (link_libraries st).

Definition set_cxx_standard (v : string) (st : Settings) : Settings :=
  mkSettings (include_dirs st) (definitions st) v
    (source_files st) (header_files st) (link_directories st) (link_libraries st).

Definition append_file (key : file_key) (v : string) (st : Settings) : Settings :=
  match key with
  | key_source_files =>
      mkSettings (include_dirs st) (definitions st) (cxx_standard st)
        (source_files st ++ [v]) (header_files st) (link_directories st) (link_libraries st)
  | key_header_files =>
      mkSettings (include_dirs st) (definitions st) (cxx_standard st)
        (source_files st) (header_files st ++ [v]) (link_directories st) (link_libraries st)
  end.

Section Parser.
(** The paths that exist when the descriptor is parsed, and
    [self.source_dir]. *)
Context (fs : gset path) (source_dir : path).

(** [p.exists()], as a test of presence: the errors of [stat] other than
    absence are not modelled. *)
Definition exists_ (p : path) : bool := bool_decide (p ∈ fs).

Definition _resolve_path (path_str0 : string) : path :=
  let s := replace "${CMAKE_SOURCE_DIR}" (path_str source_dir) path_str0 in
  let s := replace "${CMAKE_CURRENT_SOURCE_DIR}" (path_str source_dir) s in
  let s := replace "${CMAKE_CURRENT_LIST_DIR}" (path_str source_dir) s in
  let s := if isabs s then s else path_str (joinpath source_dir s) in
  Path s.

(** [if dir_path and dir_path.exists(): include_dirs.append(str(dir_path))] *)
Definition add_include_dir (arg : string) (st : Settings) : Settings :=
  let dir_path := _resolve_path arg in
  if exists_ dir_path then append_include_dir (path_str dir_path) st else st.

(** [if file_path and file_path.exists(): settings[key].append(str(file_path))] *)
Definition add_file (key : file_key) (file_line : string) (st : Settings) : Settings :=
  let file_path := _resolve_path file_line in
  if exists_ file_path then append_file key (path_str file_path) st else st.

Definition _parse_include_directories (line : string) (st : Settings) : Settings :=
  match Re.call_args "include_directories" line with
  | Some args => List.fold_left (fun st arg => add_include_dir arg st) (split args) st
  | None => st
  end.

(** [arg[2:]], cut at the first [=]. *)
Definition definition_name (arg : string) : string :=
  let def_name := PyStr.drop 2 arg in
  if contains "=" def_name then before "=" def_name else def_name.

Definition add_definition (arg : string) (st : Settings) : Settings :=
  if startswith "-D" arg then append_definition (definition_name arg) st else st.

Definition _parse_definitions (line : string) (st : Settings) : Settings :=
  match Re.call_args "add_definitions" line with
  | Some args => List.fold_left (fun st arg => add_definition arg st) (split args) st
  | None => st
  end.

Definition _parse_cxx_standard (line : string) (st : Settings) : Settings :=
  match Re.cxx_standard_value line with
  | Some v => set_cxx_standard v st
  | None => st
  end.

(** [_parse_file_list]: [following] is [all_lines[start_line + 1:]]. *)
Fixpoint _parse_file_list (following : list string) (key : file_key)
    (st : Settings) : Settings :=
  match following with
  | [] => st
  | raw :: rest =>
      let file_line := strip raw in
      if startswith ")" file_line then st
      else if nonempty file_line && negb (startswith "#" file_line)
      then _parse_file_list rest key (add_file key file_line st)
      else _parse_file_list rest key st
  end.

Definition scope_keywords : list string :=
  ["target_include_directories"; "("; "PRIVATE"; "PUBLIC"; "INTERFACE"; ")"].

Definition is_keyword (part : string) : bool :=
  List.existsb (String.eqb part) scope_keywords.

Definition _parse_target_include_directories (line : string) (st : Settings) : Settings :=
  if Re.call_nonempty "target_include_directories" line
  then List.fold_left
         (fun st part => if is_keyword part then st else add_include_dir part st)
         (split line) st
  else st.

Definition _parse_target_compile_definitions (line : string) (st : Settings) : Settings :=
  if Re.call_nonempty "target_compile_definitions" line
  then List.fold_left (fun st part => add_definition part st) (split line) st
  else st.

(** One turn of the [while] loop of [_parse] on a line that is neither
    empty nor a comment: the [if]/[elif] chain. *)
Definition dispatch (line : string) (following : list string) (st : Settings) : Settings :=
  if contains "include_directories" (lower line)
  then _parse_include_directories line st
  else if contains "add_definitions" (lower line)
  then _parse_definitions line st
  else if contains "CMAKE_CXX_STANDARD" line
  then _parse_cxx_standard line st
  else if Re.set_var "SOURCES" line
  then _parse_file_list following key_source_files st
  else if Re.set_var "HEADERS" line
  then _parse_file_list following key_header_files st
  else if contains "target_include_directories" (lower line)
  then _parse_target_include_directories line st
  else if contains "target_compile_definitions" (lower line)
  then _parse_target_compile_definitions line st
  else st.

(** The [while i < len(lines)] loop: [lines] is [lines[i:]]. *)
Fixpoint parse_lines (lines : list string) (st : Settings) : Settings :=
  match lines with
  | [] => st
  | raw :: following =>
      let line := strip raw in
      if negb (nonempty line) || startswith "#" line
      then parse_lines following st
      else parse_lines following (dispatch line following st)
  end.

Definition _parse (content : string) : Settings :=
  parse_lines (split_on LF content) initial_settings.

End Parser.

Record CMakeParser := mkParser {
  cmake_path : path;
  source_dir : path;
  settings : Settings
}.

(** [CMakeParser.__init__]: [read_text] is what reading a file gives. *)
Definition CMakeParser_init (fs : gset path) (read_text : path -> outcome string)
    (cmake : path) : outcome CMakeParser :=
  if exists_ fs cmake then
    match read_text cmake with
    | Ret content => Ret (mkParser cmake (parent cmake) (_parse fs (parent cmake) content))
    | Raise e => Raise e
    end
  else Ret (mkParser cmake (parent cmake) initial_settings).

End CMake.

Module CMakeSample.

Definition lines : list string :=
  [ "cmake_minimum_required(VERSION 3.10)";
    "# a comment";
    "set(CMAKE_CXX_STANDARD 20)";
    "include_directories(${CMAKE_SOURCE_DIR}/include ${UNSET_VAR}/inc missing)";
    "add_definitions(-DDEBUG -DLEVEL=3)";
    "set(SOURCES";
    "    src/main.cpp";
    "    src/gone.cpp";
    ")";
    "set(HEADERS";
    "    include/app.h";
    ")";
    "Target_Include_Directories(app PRIVATE src)" ].

Definition content : string := join (String LF "") lines.

Definition fs : gset path :=
  {[ ["proj"; "CMakeLists.txt"]; ["proj"; "include"]; ["proj"; "src"];
     ["proj"; "src"; "main.cpp"]; ["proj"; "include"; "app.h"] ]}.

Definition read_text (p : path) : outcome string := Ret content.

End CMakeSample.

(* ===================================================================== *)
(** * The vocabulary of the properties *)
(* ===================================================================== *)

(** ** Outcomes of a computation *)

(** A computation never raises. *)
Definition total {A} (m : M A) : Prop := forall w, returned (m w).1 = true.

Definition returns {A} (P : A -> Prop) (m : M A) : Prop :=
  forall w a w', m w = (Ret a, w') -> P a.

(** A relation between the world before and after that every step of a
    computation respects. *)
Definition preserves (R : World -> World -> Prop) {A} (m : M A) : Prop :=
  forall w, R w (m w).2.

(** ** Commands and the repository *)

(** The queries of git that do not write: [show], [log], [ls-files],
    [rev-parse]. *)
Definition read_only (argv : list string) : bool :=
  match argv with
  | g :: sub :: _ =>
      String.eqb g "git" &&
      (String.eqb sub "show" || String.eqb sub "log" ||
       String.eqb sub "ls-files" || String.eqb sub "rev-parse")
  | _ => false
  end.

(** What git promises of its queries. *)
Definition read_only_contract (E : Env) : Prop :=
  forall argv r, read_only argv = true -> (git E argv r).2 = r.

Definition same_repo (w w' : World) : Prop := w_repo w' = w_repo w.

(** The command lines run between [w] and [w'] are queries. *)
Definition only_queries (w w' : World) : Prop :=
  exists issued, w_cmds w' = w_cmds w ++ issued /\
                 Forall (fun argv => read_only argv = true) issued.

Definition show_argv (commit_hash file_path : string) : list string :=
  ["git"; "show"; commit_hash +:+ ":" +:+ file_path].

Definition log_argv : list string := ["git"; "log"; "--oneline"; "--all"].

(** ** Messages *)

(** The progress message that opens the pass of a revision. *)
Definition is_processing (msg : string) : bool :=
  startswith "Processing commit " msg.

Definition processing_msg (total i : nat) (commit_hash : string) : string :=
  "Processing commit " +:+ pretty (i + 1) +:+ "/" +:+ pretty total +:+ ": "
  +:+ short commit_hash.


(** [w'] extends the progress log of [w], and the messages added that open
    the pass of a revision are [msgs], in this order. *)
Definition progress_ext (msgs : list string) (w w' : World) : Prop :=
  exists extra, w_progress w' = w_progress w ++ extra /\
                List.filter is_processing extra = msgs.

Definition quiet : World -> World -> Prop := progress_ext [].



Definition error_line (commit_hash : string) (e : exn) : string :=
  "Error analyzing commit " +:+ commit_hash +:+ ": " +:+ exn_str e.

Definition traceback_line (e : exn) : string :=
  "Traceback (most recent call last): " +:+ exn_cls e +:+ ": " +:+ exn_str e.

Definition analysis_error_note (commit_hash : string) (e : exn) : string :=
  "Error during analysis for commit " +:+ short commit_hash +:+ ": " +:+ exn_str e.

Definition cleanup_warning (d : path) (e : exn) : string :=
  "Warning: Could not clean up temp directory " +:+ path_str d +:+ ": " +:+ exn_str e.

Definition no_data_note (commit_hash : string) : string :=
  "Commit " +:+ short commit_hash +:+ " has no dataflow data".

(** ** Results *)

(** The two [if key not in result] statements of [analyze_commit_safely]. *)
Definition ensure_keys (result : pyval) : pyval :=
  setdefault_empty "metadata" (setdefault_empty "variables" result).


(** A result of the pass: [None], or a dict the analysis capability
    returned, with the two required keys ensured. *)
Definition pass_result (E : Env) (v : pyval) : Prop :=
  v = PyNone \/
  exists f temp_files files d0,
    run_complete_dataflow_analysis E = Some f /\
    f temp_files files = Ret (PyDict d0) /\
    v = ensure_keys (PyDict d0).

(** A result worth storing: present, a dict, and [variables] or [metadata]
    is true (for a mapping: non-empty). *)
Definition meaningful (result : pyval) : bool :=
  is_not_None result && isinstance_dict result &&
  (truthy (get result "variables") || truthy (get result "metadata")).


(** ** One pass *)



(** ** Target files *)

(** The path a target file is written to, when the loop writes it: its
    path relative to the repository does not start with two dots and
    [git show] printed its content. *)
Definition selected (E : Env) (self : SafeGitHistoryAnalyzer) (temp_dir : path)
    (commit_hash : string) (r : Repo) (file_path : string) : option path :=
  match relpath (cwd E) file_path (path_str (repo_path self)) with
  | Some rel_path =>
      if startswith ".." rel_path then None
      else match (git E (show_argv commit_hash rel_path) r).1 with
           | Ret _ => Some (joinpath temp_dir rel_path)
           | Raise _ => None
           end
  | None => None
  end.

Fixpoint no_char (c : ascii) (s : string) : bool :=
  match s with
  | EmptyString => true
  | String a s' => negb (Ascii.eqb a c) && no_char c s'
  end.

(** A component of a normalized path. *)
Definition clean (c : string) : Prop :=
  is_dot_or_empty c = false /\ String.eqb c ".." = false /\ no_char "/" c = true.

(** ** Recorded paths *)



(* ===================================================================== *)
(** * [find_git_repo_root] *)
(* ===================================================================== *)

Module RepoRoot.

Section Find.
(** The regular files and the paths that exist. *)
Context (files present : gset path).

(** [p.is_file()] and [p.exists()] *)
Definition is_file (p : path) : bool := bool_decide (p ∈ files).
Definition exists_ (p : path) : bool := bool_decide (p ∈ present).

(** The [while path != path.parent] loop; [fuel] bounds the walk by the
    depth of the path. *)
Fixpoint walk_up (fuel : nat) (p : path) : option string :=
  match fuel with
  | O => None
  | S fuel' =>
      if bool_decide (p = parent p) then None
      else if exists_ (joinpath p ".git") then Some (path_str p)
      else walk_up fuel' (parent p)
  end.

(** [find_git_repo_root]: [file_path] is [Path(file_path).resolve()]. *)
Definition find_git_repo_root (file_path : path) : option string :=
  let p := if is_file file_path then parent file_path else file_path in
  walk_up (S (length p)) p.

End Find.

End RepoRoot.

(** The deepest directory at or above [start], the root of the file system
    left out, that holds [.git]; and there being none. *)
Definition nearest_root (present : gset path) (start root : path) : Prop :=
  root <> [] /\ root `prefix_of` start /\ (root ++ [".git"]) ∈ present /\
  forall q, root `prefix_of` q -> q `prefix_of` start -> (q ++ [".git"]) ∈ present -> q = root.

Definition no_root (present : gset path) (start : path) : Prop :=
  forall q, q <> [] -> q `prefix_of` start -> (q ++ [".git"]) ∉ present.

(** The keys of [final] are among [commits] and the keys of [results], and
    [final] has at most one more entry per revision. *)
Definition keys_within (results : gmap string pyval) (commits : list string)
    (final : gmap string pyval) : Prop :=
  (forall c, is_Some (final !! c) -> is_Some (results !! c) \/ c ∈ commits) /\
  size final <= size results + length commits.

(** The [git show] command line the loop of [analyze_commit_safely] runs
    for a target file: none for a file whose path relative to the
    repository starts with two dots. *)
Definition fetch_of (E : Env) (self : SafeGitHistoryAnalyzer) (commit_hash : string)
    (file_path : string) : option (list string) :=
  match relpath (cwd E) file_path (path_str (repo_path self)) with
  | Some rel_path =>
      if startswith ".." rel_path then None else Some (show_argv commit_hash rel_path)
  | None => None
  end.

Definition same_cmds (w w' : World) : Prop := w_cmds w' = w_cmds w.

(** The file system after a step differs from the one before only at the
    directory [d] and below it: the files elsewhere are the same, no
    directory elsewhere is gone, and a new directory elsewhere is an
    ancestor of [d] (what [mkdir(parents=True)] creates on the way). *)
Definition within (d : path) (w w' : World) : Prop :=
  (forall p, ¬ under d p -> w_files w' !! p = w_files w !! p) /\
  (forall p, ¬ under d p -> p ∈ w_dirs w -> p ∈ w_dirs w') /\
  (forall p, p ∈ w_dirs w' -> p ∈ w_dirs w \/ under d p \/ p `prefix_of` d).

Definition same_fs (w w' : World) : Prop :=
  w_dirs w' = w_dirs w /\ w_files w' = w_files w.

(** A word: a non-empty string without whitespace, as the abbreviated
    hash at the start of a line of [git log --oneline]. *)
Fixpoint no_space (s : string) : bool :=
  match s with
  | EmptyString => true
  | String c s' => negb (isspace c) && no_space s'
  end.

Definition token (s : string) : Prop := nonempty s = true /\ no_space s = true.

(** A revision whose hash is a word and whose subject is one line. *)
Definition oneline_ok (c : Commit) : Prop :=
  token (c_hash c) /\ no_char LF (c_subject c) = true.

(** What follows a word at the start of a line: nothing, or text that
    begins with whitespace. *)
Definition word_end (t : string) : Prop :=
  t = "" \/ exists c t', t = String c t' /\ isspace c = true.

(* ===================================================================== *)
(** * The progress display of the window *)
(* ===================================================================== *)

Module Progress.

Definition cons_hd (c : ascii) (l : list string) : list string :=
  match l with
  | w :: ws => String c w :: ws
  | [] => [String c EmptyString]
  end.

(** [s.split(sep)] for a non-empty [sep] of any length: the occurrences
    of [sep] are taken from the left and do not overlap.  [skip] counts
    the characters of an occurrence that are still to be passed. *)
Fixpoint split_str_from (sep : string) (skip : nat) (s : string) : list string :=
  match s with
  | EmptyString => [EmptyString]
  | String c s' =>
      match skip with
      | S k => split_str_from sep k s'
      | O =>
          if startswith sep s
          then EmptyString :: split_str_from sep (String.length sep - 1) s'
          else cons_hd c (split_str_from sep 0 s')
      end
  end.

Definition split_str (sep s : string) : list string := split_str_from sep 0 s.

Definition digit_value (c : ascii) : Z := Z.of_nat (nat_of_ascii c - 48).

(** The digits of a decimal literal after a digit: a single underscore
    may stand between two digits. *)
Fixpoint int_digits (acc : Z) (s : string) : option Z :=
  match s with
  | EmptyString => Some acc
  | String c s' =>
      if isdigit c then int_digits (10 * acc + digit_value c) s'
      else if Ascii.eqb c "_" then
        match s' with
        | String d s'' =>
            if isdigit d then int_digits (10 * acc + digit_value d) s'' else None
        | EmptyString => None
        end
      else None
  end.

Definition int_unsigned (s : string) : option Z :=
  match s with
  | String c s' => if isdigit c then int_digits (digit_value c) s' else None
  | EmptyString => None
  end.

(** [int(s)] on a string: whitespace around the literal is dropped, a
    sign may come first; [None] for a [ValueError]. *)
Definition int_of_str (s : string) : option Z :=
  match strip s with
  | String "+" t => int_unsigned t
  | String "-" t => option_map Z.opp (int_unsigned t)
  | t => int_unsigned t
  end.

(** What the worker asks the window to show: the lines of the log, the
    counter [commit_count[0]], the operands [current] and [total] of the
    percentage the bar is set to, and the text of the label. *)
Record View := mkView {
  shown : list string;
  commit_count : Z;
  bar : option (Z * Z);
  label : option string
}.

(** [progress_callback(msg)]: the message goes to the log. *)
Definition progress_callback (msg : string) (v : View) : View :=
  mkView (shown v ++ [msg]) (commit_count v) (bar v) (label v).

Definition set_commit_count (n : Z) (v : View) : View :=
  mkView (shown v) n (bar v) (label v).

(** [update_progress(current, total, status)] *)
Definition update_progress (current total : Z) (status : string) (v : View) : View :=
  if (0 <? total)%Z
  then mkView (shown v) (commit_count v) (Some (current, total))
         (Some (pretty current +:+ "/" +:+ pretty total +:+ " " +:+ status))
  else mkView (shown v) (commit_count v) (bar v) (Some status).

(** [enhanced_progress_callback(msg)]; the bare [except] swallows the
    [IndexError] and the [ValueError]s of the block. *)
Definition enhanced_progress_callback (msg : string) (v : View) : View :=
  let v := progress_callback msg v in
  if contains "Processing commit" msg then
    match List.nth_error (split_str "Processing commit" msg) 1 with
    | Some piece =>
        let parts := strip (before ":" piece) in
        if contains "/" parts then
          match split_on "/" parts with
          | [current; total] =>
              match int_of_str current with
              | Some n =>
                  let v := set_commit_count n v in
                  match int_of_str total with
                  | Some t => update_progress n t "commits" v
                  | None => v
                  end
              | None => v
              end
          | _ => v
          end
        else v
    | None => v
    end
  else v.

End Progress.

Fixpoint all_digits (s : string) : bool :=
  match s with
  | EmptyString => true
  | String c s' => isdigit c && all_digits s'
  end.

(* ===================================================================== *)
(** * The compile arguments of [CMakeParser] *)
(* ===================================================================== *)

Module CMakeArgs.
Import CMake.

Section Host.
(** [os.path.exists] on a string, and what running [clang++ -E -x c++ - -v]
    gives: the text of its standard error, or the exception of
    [subprocess.run].  The host is not [win32]. *)
Context (os_path_exists : string -> bool) (clang : outcome string).

(** The [for line in result.stderr.split('\n')] loop.  In its condition
    [and] binds tighter than [or]. *)
Fixpoint scan_search_list (lines : list string) (in_include_section : bool)
    (include_paths : list string) : list string :=
  match lines with
  | [] => include_paths
  | line :: rest =>
      if contains "#include <...>" line || contains "End of search list" line
      then scan_search_list rest true include_paths
      else if (in_include_section && startswith "/" (strip line))
              || startswith "C:" (strip line)
      then
        let path := strip line in
        if os_path_exists path
        then scan_search_list rest in_include_section (include_paths ++ [path])
        else scan_search_list rest in_include_section include_paths
      else scan_search_list rest in_include_section include_paths
  end.

(** [_find_standard_include_paths]: the bare [except] leaves the list
    empty when the compiler cannot be run. *)
Definition _find_standard_include_paths : list string :=
  match clang with
  | Ret stderr => scan_search_list (split_on LF stderr) false []
  | Raise _ => []
  end.

(** [get_compile_args]; [source_file] is an absolute path. *)
Definition get_compile_args (self : CMakeParser) (source_file : path) : list string :=
  let compile_args := ["-std=c++" +:+ cxx_standard (settings self)] in
  let compile_args :=
    compile_args ++ List.map (fun p => "-I" +:+ p) _find_standard_include_paths in
  let compile_args :=
    compile_args ++ List.map (fun d => "-I" +:+ d) (include_dirs (settings self)) in
  let compile_args := compile_args ++ ["-I" +:+ path_str (parent source_file)] in
  let compile_args := compile_args ++ ["-I" +:+ path_str (source_dir self)] in
  compile_args ++ List.map (fun d => "-D" +:+ d) (definitions (settings self)).



(** [parse_cmake_for_analysis] *)
Definition parse_cmake_for_analysis (fs : gset path) (read_text : path -> outcome string)
    (cmake_path0 source_file : path) : outcome (list string) :=
  match CMakeParser_init fs read_text cmake_path0 with
  | Ret parser => Ret (get_compile_args parser source_file)
  | Raise e => Raise e
  end.

End Host.

End CMakeArgs.

(** ** Parsed settings *)



(** The test of the loops of [_parse] for a line to pass over: empty
    once stripped, or a comment. *)
Definition passed_over (raw : string) : bool :=
  negb (nonempty (strip raw)) || startswith "#" (strip raw).

(** A line of the search list that is taken when it exists. *)
Definition search_list_entry (lines : list string) (p : string) : Prop :=
  exists line, line ∈ lines /\ p = strip line /\
    (startswith "/" p = true \/ startswith "C:" p = true).


(* ===================================================================== *)
(** * The list of files of the window *)
(* ===================================================================== *)

Module FileList.

(** [os.path.basename(p)] *)
Definition basename (p : string) : string := List.last (split_on "/" p) "".

(** The widgets these handlers touch: the entries of [files_listbox],
    the message boxes shown, and the lines of the log. *)
Record Window := mkWindow {
  files_listbox : list string;
  messages : list string;
  log_lines : list string
}.

Definition insert_end (file_path : string) (win : Window) : Window :=
  mkWindow (files_listbox win ++ [file_path]) (messages win) (log_lines win).

Definition messagebox (text : string) (win : Window) : Window :=
  mkWindow (files_listbox win) (messages win ++ [text]) (log_lines win).

Definition log (message : string) (win : Window) : Window :=
  mkWindow (files_listbox win) (messages win) (log_lines win ++ [message]).

Section Handlers.
(** [os.getcwd()], [self.repo_path] and [self.repo_path.exists()]. *)
Context (cwd repo_path : path) (repo_exists : bool).

(** [add_file]: [file_path] is what the dialog returned, empty when it
    was cancelled. *)
Definition add_file (file_path : string) (win : Window) : outcome unit * Window :=
  if negb repo_exists
  then (Ret tt, messagebox "Error: Please select a valid repository first" win)
  else if nonempty file_path then
    match relpath cwd file_path (path_str repo_path) with
    | None => (Raise (PyError "ValueError" "no path specified"), win)
    | Some rel_path =>
        if startswith ".." rel_path
        then (Ret tt, messagebox "Error: File must be within the repository" win)
        else (Ret tt, insert_end file_path win)
    end
  else (Ret tt, win).

(** The [for file_path in file_paths] loop of [add_files]. *)
Fixpoint add_files_loop (file_paths : list string) (added_count : nat) (win : Window)
    : outcome nat * Window :=
  match file_paths with
  | [] => (Ret added_count, win)
  | file_path :: rest =>
      match relpath cwd file_path (path_str repo_path) with
      | None => (Raise (PyError "ValueError" "no path specified"), win)
      | Some rel_path =>
          if startswith ".." rel_path
          then add_files_loop rest added_count
                 (messagebox ("Warning: File " +:+ basename file_path
                              +:+ " is outside repository, skipping") win)
          else if bool_decide (file_path ∈ files_listbox win)
          then add_files_loop rest added_count win
          else add_files_loop rest (S added_count) (insert_end file_path win)
      end
  end.

(** [add_files]: [file_paths] is what the dialog returned. *)
Definition add_files (file_paths : list string) (win : Window) : outcome unit * Window :=
  if negb repo_exists
  then (Ret tt, messagebox "Error: Please select a valid repository first" win)
  else
    match file_paths with
    | [] => (Ret tt, win)
    | _ =>
        match add_files_loop file_paths 0 win with
        | (Ret added_count, win') =>
            if (0 <? added_count)%nat
            then (Ret tt, log ("Added " +:+ pretty added_count +:+ " file(s)") win')
            else (Ret tt, win')
        | (Raise e, win') => (Raise e, win')
        end
    end.

End Handlers.

End FileList.

(** A file the window takes into its list: its path relative to the
    repository does not start with two dots. *)
Definition accepted (cwd repo_path : path) (file_path : string) : Prop :=
  exists rel_path, relpath cwd file_path (path_str repo_path) = Some rel_path /\
                   startswith ".." rel_path = false.

(** A component [pathlib] keeps: not empty, not a dot, without a slash. *)
Definition part_ok (c : string) : Prop :=
  is_dot_or_empty c = false /\ no_char "/" c = true.


(** The variable references [_resolve_path] replaces. *)
Definition cmake_variables : list string :=
  ["${CMAKE_SOURCE_DIR}"; "${CMAKE_CURRENT_SOURCE_DIR}"; "${CMAKE_CURRENT_LIST_DIR}"].

(** A component of a plain path: one [pathlib] keeps, without a dollar
    sign. *)
Definition plain (c : string) : Prop := part_ok c /\ no_char "$" c = true.

(** Two strings that differ at a position both have. *)
Fixpoint mismatch (p a : string) : bool :=
  match p, a with
  | String c p', String d a' => if Ascii.eqb c d then mismatch p' a' else true
  | _, _ => false
  end.

(* ===================================================================== *)
(** * The log of the window *)
(* ===================================================================== *)

(** The tag [log] gives a message: the level it is called with, or, at
    the default level [normal], the first family of key words the
    message contains, in any case. *)
Definition log_level (message level : string) : string :=
  if String.eqb level "normal" then
    let message_lower := lower message in
    if contains "error" message_lower || contains "failed" message_lower
       || contains "exception" message_lower
    then "error"
    else if contains "warning" message_lower || contains "warn" message_lower
    then "warning"
    else if contains "complete" message_lower || contains "success" message_lower
            || contains "[ok]" message_lower
    then "success"
    else if contains "debug" message_lower || contains "[debug]" message_lower
    then "debug"
    else if contains "info" message_lower || contains "[info]" message_lower
            || contains "starting" message_lower
    then "info"
    else level
  else level.

(* ===================================================================== *)
(** * Reasoning about computations *)
(* ===================================================================== *)

Lemma bind_eq {A B} (m : M A) (k : A -> M B) w :
  bind m k w =
  match m w with
  | (Ret a, w') => k a w'
  | (Raise e, w') => (Raise e, w')
  end.
Proof. reflexivity. Qed.

Lemma total_inv {A} (m : M A) w : total m -> exists a w', m w = (Ret a, w').
Proof.
  intros H. specialize (H w). destruct (m w) as [[a|e] w']; [eauto | discriminate].
Qed.

Lemma total_ret {A} (a : A) : total (ret a).
Proof. intros w. reflexivity. Qed.

Lemma total_bind {A B} (m : M A) (k : A -> M B) :
  total m -> (forall a, total (k a)) -> total (bind m k).
Proof.
  intros Hm Hk w. rewrite bind_eq.
  destruct (total_inv m w Hm) as (a & w' & ->). apply Hk.
Qed.

Lemma total_catch {A} (m : M A) (h : exn -> M A) :
  (forall e, total (h e)) -> total (catch m h).
Proof.
  intros Hh w. unfold catch. destruct (m w) as [[a|e] w']; [reflexivity | apply Hh].
Qed.

Lemma total_finally {A} (m : M A) (f : M unit) :
  total m -> total f -> total (finally m f).
Proof.
  intros Hm Hf w. unfold finally.
  destruct (total_inv m w Hm) as (a & w' & ->).
  destruct (total_inv f w' Hf) as (u & w'' & ->). reflexivity.
Qed.

Lemma total_notify cb msg : total (notify cb msg).
Proof. intros w. reflexivity. Qed.

Lemma total_print_stderr msg : total (print_stderr msg).
Proof. intros w. reflexivity. Qed.

Lemma total_traceback e : total (traceback_print_exc e).
Proof. intros w. reflexivity. Qed.

(** A reflexive and transitive relation is kept by the sequencing,
    handling and cleanup constructs when their parts keep it. *)
Section Frame.
Context (R : World -> World -> Prop) `{!Reflexive R} `{!Transitive R}.

Lemma preserves_ret {A} (a : A) : preserves R (ret a).
Proof. intros w. simpl. reflexivity. Qed.

Lemma preserves_raise {A} e : preserves R (@raise A e).
Proof. intros w. simpl. reflexivity. Qed.

Lemma preserves_bind {A B} (m : M A) (k : A -> M B) :
  preserves R m -> (forall a, preserves R (k a)) -> preserves R (bind m k).
Proof.
  intros Hm Hk w. rewrite bind_eq. specialize (Hm w).
  destruct (m w) as [[a|e] w']; simpl in *; [| assumption].
  etransitivity; [eassumption | apply Hk].
Qed.

Lemma preserves_catch {A} (m : M A) (h : exn -> M A) :
  preserves R m -> (forall e, preserves R (h e)) -> preserves R (catch m h).
Proof.
  intros Hm Hh w. unfold catch. specialize (Hm w).
  destruct (m w) as [[a|e] w']; simpl in *; [assumption |].
  etransitivity; [eassumption | apply Hh].
Qed.


Lemma preserves_if {A} (b : bool) (m1 m2 : M A) :
  preserves R m1 -> preserves R m2 -> preserves R (if b then m1 else m2).
Proof. destruct b; auto. Qed.

End Frame.

(* ===================================================================== *)
(** * A frame rule for one pipeline pass *)
(* ===================================================================== *)

(** Whatever relation on worlds is kept by the writes outside the
    repository, by stderr, by the read-only queries and by the progress
    messages of a pass, is kept by the whole pass. *)
Section PassFrame.
Context (E : Env) (R : World -> World -> Prop) `{!Reflexive R} `{!Transitive R}.
Context (R_fs : forall w ds fs, R w (set_fs ds fs w)).
Context (R_rng : forall w n, R w (set_rng n w)).
Context (R_stderr : forall w msg, R w (add_stderr msg w)).
Context (R_git : forall argv, read_only argv = true -> preserves R (subprocess_run E argv)).
Context (R_notify : forall cb msg, is_processing msg = false -> preserves R (notify cb msg)).

Lemma frame_print_stderr msg : preserves R (print_stderr msg).
Proof. intros w. apply R_stderr. Qed.

Lemma frame_traceback e : preserves R (traceback_print_exc e).
Proof. intros w. apply R_stderr. Qed.

Lemma frame_mkdtemp_from prefix fuel : preserves R (mkdtemp_from E prefix fuel).
Proof.
  induction fuel as [|fuel IH]; intros w; cbn [mkdtemp_from]; [reflexivity |].
  destruct (path_exists _ w).
  - etransitivity; [apply (R_rng w (S (w_rng w))) | apply IH].
  - destruct (io_fault E _ w); cbn [snd].
    + apply R_rng.
    + etransitivity; [apply (R_rng w (S (w_rng w))) | apply R_fs].
Qed.

Lemma frame_mkdir_parents d : preserves R (mkdir_parents E d).
Proof.
  intros w. unfold mkdir_parents.
  destruct (io_fault E _ w); [reflexivity |].
  destruct (existsb _ _); [reflexivity | apply R_fs].
Qed.

Lemma frame_write_text p text : preserves R (write_text E p text).
Proof.
  intros w. unfold write_text.
  destruct (io_fault E _ w); [reflexivity |].
  destruct (_ || _); [reflexivity |].
  destruct (_ || _); [apply R_fs | reflexivity].
Qed.

Lemma frame_rmtree d : preserves R (rmtree E d).
Proof.
  intros w. unfold rmtree. destruct (io_fault E _ w); [reflexivity | apply R_fs].
Qed.

Lemma frame_exists d : preserves R (os_path_exists d).
Proof. intros w. reflexivity. Qed.

Lemma frame_call_analysis f temp_files : preserves R (call_analysis f temp_files).
Proof. intros w. reflexivity. Qed.

Ltac frame_step :=
  first
    [ apply preserves_ret; apply _
    | apply preserves_raise; apply _
    | apply frame_print_stderr
    | apply frame_traceback
    | apply frame_exists
    | apply frame_call_analysis
    | apply frame_mkdir_parents
    | apply frame_write_text
    | apply frame_rmtree
    | apply R_notify; reflexivity
    | apply R_git; reflexivity
    | apply preserves_bind; try apply _
    | apply preserves_catch; try apply _
    | apply preserves_if
    | match goal with |- forall _, _ => intro end ].




Lemma frame_run_analysis commit_hash cb temp_files :
  preserves R (run_analysis E commit_hash cb temp_files).
Proof.
  unfold run_analysis. destruct (run_complete_dataflow_analysis E) as [f|];
    repeat frame_step.
Qed.


Lemma frame_cleanup temp_dir : preserves R (cleanup E temp_dir).
Proof. destruct temp_dir as [d|]; cbn [cleanup]; repeat frame_step. Qed.



End PassFrame.

(** The same for the loop over the revisions and for the whole run, when
    every progress message keeps the relation. *)
Section RunFrame.
Context (E : Env) (R : World -> World -> Prop) `{!Reflexive R} `{!Transitive R}.
Context (R_fs : forall w ds fs, R w (set_fs ds fs w)).
Context (R_rng : forall w n, R w (set_rng n w)).
Context (R_stderr : forall w msg, R w (add_stderr msg w)).
Context (R_git : forall argv, read_only argv = true -> preserves R (subprocess_run E argv)).
Context (R_notify : forall cb msg, preserves R (notify cb msg)).



End RunFrame.

(* ===================================================================== *)
(** * The repository is only read *)
(* ===================================================================== *)

#[local] Instance same_repo_refl : Reflexive same_repo.
Proof. intros w. reflexivity. Qed.

#[local] Instance same_repo_trans : Transitive same_repo.
Proof. intros a b c H1 H2. unfold same_repo in *. congruence. Qed.

#[local] Instance only_queries_refl : Reflexive only_queries.
Proof. intros w. exists []. split; [symmetry; apply app_nil_r | apply Forall_nil_2]. Qed.

#[local] Instance only_queries_trans : Transitive only_queries.
Proof.
  intros a b c (i1 & H1 & F1) (i2 & H2 & F2). exists (i1 ++ i2). split.
  - rewrite H2, H1. symmetry. apply app_assoc.
  - apply Forall_app. split; assumption.
Qed.






Section ReadOnly.
Context (E : Env) (Hgit : read_only_contract E).



End ReadOnly.


(** A command that is not a query does write: [git checkout] moves [HEAD]
    and rewrites the working tree. *)
Example checkout_writes :
  let r := (MiniGit.run ["git"; "checkout"; "a1a1a1a"] Sample.repo0).2 in
  HEAD r = "a1a1a1a" /\ worktree r = Sample.tree1 /\ r <> Sample.repo0.
Proof. vm_compute. repeat split. discriminate. Qed.

(** ** C1 *)



(** The command lines of the sample run. *)
Example sample_commands :
  w_cmds (analyze_all_commits Sample.env Sample.analyzer Sample.targets false
            Sample.world0).2 =
  [ ["git"; "log"; "--oneline"; "--all"];
    ["git"; "show"; "c3c3c3c:a.py"]; ["git"; "show"; "c3c3c3c:b.py"];
    ["git"; "show"; "b2b2b2b:a.py"]; ["git"; "show"; "b2b2b2b:b.py"];
    ["git"; "show"; "a1a1a1a:a.py"]; ["git"; "show"; "a1a1a1a:b.py"] ].
Proof. vm_compute. reflexivity. Qed.

(* ===================================================================== *)
(** * One pass never raises *)
(* ===================================================================== *)

Section PassTotal.
Context (E : Env).

Lemma total_on_error commit_hash e : total (on_error commit_hash e).
Proof. intros w. reflexivity. Qed.

Lemma total_cleanup temp_dir : total (cleanup E temp_dir).
Proof.
  destruct temp_dir as [d|]; cbn [cleanup]; [| apply total_ret].
  apply total_bind; [intros w; reflexivity |].
  intros [|]; [| apply total_ret].
  apply total_catch. intros e. apply total_print_stderr.
Qed.

Lemma total_analyze_commit_safely self commit_hash target_files cb :
  total (analyze_commit_safely E self commit_hash target_files cb).
Proof.
  unfold analyze_commit_safely. apply total_bind; [apply total_notify |].
  intros _ w. destruct (mkdtemp E _ w) as [[d|e] w1].
  - apply total_finally; [| apply total_cleanup].
    apply total_catch. intros e. apply total_on_error.
  - apply total_finally; [apply total_on_error | apply total_cleanup].
Qed.



End PassTotal.

(* ===================================================================== *)
(** * The sandbox directory *)
(* ===================================================================== *)

Lemma path_exists_set_rng d n w : path_exists d (set_rng n w) = path_exists d w.
Proof. reflexivity. Qed.

(** What a successful [mkdtemp] did: the directory is new, lies directly
    under the temporary directory, and is the only change to the file
    system. *)
Lemma mkdtemp_from_fresh (E : Env) prefix fuel w d w1 :
  mkdtemp_from E prefix fuel w = (Ret d, w1) ->
  path_exists d w = false /\ path_exists d w1 = true /\
  w_dirs w1 = {[d]} ∪ w_dirs w /\ w_files w1 = w_files w /\
  exists n, d = tempdir E ++ [prefix +:+ tmp_names E n].
Proof.
  revert w. induction fuel as [|fuel IH]; intros w; cbn [mkdtemp_from]; [discriminate |].
  destruct (path_exists _ w) eqn:Hex.
  - intros H. apply IH in H. rewrite path_exists_set_rng in H. exact H.
  - destruct (io_fault E _ w); [discriminate |].
    intros Heq. injection Heq as Hd Hw. subst d w1.
    repeat split; try assumption; try reflexivity.
    + unfold path_exists. cbn. apply orb_true_iff. left.
      apply bool_decide_eq_true, elem_of_union. left. apply elem_of_singleton. reflexivity.
    + eauto.
Qed.

Lemma rmtree_removes (d : path) (w : World) :
  path_exists d
    (set_fs (filter (fun p => ¬ under d p) (w_dirs w))
            (filter (fun kv => ¬ under d kv.1) (w_files w)) w) = false.
Proof.
  unfold path_exists. cbn. apply orb_false_iff. split; apply bool_decide_eq_false.
  - rewrite elem_of_filter. intros [Hn _]. apply Hn. unfold under. reflexivity.
  - intros [x Hx]. apply map_lookup_filter_Some in Hx as [_ Hn].
    apply Hn. unfold under. reflexivity.
Qed.

(** The [finally] block: it returns, and then either nothing is left at
    the directory, or the removal failed and the failure is a line on
    stderr. *)
Lemma cleanup_spec (E : Env) (d : path) (w : World) :
  exists w', cleanup E (Some d) w = (Ret tt, w') /\
    (path_exists d w' = false \/
     exists e, io_fault E (OpRmtree d) w = Some e /\
               w' = add_stderr (cleanup_warning d e) w).
Proof.
  cbn [cleanup]. rewrite bind_eq. unfold os_path_exists.
  destruct (path_exists d w) eqn:Hex.
  - unfold catch, rmtree. destruct (io_fault E (OpRmtree d) w) as [e|] eqn:Hf.
    + eexists. split; [reflexivity |]. right. exists e. split; reflexivity.
    + eexists. split; [reflexivity |]. left. apply rmtree_removes.
  - exists w. split; [reflexivity |]. left. assumption.
Qed.

(** ** C2 *)

(** C2.  In the pass of a revision, once [mkdtemp] has created the sandbox
    directory (it did not exist before and exists after), the pass returns
    to its caller without raising, whatever the later steps did, and when
    it returns either nothing exists at the directory any more, or removing
    it failed and that failure is only a warning line on stderr. *)
Theorem C2_sandbox_removed (E : Env) (self : SafeGitHistoryAnalyzer)
    (commit_hash : string) (target_files : list string) (progress_callback : bool)
    (w w1 : World) (temp_dir : path) :
  mkdtemp E ("git_analysis_" +:+ short commit_hash +:+ "_")
    (notify progress_callback ("Analyzing commit " +:+ short commit_hash +:+ "...") w).2
  = (Ret temp_dir, w1) ->
  path_exists temp_dir w = false /\ path_exists temp_dir w1 = true /\
  exists result w',
    analyze_commit_safely E self commit_hash target_files progress_callback w
    = (Ret result, w') /\
    (path_exists temp_dir w' = false \/
     exists e w2, io_fault E (OpRmtree temp_dir) w2 = Some e /\
                  w' = add_stderr (cleanup_warning temp_dir e) w2).
Proof.
  intros Hmk. pose proof Hmk as Hfresh. apply mkdtemp_from_fresh in Hfresh.
  destruct Hfresh as (Hnew & Hthere & _).
  split; [| split; [exact Hthere |]].
  { unfold notify in Hnew. destruct progress_callback; exact Hnew. }
  unfold analyze_commit_safely. rewrite bind_eq.
  unfold notify at 1. cbn [snd] in Hmk. unfold notify in Hmk. cbn [snd] in Hmk.
  rewrite Hmk. unfold finally.
  destruct (total_inv (catch (try_body E self commit_hash target_files progress_callback temp_dir)
                         (on_error commit_hash)) w1) as (v & w2 & Hbody).
  { apply total_catch. intros e. apply total_on_error. }
  rewrite Hbody.
  destruct (cleanup_spec E temp_dir w2) as (w' & Hc & Hpost). rewrite Hc.
  exists v, w'. split; [reflexivity |].
  destruct Hpost as [Hgone | (e & Hf & ->)]; [left; exact Hgone | right; eauto].
Qed.

Lemma C2_sandbox_removed_witness :
  path_exists ["tmp"; "git_analysis_b2b2b2b_0"] Sample.world0 = false /\
  exists result w',
    analyze_commit_safely Sample.env Sample.analyzer "b2b2b2b" Sample.targets true
      Sample.world0 = (Ret result, w') /\
    (path_exists ["tmp"; "git_analysis_b2b2b2b_0"] w' = false \/
     exists e w2, io_fault Sample.env (OpRmtree ["tmp"; "git_analysis_b2b2b2b_0"]) w2 = Some e /\
                  w' = add_stderr (cleanup_warning ["tmp"; "git_analysis_b2b2b2b_0"] e) w2).
Proof.
  edestruct (C2_sandbox_removed Sample.env Sample.analyzer "b2b2b2b" Sample.targets true
               Sample.world0) as (Hnew & _ & Hrun).
  - vm_compute. reflexivity.
  - split; [exact Hnew | exact Hrun].
Defined.

(** Where removal fails the directory stays and the pass still returns. *)
Example cleanup_failure_is_a_warning :
  let '(o, w') := analyze_commit_safely Sample.env_no_rm Sample.analyzer "b2b2b2b"
                    Sample.targets false Sample.world0 in
  returned o = true /\
  path_exists ["tmp"; "git_analysis_b2b2b2b_0"] w' = true /\
  w_stderr w' =
    ["Warning: Could not clean up temp directory /tmp/git_analysis_b2b2b2b_0: [Errno 13] Permission denied"].
Proof. vm_compute. repeat split. Qed.

(* ===================================================================== *)
(** * What a computation returns *)
(* ===================================================================== *)

Lemma returns_ret {A} (P : A -> Prop) a : P a -> returns P (ret a).
Proof. intros HP w a' w' [= <- _]. exact HP. Qed.

Lemma returns_raise {A} (P : A -> Prop) e : returns P (raise e).
Proof. intros w a w' H. discriminate H. Qed.

Lemma returns_bind {A B} (P : B -> Prop) (m : M A) (k : A -> M B) :
  (forall a, returns P (k a)) -> returns P (bind m k).
Proof.
  intros Hk w b w'. rewrite bind_eq.
  destruct (m w) as [[a|e] w1]; [apply Hk | discriminate].
Qed.

Lemma returns_bind_with {A B} (Q : A -> Prop) (P : B -> Prop) (m : M A) (k : A -> M B) :
  returns Q m -> (forall a, Q a -> returns P (k a)) -> returns P (bind m k).
Proof.
  intros Hm Hk w b w'. rewrite bind_eq.
  destruct (m w) as [[a|e] w1] eqn:Hmw; [| discriminate].
  apply Hk. eapply Hm. eassumption.
Qed.

Lemma returns_catch {A} (P : A -> Prop) (m : M A) (h : exn -> M A) :
  returns P m -> (forall e, returns P (h e)) -> returns P (catch m h).
Proof.
  intros Hm Hh w a w'. unfold catch.
  destruct (m w) as [[a1|e] w1] eqn:Hmw; [| apply Hh].
  intros [= <- <-]. eapply Hm. eassumption.
Qed.

Lemma returns_finally {A} (P : A -> Prop) (m : M A) (f : M unit) :
  returns P m -> returns P (finally m f).
Proof.
  intros Hm w a w'. unfold finally.
  destruct (m w) as [o w1] eqn:Hmw. destruct (f w1) as [[u|e] w2]; [| discriminate].
  intros [= -> <-]. eapply Hm. eassumption.
Qed.

(* ===================================================================== *)
(** * The shape of a returned result *)
(* ===================================================================== *)


Section PassResult.
Context (E : Env).

Lemma returns_call_analysis f temp_files :
  returns (fun v => exists files, f temp_files files = Ret v) (call_analysis f temp_files).
Proof. intros w v w'. unfold call_analysis. intros [= Hf _]. eauto. Qed.

Lemma returns_run_analysis commit_hash cb temp_files :
  returns (pass_result E) (run_analysis E commit_hash cb temp_files).
Proof.
  unfold run_analysis. destruct (run_complete_dataflow_analysis E) as [f|] eqn:Hcap.
  - apply returns_catch.
    + eapply returns_bind_with; [apply returns_call_analysis |].
      intros result [files Hf].
      destruct (truthy result && isinstance_dict result) eqn:Hok.
      * apply returns_ret. apply andb_true_iff in Hok as [_ Hd].
        destruct result as [| | | | |d0]; try discriminate.
        right. exists f, temp_files, files, d0. repeat split; [rewrite Hcap | ..]; done.
      * apply returns_bind. intros _. apply returns_ret. left. reflexivity.
    + intros e. do 3 (apply returns_bind; intros _). apply returns_ret. left. reflexivity.
  - apply returns_bind. intros _. apply returns_ret. left. reflexivity.
Qed.

Lemma returns_on_error commit_hash e : returns (pass_result E) (on_error commit_hash e).
Proof. do 2 (apply returns_bind; intros _). apply returns_ret. left. reflexivity. Qed.

Lemma returns_analyze_commit_safely self commit_hash target_files cb :
  returns (pass_result E) (analyze_commit_safely E self commit_hash target_files cb).
Proof.
  unfold analyze_commit_safely. apply returns_bind. intros _ w v w'.
  destruct (mkdtemp E _ w) as [[d|e] w1].
  - apply returns_finally, returns_catch; [| apply returns_on_error].
    apply returns_bind. intros [|t ts]; [| apply returns_run_analysis].
    apply returns_bind. intros _. apply returns_ret. left. reflexivity.
  - apply returns_finally, returns_on_error.
Qed.

End PassResult.

(** ** C10 *)


(** The sample analyzer leaves [metadata] out; the pass puts it in. *)
Example metadata_inserted :
  match (analyze_commit_safely Sample.env Sample.analyzer "a1a1a1a" Sample.targets false
           Sample.world0).1 with
  | Ret v => get v "metadata" = PyDict ∅ /\ truthy (get v "variables") = true
  | Raise _ => False
  end.
Proof. vm_compute. split; reflexivity. Qed.

(* ===================================================================== *)
(** * The result map *)
(* ===================================================================== *)

Lemma truthy_or a b : truthy (or_ a b) = truthy a || truthy b.
Proof. unfold or_. destruct (truthy a) eqn:Ha; [exact Ha | reflexivity]. Qed.


Lemma store_result_eq (cb : bool) (commit_hash : string) (result : pyval)
    (results : gmap string pyval) (w : World) :
  store_result cb commit_hash result results w =
  if meaningful result then (Ret (<[commit_hash := result]> results), w)
  else (Ret results,
        if cb && is_not_None result && isinstance_dict result
        then add_progress (no_data_note commit_hash) w else w).
Proof.
  unfold store_result, meaningful. rewrite truthy_or.
  destruct (is_not_None result && isinstance_dict result) eqn:Hd.
  - cbn [andb]. destruct (truthy _ || truthy _); [reflexivity |].
    rewrite <- andb_assoc, Hd, andb_true_r. reflexivity.
  - cbn [andb]. rewrite <- andb_assoc, Hd, andb_false_r. reflexivity.
Qed.

Section Stored.
Context (E : Env).




End Stored.

(** ** C5 *)


(** Three revisions: the first introduces [a.py], the second adds [b.py],
    the third deletes [a.py].  Every revision is stored; the deleted file
    contributes nothing to the third. *)
Example three_revisions :
  let count v := match get v "variables" with PyDict d => size d | _ => 0 end in
  match (analyze_all_commits Sample.env Sample.analyzer Sample.targets false
           Sample.world0).1 with
  | Ret final =>
      (count <$> final) =
        ({[ "a1a1a1a" := 1; "b2b2b2b" := 2; "c3c3c3c" := 1 ]} : gmap string nat) /\
      (get (get (default PyNone (final !! "c3c3c3c")) "variables")
           "/tmp/git_analysis_c3c3c3c_0/b.py") = PyStr "y = x"
  | Raise _ => False
  end.
Proof. vm_compute. split; reflexivity. Qed.

(** A present result with both mappings empty is not stored. *)
Example empty_result_not_stored :
  store_result true "b2b2b2b"
    (PyDict {[ "variables" := PyDict ∅; "metadata" := PyDict ∅ ]}) ∅ Sample.world0
  = (Ret ∅, add_progress "Commit b2b2b2b has no dataflow data" Sample.world0).
Proof. rewrite store_result_eq. vm_compute. reflexivity. Qed.

(* ===================================================================== *)
(** * Fetching a file at a revision *)
(* ===================================================================== *)

Lemma get_file_content_at_commit_eq (E : Env) (self : SafeGitHistoryAnalyzer)
    (commit_hash file_path : string) (w : World) :
  get_file_content_at_commit E self commit_hash file_path w =
  match git E (show_argv commit_hash file_path) (w_repo w) with
  | (Ret stdout, r) =>
      (Ret (Some stdout), set_repo r (add_cmd (show_argv commit_hash file_path) w))
  | (Raise (CalledProcessError _ _), r) =>
      (Ret None, set_repo r (add_cmd (show_argv commit_hash file_path) w))
  | (Raise (PyError cls msg), r) =>
      (Raise (PyError cls msg), set_repo r (add_cmd (show_argv commit_hash file_path) w))
  end.
Proof.
  unfold get_file_content_at_commit, catch, bind, subprocess_run, show_argv.
  destruct (git E _ (w_repo w)) as [[stdout|[rc cmd|cls msg]] r]; reflexivity.
Qed.

(** ** C4 *)

(** C4, as the code has it.  [get_file_content_at_commit] returns the
    standard output when [git show rev:path] succeeds and [None] whenever
    it exits with a non-zero status, for a path missing at the revision,
    a path outside the repository and a revision that is not found alike;
    only an exception of another class, raised by running the command,
    reaches the caller. *)
Theorem C4_fetch_outcomes (E : Env) (self : SafeGitHistoryAnalyzer)
    (commit_hash file_path : string) (w : World) :
  get_file_content_at_commit E self commit_hash file_path w =
  match git E (show_argv commit_hash file_path) (w_repo w) with
  | (Ret stdout, r) =>
      (Ret (Some stdout), set_repo r (add_cmd (show_argv commit_hash file_path) w))
  | (Raise (CalledProcessError _ _), r) =>
      (Ret None, set_repo r (add_cmd (show_argv commit_hash file_path) w))
  | (Raise (PyError cls msg), r) =>
      (Raise (PyError cls msg), set_repo r (add_cmd (show_argv commit_hash file_path) w))
  end.
Proof.
  unfold get_file_content_at_commit, catch, bind, subprocess_run, show_argv.
  destruct (git E _ (w_repo w)) as [[stdout|[rc cmd|cls msg]] r]; reflexivity.
Qed.

(** A revision that is not found is answered like a missing path: [None],
    not a failure of its own. *)
Lemma C4_unknown_revision_is_absent :
  MiniGit.find_commit "deadbee" Sample.repo0 = None /\
  (get_file_content_at_commit Sample.env Sample.analyzer "deadbee" "a.py" Sample.world0).1
    = Ret None /\
  (get_file_content_at_commit Sample.env Sample.analyzer "c3c3c3c" "a.py" Sample.world0).1
    = Ret None /\
  (get_file_content_at_commit Sample.env Sample.analyzer "a1a1a1a" "a.py" Sample.world0).1
    = Ret (Some "x = 1").
Proof. vm_compute. repeat split. Qed.

(* ===================================================================== *)
(** * Enumeration *)
(* ===================================================================== *)

(** ** C6 *)

(** C6, as the code has it.  On a path without [.git] the constructor
    raises [ValueError] and there is no analyzer to run.  When
    [git log --oneline --all] exits with a non-zero status the run does not
    raise: it prints the error on stderr and returns the empty map, with no
    pass entered (nothing created, fetched or reported as progress); an
    exception of another class raised by running the command reaches the
    caller. *)
Theorem C6_enumeration_failure (E : Env) (repo : path) (self : SafeGitHistoryAnalyzer)
    (target_files : list string) (progress_callback : bool) (w : World) :
  SafeGitHistoryAnalyzer_init repo w =
    (if git_dir (w_repo w) then (Ret (mkAnalyzer repo ∅), w)
     else (Raise (PyError "ValueError" ("Not a git repository: " +:+ path_str repo)), w)) /\
  match git E log_argv (w_repo w) with
  | (Raise (CalledProcessError rc cmd), r) =>
      analyze_all_commits E self target_files progress_callback w =
      (Ret ∅, add_stderr ("Error getting commit list: " +:+ exn_str (CalledProcessError rc cmd))
                (set_repo r (add_cmd log_argv w)))
  | (Raise (PyError cls msg), r) =>
      analyze_all_commits E self target_files progress_callback w =
      (Raise (PyError cls msg), set_repo r (add_cmd log_argv w))
  | (Ret _, _) => True
  end.
Proof.
  split; [reflexivity |].
  unfold analyze_all_commits, subprocess_run, log_argv.
  destruct (git E _ (w_repo w)) as [[stdout|[rc cmd|cls msg]] r]; [exact I | |]; reflexivity.
Qed.

(** A failed enumeration is a normal return of the empty map, as a
    traversal that found nothing worth storing also is. *)
Lemma C6_enumeration_failure_returns_empty :
  (git Sample.env log_argv EmptyRepo.repo).1 = Raise (CalledProcessError 128 log_argv) /\
  analyze_all_commits Sample.env Sample.analyzer Sample.targets true EmptyRepo.world =
    (Ret ∅,
     add_stderr
       "Error getting commit list: Command '['git', 'log', '--oneline', '--all']' returned non-zero exit status 128."
       (add_cmd log_argv EmptyRepo.world)).
Proof. vm_compute. split; reflexivity. Qed.

(* ===================================================================== *)
(** * Progress of a traversal *)
(* ===================================================================== *)

Lemma progress_ext_refl w : progress_ext [] w w.
Proof. exists []. split; [symmetry; apply app_nil_r | reflexivity]. Qed.

Lemma progress_ext_trans a b w1 w2 w3 :
  progress_ext a w1 w2 -> progress_ext b w2 w3 -> progress_ext (a ++ b) w1 w3.
Proof.
  intros (e1 & H1 & F1) (e2 & H2 & F2). exists (e1 ++ e2). split.
  - rewrite H2, H1. symmetry. apply app_assoc.
  - rewrite List.filter_app, F1, F2. reflexivity.
Qed.


#[local] Instance quiet_refl : Reflexive quiet.
Proof. intros w. apply progress_ext_refl. Qed.

#[local] Instance quiet_trans : Transitive quiet.
Proof. intros a b c H1 H2. apply (progress_ext_trans [] [] a b c H1 H2). Qed.





Section Traversal.
Context (E : Env).



End Traversal.

(* ===================================================================== *)
(** * Failures stay inside their pass *)
(* ===================================================================== *)

Lemma split_nil_lstrip (s : string) : split s = [] -> lstrip s = "".
Proof.
  induction s as [|c s IH]; [reflexivity |]. cbn [split lstrip].
  destruct (isspace c); [exact IH |].
  destruct s as [|c' s']; [discriminate |].
  destruct (isspace c'); [discriminate |]. destruct (split _); discriminate.
Qed.

Lemma nonempty_strip_split (line : string) :
  nonempty (strip line) = true -> split line <> [].
Proof.
  intros Hne Hnil. unfold strip in Hne. rewrite (split_nil_lstrip line Hnil) in Hne.
  discriminate Hne.
Qed.

(** The list comprehension never indexes an empty list. *)
Lemma commits_of_lines_total (commit_lines : list string) :
  exists commits, commits_of_lines commit_lines = Ret commits.
Proof.
  induction commit_lines as [|line rest [commits IH]]; [exists []; reflexivity |].
  cbn [commits_of_lines]. destruct (nonempty (strip line)) eqn:Hne.
  - destruct (split line) as [|first ws] eqn:Hsp.
    + exfalso. exact (nonempty_strip_split line Hne Hsp).
    + rewrite IH. eexists. reflexivity.
  - exists commits. exact IH.
Qed.

Section Isolation.
Context (E : Env).

Lemma cleanup_log temp_dir w :
  exists w', cleanup E temp_dir w = (Ret tt, w') /\
    w_progress w' = w_progress w /\
    exists tail, w_stderr w' = w_stderr w ++ tail.
Proof.
  destruct temp_dir as [d|]; cbn [cleanup].
  - rewrite bind_eq. unfold os_path_exists. destruct (path_exists d w).
    + unfold catch, rmtree. destruct (io_fault E (OpRmtree d) w) as [e|].
      * eexists. split; [reflexivity |]. split; [reflexivity |].
        eexists. reflexivity.
      * eexists. split; [reflexivity |]. split; [reflexivity |].
        exists []. symmetry. apply app_nil_r.
    + exists w. split; [reflexivity |]. split; [reflexivity |].
      exists []. symmetry. apply app_nil_r.
  - exists w. split; [reflexivity |]. split; [reflexivity |].
    exists []. symmetry. apply app_nil_r.
Qed.

Lemma on_error_eq commit_hash e w :
  on_error commit_hash e w =
  (Ret PyNone, add_stderr (traceback_line e) (add_stderr (error_line commit_hash e) w)).
Proof. reflexivity. Qed.



End Isolation.

(** ** C3 *)




(* ===================================================================== *)
(** * Materialization *)
(* ===================================================================== *)

Lemma mkdir_parents_ret (E : Env) d w u w' :
  mkdir_parents E d w = (Ret u, w') -> w_files w' = w_files w /\ w_repo w' = w_repo w.
Proof.
  unfold mkdir_parents. destruct (io_fault E _ w); [discriminate |].
  destruct (existsb _ _); [discriminate |]. intros [= _ <-]. split; reflexivity.
Qed.

Lemma write_text_ret (E : Env) p text w u w' :
  write_text E p text w = (Ret u, w') ->
  w_files w' = <[p := text]> (w_files w) /\ w_repo w' = w_repo w.
Proof.
  unfold write_text. destruct (io_fault E _ w); [discriminate |].
  destruct (_ || _); [discriminate |]. destruct (_ || _); [| discriminate].
  intros [= _ <-]. split; reflexivity.
Qed.

Lemma omap_cons_eq {A B} (f : A -> option B) (x : A) (l : list A) :
  omap f (x :: l) = match f x with Some y => y :: omap f l | None => omap f l end.
Proof. reflexivity. Qed.

(** When the loop over the target files completes, the list it built holds
    the paths of the selected files, in order, each under the sandbox
    directory at its path relative to the repository, and each is a file
    in the sandbox. *)
Lemma materialize_selects (E : Env) (Hgit : read_only_contract E)
    (self : SafeGitHistoryAnalyzer) (temp_dir : path) (commit_hash : string)
    (target_files temp_files0 temp_files : list string) (w w' : World) :
  materialize E self temp_dir commit_hash target_files temp_files0 w = (Ret temp_files, w') ->
  let written := omap (selected E self temp_dir commit_hash (w_repo w)) target_files in
  temp_files = temp_files0 ++ List.map path_str written /\
  w_repo w' = w_repo w /\
  (forall p, is_Some (w_files w !! p) \/ p ∈ written -> is_Some (w_files w' !! p)).
Proof.
  cbn zeta. revert temp_files0 w.
  induction target_files as [|f rest IH]; intros temp_files0 w; cbn [materialize].
  { intros [= <- <-]. cbn. rewrite app_nil_r. repeat split.
    intros p [Hp | Hp]; [exact Hp | inversion Hp]. }
  rewrite omap_cons_eq. unfold selected at 1 4.
  destruct (relpath _ _ _) as [rel|]; [| discriminate].
  destruct (startswith ".." rel).
  { intros Hrun. apply IH in Hrun. exact Hrun. }
  rewrite bind_eq, get_file_content_at_commit_eq.
  pose proof (Hgit (show_argv commit_hash rel) (w_repo w) eq_refl) as Hsame.
  destruct (git E (show_argv commit_hash rel) (w_repo w)) as [[text|[rc cmd|cls msg]] r];
    cbn [fst snd] in *; subst r.
  - rewrite !bind_eq.
    destruct (mkdir_parents E _ _) as [[u|e] w2] eqn:Hmk; [| discriminate].
    apply mkdir_parents_ret in Hmk as [Hf2 Hr2]. rewrite bind_eq.
    destruct (write_text E _ _ w2) as [[u'|e] w3] eqn:Hwr; [| discriminate].
    apply write_text_ret in Hwr as [Hf3 Hr3].
    intros Hrun. apply IH in Hrun.
    assert (Hrepo : w_repo w3 = w_repo w) by (rewrite Hr3, Hr2; reflexivity).
    rewrite Hrepo in Hrun. destruct Hrun as (Htf & Hr & Hfiles).
    split; [| split].
    + rewrite Htf, <- app_assoc. reflexivity.
    + rewrite Hr. reflexivity.
    + intros p Hp. apply Hfiles. rewrite Hf3, Hf2. cbn [w_files set_repo add_cmd].
      destruct (decide (p = joinpath temp_dir rel)) as [->|Hne].
      * left. rewrite lookup_insert_eq. eauto.
      * rewrite lookup_insert_ne by congruence.
        destruct Hp as [Hp | Hp]; [left; exact Hp |].
        apply elem_of_cons in Hp as [Hp | Hp]; [congruence | right; exact Hp].
  - intros Hrun. apply IH in Hrun. exact Hrun.
  - discriminate.
Qed.

(* --------------------------------------------------------------------- *)
(** ** Where a target file lands *)

Lemma split_on_no_char sep s : no_char sep s = true -> split_on sep s = [s].
Proof.
  induction s as [|a s IH]; [reflexivity |]. cbn [no_char split_on].
  intros H. apply andb_true_iff in H as [Ha Hs]. apply negb_true_iff in Ha.
  rewrite Ha, (IH Hs). reflexivity.
Qed.

Lemma append_cons (c : ascii) (a b : string) : String c a +:+ b = String c (a +:+ b).
Proof. reflexivity. Qed.

Lemma append_nil (b : string) : "" +:+ b = b.
Proof. reflexivity. Qed.

Lemma split_on_app_sep sep a b :
  no_char sep a = true -> split_on sep (a +:+ String sep b) = a :: split_on sep b.
Proof.
  induction a as [|c a IH]; cbn [no_char].
  - intros _. rewrite append_nil. cbn [split_on]. rewrite Ascii.eqb_refl. reflexivity.
  - intros H. apply andb_true_iff in H as [Hc Ha]. apply negb_true_iff in Hc.
    rewrite append_cons. cbn [split_on]. rewrite Hc, (IH Ha). reflexivity.
Qed.

Lemma split_on_pieces sep s : Forall (fun c => no_char sep c = true) (split_on sep s).
Proof.
  induction s as [|a s IH]; cbn [split_on].
  - apply Forall_cons. split; [reflexivity | apply Forall_nil_2].
  - destruct (Ascii.eqb a sep) eqn:Ha.
    + apply Forall_cons. split; [reflexivity | exact IH].
    + destruct (split_on sep s) as [|w ws].
      * apply Forall_cons. split; [cbn; rewrite Ha; reflexivity | apply Forall_nil_2].
      * apply Forall_cons in IH as [Hw Hws]. apply Forall_cons. split; [| exact Hws].
        cbn. rewrite Ha, Hw. reflexivity.
Qed.

Lemma split_on_join (l : list string) :
  Forall (fun c => no_char "/" c = true) l -> l <> [] ->
  split_on "/" (join "/" l) = l.
Proof.
  induction l as [|x l IH]; [congruence |]. intros Hall _.
  apply Forall_cons in Hall as [Hx Hl]. destruct l as [|y l].
  - cbn [join]. apply split_on_no_char, Hx.
  - change (join "/" (x :: y :: l)) with (x +:+ "/" +:+ join "/" (y :: l)).
    change ("/" +:+ join "/" (y :: l)) with (String "/" (join "/" (y :: l))).
    rewrite split_on_app_sep by exact Hx. rewrite IH by (assumption || congruence).
    reflexivity.
Qed.

Lemma filter_clean (l : list string) :
  Forall clean l -> List.filter (fun c => negb (is_dot_or_empty c)) l = l.
Proof.
  induction 1 as [|c l (Hc & _ & _) _ IH]; [reflexivity |].
  cbn. rewrite Hc, IH. reflexivity.
Qed.

Lemma clean_no_slash (l : list string) :
  Forall clean l -> Forall (fun c => no_char "/" c = true) l.
Proof.
  intros Hl. eapply Forall_impl; [exact Hl |]. intros c (_ & _ & H). exact H.
Qed.

Lemma parse_parts_join (l : list string) : Forall clean l -> parse_parts (join "/" l) = l.
Proof.
  intros Hl. unfold parse_parts. destruct l as [|x l]; [reflexivity |].
  rewrite split_on_join by (apply clean_no_slash, Hl || congruence).
  apply filter_clean, Hl.
Qed.

Lemma isabs_join (l : list string) : Forall clean l -> isabs (join "/" l) = false.
Proof.
  intros Hl. destruct l as [|x l]; [reflexivity |].
  apply Forall_cons in Hl as [(Hx & _ & Hs) _].
  destruct x as [|a x]; [discriminate Hx |].
  cbn in Hs. apply andb_true_iff in Hs as [Ha _]. apply negb_true_iff in Ha.
  unfold isabs. destruct l as [|y l]; cbn [join].
  - cbn [startswith]. rewrite Ascii.eqb_sym, Ha. reflexivity.
  - rewrite append_cons. cbn [startswith]. rewrite Ascii.eqb_sym, Ha. reflexivity.
Qed.

(** [Path(temp_dir) / rel] keeps the components of a clean [rel]. *)
Lemma joinpath_join (d : path) (l : list string) :
  Forall clean l -> joinpath d (join "/" l) = d ++ l.
Proof.
  intros Hl. unfold joinpath. rewrite isabs_join, parse_parts_join by exact Hl. reflexivity.
Qed.

Lemma startswith_dotdot_join (c : string) (l : list string) :
  startswith ".." (join "/" (c :: l)) = startswith ".." c.
Proof.
  destruct l as [|y l]; [reflexivity |].
  change (join "/" (c :: y :: l)) with (c +:+ "/" +:+ join "/" (y :: l)).
  destruct c as [|a [|b c]]; rewrite ?append_cons, ?append_nil; cbn.
  - reflexivity.
  - destruct (Ascii.eqb "." a); reflexivity.
  - reflexivity.
Qed.

Lemma normpath_abs_clean (comps acc : list string) :
  Forall (fun c => no_char "/" c = true) comps -> Forall clean acc ->
  Forall clean (normpath_abs comps acc).
Proof.
  revert acc. induction comps as [|c cs IH]; intros acc Hc Hacc; cbn [normpath_abs].
  - apply Forall_rev, Hacc.
  - apply Forall_cons in Hc as [Hc Hcs].
    destruct (is_dot_or_empty c) eqn:Hd; [apply IH; assumption |].
    destruct (String.eqb c "..") eqn:Hdd.
    + apply IH; [exact Hcs |]. destruct acc; [exact Hacc |].
      apply Forall_cons in Hacc as [_ H]. exact H.
    + apply IH; [exact Hcs |]. apply Forall_cons. split; [| exact Hacc].
      repeat split; assumption.
Qed.

(** The components of an absolute path are normalized. *)
Lemma abspath_clean (cwd : path) (s : string) :
  Forall (fun c => no_char "/" c = true) cwd -> Forall clean (abspath cwd s).
Proof.
  intros Hcwd. unfold abspath. destruct (isabs s).
  - apply normpath_abs_clean; [apply split_on_pieces | apply Forall_nil_2].
  - apply normpath_abs_clean; [| apply Forall_nil_2].
    apply Forall_app. split; [exact Hcwd | apply split_on_pieces].
Qed.

Lemma normpath_abs_id (l acc : list string) :
  Forall clean l -> normpath_abs l acc = List.rev acc ++ l.
Proof.
  revert acc. induction l as [|c l IH]; intros acc Hl; cbn [normpath_abs].
  - symmetry. apply app_nil_r.
  - apply Forall_cons in Hl as [(Hd & Hdd & _) Hl]. rewrite Hd, Hdd, IH by exact Hl.
    cbn [List.rev]. rewrite <- app_assoc. reflexivity.
Qed.

(** [abspath] leaves the resolved repository path as it is. *)
Lemma abspath_path_str (cwd repo : path) :
  Forall clean repo -> abspath cwd (path_str repo) = repo.
Proof.
  intros Hrepo. unfold abspath, path_str.
  change (isabs ("/" +:+ join "/" repo)) with true. cbn match.
  change ("/" +:+ join "/" repo) with (String "/" (join "/" repo)).
  cbn [split_on]. rewrite Ascii.eqb_refl. cbn [normpath_abs is_dot_or_empty].
  change (String.eqb "" "" || String.eqb "" ".") with true. cbn match.
  destruct repo as [|x repo]; [reflexivity |].
  rewrite split_on_join by (apply clean_no_slash, Hrepo || congruence).
  apply (normpath_abs_id (x :: repo) []), Hrepo.
Qed.

Lemma commonprefix_len_app (a b : list string) : commonprefix_len a (a ++ b) = length a.
Proof.
  induction a as [|x a IH]; [destruct b; reflexivity |].
  cbn. rewrite String.eqb_refl, IH. reflexivity.
Qed.

Lemma commonprefix_len_le (a b : list string) : commonprefix_len a b <= length a.
Proof.
  revert b. induction a as [|x a IH]; intros [|y b]; cbn; try lia.
  destruct (String.eqb x y); [specialize (IH b) |]; lia.
Qed.

Lemma commonprefix_len_full (a b : list string) :
  commonprefix_len a b = length a -> a `prefix_of` b.
Proof.
  revert b. induction a as [|x a IH]; intros b H; [apply prefix_nil |].
  destruct b as [|y b]; [discriminate H |]. cbn in H.
  destruct (String.eqb_spec x y) as [->|_]; [| discriminate H].
  injection H as H. apply prefix_cons, IH, H.
Qed.

Section Landing.
Context (cwd repo : path) (Hrepo : Forall clean repo).

(** A file below the repository root: its relative path is the rest of
    its components, joined. *)
Lemma relpath_inside (file_path : string) (comps : list string) :
  nonempty file_path = true -> abspath cwd file_path = repo ++ comps -> comps <> [] ->
  relpath cwd file_path (path_str repo) = Some (join "/" comps).
Proof.
  intros Hne Habs Hcomps. unfold relpath, rel_list. rewrite Hne.
  rewrite (abspath_path_str cwd repo Hrepo), Habs, commonprefix_len_app.
  rewrite Nat.sub_diag, skipn_app, skipn_all, Nat.sub_diag. cbn [List.repeat app skipn].
  destruct comps; [congruence | reflexivity].
Qed.

(** A file that is not below the repository root: its relative path
    starts with [..]. *)
Lemma relpath_outside (file_path : string) :
  nonempty file_path = true -> ¬ repo `prefix_of` abspath cwd file_path ->
  exists rel, relpath cwd file_path (path_str repo) = Some rel /\ startswith ".." rel = true.
Proof.
  intros Hne Hout. unfold relpath, rel_list. rewrite Hne.
  rewrite (abspath_path_str cwd repo Hrepo).
  pose proof (commonprefix_len_le repo (abspath cwd file_path)) as Hle.
  destruct (decide (commonprefix_len repo (abspath cwd file_path) = length repo)) as [Heq|Hlt].
  { exfalso. apply Hout, commonprefix_len_full, Heq. }
  destruct (length repo - commonprefix_len repo (abspath cwd file_path)) as [|k] eqn:Hk; [lia |].
  cbn [List.repeat app]. eexists. split; [reflexivity |].
  rewrite startswith_dotdot_join. reflexivity.
Qed.

End Landing.

(** What the loop does with one target file, by where the file is: outside
    the repository it is skipped; below the repository root it is written
    at the same relative path under the sandbox directory when [git show]
    prints its content, unless its first relative component starts with
    two dots, in which case it is skipped as well. *)
Lemma selected_by_location (E : Env) (self : SafeGitHistoryAnalyzer) (temp_dir : path)
    (commit_hash : string) (r : Repo) (file_path : string) :
  Forall (fun c => no_char "/" c = true) (cwd E) -> Forall clean (repo_path self) ->
  nonempty file_path = true ->
  (¬ repo_path self `prefix_of` abspath (cwd E) file_path ->
   selected E self temp_dir commit_hash r file_path = None) /\
  (forall c comps, abspath (cwd E) file_path = repo_path self ++ c :: comps ->
   selected E self temp_dir commit_hash r file_path =
     if startswith ".." c then None
     else match (git E (show_argv commit_hash (join "/" (c :: comps))) r).1 with
          | Ret _ => Some (temp_dir ++ c :: comps)
          | Raise _ => None
          end).
Proof.
  intros Hcwd Hrepo Hne. split.
  - intros Hout. unfold selected.
    destruct (relpath_outside (cwd E) (repo_path self) Hrepo file_path Hne Hout)
      as (rel & -> & ->). reflexivity.
  - intros c comps Habs. unfold selected.
    rewrite (relpath_inside (cwd E) (repo_path self) Hrepo file_path (c :: comps) Hne Habs)
      by congruence.
    rewrite startswith_dotdot_join. destruct (startswith ".." c); [reflexivity |].
    rewrite joinpath_join; [reflexivity |].
    pose proof (abspath_clean (cwd E) file_path Hcwd) as Hclean.
    rewrite Habs in Hclean. apply Forall_app in Hclean as [_ H]. exact H.
Qed.

(** ** C7 *)

(** C7.  At revision [b2b2b2b] the repository holds [..cfg/k.py], a file
    inside the repository whose content is present, next to [b.py].  The
    loop writes [b.py] at its relative path under the sandbox directory
    and skips [..cfg/k.py], whose relative path starts with two dots, as
    it skips [/etc/passwd], which is outside the repository. *)
Theorem C7_dotdot_name_skipped :
  (get_file_content_at_commit Sample.env Sample.analyzer "b2b2b2b" "..cfg/k.py"
     Sample.world0).1 = Ret (Some "k = 0") /\
  relpath ["home"] "/repo/..cfg/k.py" "/repo" = Some "..cfg/k.py" /\
  let '(o, w') :=
    materialize Sample.env Sample.analyzer ["tmp"; "d"] "b2b2b2b"
      ["/repo/..cfg/k.py"; "/repo/b.py"; "/etc/passwd"] [] Sample.world0 in
  o = Ret ["/tmp/d/b.py"] /\
  w_files w' = {[ ["tmp"; "d"; "b.py"] := "y = x" ]}.
Proof. vm_compute. repeat split. Qed.

(* ===================================================================== *)
(** * One traversal at a time *)
(* ===================================================================== *)

Section GuiInvariant.
Import Gui.

Lemma guarded_start s : guarded s -> guarded (start_analysis s).1.
Proof.
  unfold guarded, start_analysis. destruct (is_analyzing s) eqn:Hflag.
  - cbn. rewrite Hflag. trivial.
  - intros H0. unfold _ensure_analyzer.
    destruct (analyzer s); [| destruct (repo_valid s)]; cbn.
    + destruct (target_files s); cbn; rewrite ?Hflag, ?H0; lia.
    + destruct (target_files s); cbn; rewrite ?Hflag, ?H0; lia.
    + rewrite Hflag. exact H0.
Qed.

Lemma guarded_step s s' : guarded s -> step s s' -> guarded s'.
Proof.
  intros Hg Hstep. destruct Hstep as [s | s n Ht | s n Hf | s a v fs].
  - apply guarded_start. exact Hg.
  - unfold guarded in *. cbn. destruct (is_analyzing s); lia.
  - exact Hg.
  - exact Hg.
Qed.

Lemma reachable_guarded s : reachable s -> guarded s.
Proof.
  induction 1 as [s (Hflag & Ht & _) | s s' _ IH Hstep].
  - unfold guarded. rewrite Hflag. exact Ht.
  - eapply guarded_step; eassumption.
Qed.

(** Two threads can be alive at once: one past its [finally] assignment
    and the worker of the next run. *)
Example finishing_worker_overlaps :
  exists s, reachable s /\ traversing s = 1 /\ finishing s = 1.
Proof.
  set (s0 := mkState false true true ["a.py"] 0 0 []).
  exists (mkState true true true ["a.py"] 1 1 []). split; [| split; reflexivity].
  apply (reach_step (mkState false true true ["a.py"] 0 1 [])).
  - apply (reach_step (mkState true true true ["a.py"] 1 0 [])).
    + apply (reach_step s0); [apply reach_init; repeat split |].
      exact (step_start s0).
    + exact (step_finally (mkState true true true ["a.py"] 1 0 []) 0 eq_refl).
  - exact (step_start (mkState false true true ["a.py"] 0 1 [])).
Qed.

End GuiInvariant.

(** ** C8 *)

(** C8.  While [is_analyzing] is set, [start_analysis] answers that an
    analysis is already in progress and returns at once: it starts no
    worker, changes nothing but the list of dialogs shown, and the window
    has no queue from which the request could run later (a worker starts
    only inside [start_analysis], and only when it answers [Started]).  In
    every reachable state at most one worker is traversing, and while one
    is the flag is set. *)
Theorem C8_single_traversal :
  (forall s, Gui.is_analyzing s = true ->
     Gui.start_analysis s =
       (Gui.show_dialog "Warning: Analysis already in progress" s, Gui.AlreadyRunning)) /\
  (forall s, (Gui.start_analysis s).2 <> Gui.Started ->
     Gui.traversing (Gui.start_analysis s).1 = Gui.traversing s /\
     Gui.finishing (Gui.start_analysis s).1 = Gui.finishing s /\
     Gui.is_analyzing (Gui.start_analysis s).1 = Gui.is_analyzing s) /\
  (forall s, Gui.reachable s ->
     Gui.traversing s <= 1 /\ (Gui.traversing s = 1 -> Gui.is_analyzing s = true)).
Proof.
  split; [| split].
  - intros s Hflag. unfold Gui.start_analysis. rewrite Hflag. reflexivity.
  - intros [flag a v fs t f d]. unfold Gui.start_analysis, Gui._ensure_analyzer. cbn.
    destruct flag; [intros _; repeat split |].
    destruct a; [| destruct v]; cbn;
      try (destruct fs; cbn; [intros _; repeat split | congruence]).
    intros _. repeat split.
  - intros s Hreach. apply reachable_guarded in Hreach. unfold Gui.guarded in Hreach.
    destruct (Gui.is_analyzing s); [split; [exact Hreach | reflexivity] |].
    rewrite Hreach. split; [lia | discriminate].
Qed.

Lemma C8_single_traversal_witness :
  let s := Gui.mkState true true true ["a.py"] 1 0 [] in
  Gui.is_analyzing s = true /\
  Gui.start_analysis s =
    (Gui.show_dialog "Warning: Analysis already in progress" s, Gui.AlreadyRunning).
Proof.
  split; [reflexivity |].
  exact (proj1 C8_single_traversal (Gui.mkState true true true ["a.py"] 1 0 []) eq_refl).
Defined.

(* ===================================================================== *)
(** * Every recorded path existed *)
(* ===================================================================== *)

Section Recorded.
Import CMake.
Context (fs : gset path) (source_dir : path).










End Recorded.

(** ** C9 *)


(** The sample descriptor: the unresolved [${UNSET_VAR}/inc], [missing]
    and [src/gone.cpp] are skipped. *)
Example cmake_sample_parsed :
  CMake.CMakeParser_init CMakeSample.fs CMakeSample.read_text ["proj"; "CMakeLists.txt"] =
  Ret (CMake.mkParser ["proj"; "CMakeLists.txt"] ["proj"]
         (CMake.mkSettings ["/proj/include"; "/proj/src"] ["DEBUG"; "LEVEL"] "20"
            ["/proj/src/main.cpp"] ["/proj/include/app.h"] [] [])).
Proof. vm_compute. reflexivity. Qed.

(* ===================================================================== *)
(** * The repository root of a file *)
(* ===================================================================== *)

Lemma parent_fixed (p : path) : p = parent p -> p = [].
Proof.
  unfold parent. destruct p as [|c p]; [reflexivity |]. intros Heq.
  pose proof (app_removelast_last "" (l := c :: p) ltac:(discriminate)) as Hsplit.
  rewrite <- Heq in Hsplit. apply (f_equal length) in Hsplit.
  rewrite length_app in Hsplit. cbn in Hsplit. lia.
Qed.

Lemma parent_prefix (p : path) : parent p `prefix_of` p.
Proof.
  unfold parent. destruct p as [|c p]; [reflexivity |].
  exists [List.last (c :: p) ""]. apply app_removelast_last. discriminate.
Qed.

Lemma prefix_parent (q p : path) : q `prefix_of` p -> q <> p -> q `prefix_of` parent p.
Proof.
  intros [k ->] Hne. destruct k as [|c k]; [rewrite app_nil_r in Hne; congruence |].
  unfold parent. rewrite removelast_app by discriminate. eexists. reflexivity.
Qed.

Lemma parent_length (p : path) : p <> [] -> S (length (parent p)) = length p.
Proof.
  intros Hne. unfold parent.
  rewrite (app_removelast_last "" Hne) at 2. rewrite length_app. cbn. lia.
Qed.

Lemma joinpath_dot_git (p : path) : joinpath p ".git" = p ++ [".git"].
Proof. reflexivity. Qed.

Section RepoRootProofs.
Import RepoRoot.
Context (files present : gset path).

Lemma walk_up_spec (fuel : nat) (p : path) :
  length p < fuel ->
  match walk_up present fuel p with
  | Some s => exists root, s = path_str root /\ nearest_root present p root
  | None => no_root present p
  end.
Proof.
  revert p. induction fuel as [|fuel IH]; intros p Hlen; [lia |].
  cbn [walk_up]. destruct (bool_decide (p = parent p)) eqn:Hroot.
  { apply bool_decide_eq_true, parent_fixed in Hroot. subst p. cbv iota beta.
    intros q Hq Hpre. apply prefix_nil_inv in Hpre. congruence. }
  apply bool_decide_eq_false in Hroot.
  assert (Hne : p <> []) by (intros ->; apply Hroot; reflexivity).
  rewrite joinpath_dot_git.
  destruct (exists_ present (p ++ [".git"])) eqn:Hgit; unfold exists_ in Hgit.
  { apply bool_decide_eq_true in Hgit. cbv iota beta. exists p. split; [reflexivity |].
    split; [exact Hne |]. split; [reflexivity |]. split; [exact Hgit |].
    intros q Hpq Hqp _. apply (anti_symm prefix); assumption. }
  apply bool_decide_eq_false in Hgit. cbv iota beta.
  pose proof (parent_length p Hne) as Hpl.
  specialize (IH (parent p) ltac:(lia)).
  destruct (walk_up present fuel (parent p)) as [s|].
  - destruct IH as (root & -> & Hr & Hpre & Hin & Hnear). exists root.
    split; [reflexivity |]. split; [exact Hr |]. split; [| split; [exact Hin |]].
    + etransitivity; [exact Hpre | apply parent_prefix].
    + intros q Hrq Hqp Hq. apply Hnear; try assumption.
      apply prefix_parent; [exact Hqp | congruence].
  - intros q Hq Hqp Hin. destruct (decide (q = p)) as [->|Hqne]; [contradiction |].
    apply (IH q Hq); [apply prefix_parent; assumption | exact Hin].
Qed.

End RepoRootProofs.

(** ** X1 *)

(** X1.  [find_git_repo_root] answers with the deepest directory, at or
    above the file's directory, that holds [.git]; the answer is never the
    root of the file system, whose [.git] is not looked at; and it is
    [None] exactly when no directory on the way up, the root left out,
    holds [.git]. *)
Theorem X1_find_git_repo_root (files present : gset path) (file_path : path) :
  let start := if RepoRoot.is_file files file_path then parent file_path else file_path in
  match RepoRoot.find_git_repo_root files present file_path with
  | Some s =>
      exists root, s = path_str root /\ root <> [] /\ root `prefix_of` start /\
        (root ++ [".git"]) ∈ present /\
        forall q, root `prefix_of` q -> q `prefix_of` start ->
                  (q ++ [".git"]) ∈ present -> q = root
  | None =>
      forall q, q <> [] -> q `prefix_of` start -> (q ++ [".git"]) ∉ present
  end.
Proof.
  cbn zeta. unfold RepoRoot.find_git_repo_root.
  set (start := if RepoRoot.is_file files file_path then parent file_path else file_path).
  pose proof (walk_up_spec present (S (length start)) start ltac:(lia)) as H.
  destruct (RepoRoot.walk_up present (S (length start)) start) as [s|]; exact H.
Qed.

(** A repository at the root of the file system is not found. *)
Example root_repository_not_found :
  RepoRoot.find_git_repo_root ∅ {[ [".git"] ]} ["src"; "a.py"] = None /\
  RepoRoot.find_git_repo_root {[ ["r"; "src"; "a.py"] ]} {[ [".git"]; ["r"; ".git"] ]}
    ["r"; "src"; "a.py"] = Some "/r".
Proof. vm_compute. split; reflexivity. Qed.

(* ===================================================================== *)
(** * The keys of the result map *)
(* ===================================================================== *)

Lemma store_result_keys cb commit_hash result results :
  returns (keys_within results [commit_hash])
    (store_result cb commit_hash result results).
Proof.
  intros w r w'. rewrite store_result_eq.
  destruct (meaningful result); intros [= <- _].
  - split.
    + intros c Hc. destruct (decide (commit_hash = c)) as [->|Hne].
      * right. apply list_elem_of_singleton. reflexivity.
      * left. rewrite lookup_insert_ne in Hc by exact Hne. exact Hc.
    + rewrite map_size_insert. destruct (results !! commit_hash); cbn; lia.
  - split; [intros c Hc; left; exact Hc | lia].
Qed.

Lemma for_commits_keys (E : Env) self target_files cb total i commits results :
  returns (keys_within results commits)
    (for_commits E self target_files cb total i commits results).
Proof.
  revert i results.
  induction commits as [|c rest IH]; intros i results; cbn [for_commits].
  - apply returns_ret. split; [intros k Hk; left; exact Hk | lia].
  - apply returns_bind. intros _. apply returns_bind. intros v.
    eapply returns_bind_with; [apply store_result_keys |].
    intros r1 [Hk1 Hs1] w final w' Hrun.
    apply IH in Hrun as [Hk Hs]. split.
    + intros k Hfin. destruct (Hk k Hfin) as [Hin | Hin].
      * destruct (Hk1 k Hin) as [Hres | Hc]; [left; exact Hres |].
        right. apply list_elem_of_singleton in Hc as ->. apply elem_of_cons. left. reflexivity.
      * right. apply elem_of_cons. right. exact Hin.
    + cbn [length] in *. lia.
Qed.

(** ** X2 *)

(** X2.  Every key of the map a traversal returns is a revision that
    [git log] listed, so the map has at most one entry per listed
    revision; and after a failed enumeration the map is empty. *)
Theorem X2_result_keys_enumerated (E : Env) (self : SafeGitHistoryAnalyzer)
    (target_files : list string) (progress_callback : bool) (w : World) :
  match analyze_all_commits E self target_files progress_callback w with
  | (Ret final, _) =>
      match git E log_argv (w_repo w) with
      | (Ret stdout, _) =>
          exists commits,
            commits_of_lines (split_on LF (strip stdout)) = Ret commits /\
            (forall c, is_Some (final !! c) -> c ∈ commits) /\
            size final <= length commits
      | (Raise _, _) => final = ∅
      end
  | (Raise _, _) => True
  end.
Proof.
  destruct (analyze_all_commits E self target_files progress_callback w) as [[final|e] w']
    eqn:Hrun; [| exact I].
  unfold analyze_all_commits, subprocess_run in Hrun. fold log_argv in Hrun.
  destruct (git E log_argv (w_repo w)) as [[stdout|[rc cmd|cls msg]] r].
  - destruct (commits_of_lines _) as [commits|e] eqn:Hc; [| discriminate Hrun].
    apply for_commits_keys in Hrun as [Hk Hs]. exists commits.
    split; [reflexivity |]. split.
    + intros c Hfin. destruct (Hk c Hfin) as [Hin | Hin]; [| exact Hin].
      rewrite lookup_empty in Hin. destruct Hin as [x Hx]. discriminate Hx.
    + rewrite map_size_empty in Hs. lia.
  - injection Hrun as <- _. reflexivity.
  - discriminate Hrun.
Qed.

(* ===================================================================== *)
(** * The lookups of a pass *)
(* ===================================================================== *)

#[local] Instance same_cmds_refl : Reflexive same_cmds.
Proof. intros w. reflexivity. Qed.

#[local] Instance same_cmds_trans : Transitive same_cmds.
Proof. intros a b c H1 H2. unfold same_cmds in *. congruence. Qed.

Lemma same_cmds_fs w ds fs : same_cmds w (set_fs ds fs w).
Proof. reflexivity. Qed.

Lemma same_cmds_rng w n : same_cmds w (set_rng n w).
Proof. reflexivity. Qed.

Lemma same_cmds_stderr w msg : same_cmds w (add_stderr msg w).
Proof. reflexivity. Qed.

Lemma same_cmds_notify cb msg : preserves same_cmds (notify cb msg).
Proof. intros w. unfold notify. destruct cb; reflexivity. Qed.

Section Lookups.
Context (E : Env) (self : SafeGitHistoryAnalyzer) (commit_hash : string).

(** The loop over the target files runs the lookups of the files it has
    reached, in order, and all of them when it completes. *)
Lemma materialize_cmds temp_dir target_files temp_files w :
  let '(o, w') := materialize E self temp_dir commit_hash target_files temp_files w in
  exists issued,
    w_cmds w' = w_cmds w ++ issued /\
    issued `prefix_of` omap (fetch_of E self commit_hash) target_files /\
    (returned o = true -> issued = omap (fetch_of E self commit_hash) target_files).
Proof.
  revert temp_files w.
  induction target_files as [|f rest IH]; intros temp_files w; cbn [materialize].
  { exists []. split; [symmetry; apply app_nil_r |]. split; reflexivity. }
  rewrite omap_cons_eq. unfold fetch_of at 1 4.
  destruct (relpath _ _ _) as [rel|].
  2:{ exists []. split; [symmetry; apply app_nil_r |]. split; [apply prefix_nil | discriminate]. }
  destruct (startswith ".." rel); [apply IH |].
  rewrite bind_eq, get_file_content_at_commit_eq.
  set (w1 := add_cmd (show_argv commit_hash rel) w).
  assert (Hstep : forall o w', (let '(o0, w'0) := (o, w') in
            exists issued, w_cmds w'0 = w_cmds w1 ++ issued /\
              issued `prefix_of` omap (fetch_of E self commit_hash) rest /\
              (returned o0 = true -> issued = omap (fetch_of E self commit_hash) rest)) ->
            exists issued, w_cmds w' = w_cmds w ++ issued /\
              issued `prefix_of` show_argv commit_hash rel
                                 :: omap (fetch_of E self commit_hash) rest /\
              (returned (A:=list string) o = true ->
               issued = show_argv commit_hash rel
                        :: omap (fetch_of E self commit_hash) rest)).
  { intros o w' (issued & Hc & Hp & Hr). exists (show_argv commit_hash rel :: issued).
    split; [rewrite Hc; subst w1; cbn [w_cmds add_cmd]; rewrite <- app_assoc; reflexivity |].
    split; [apply prefix_cons, Hp | intros Ho; rewrite (Hr Ho); reflexivity]. }
  assert (Hstop : forall w', w_cmds w' = w_cmds w1 ->
            exists issued, w_cmds w' = w_cmds w ++ issued /\
              issued `prefix_of` show_argv commit_hash rel
                                 :: omap (fetch_of E self commit_hash) rest /\
              (false = true ->
               issued = show_argv commit_hash rel
                        :: omap (fetch_of E self commit_hash) rest)).
  { intros w' Hc. exists [show_argv commit_hash rel].
    split; [rewrite Hc; reflexivity |]. split; [| discriminate].
    apply prefix_cons, prefix_nil. }
  destruct (git E (show_argv commit_hash rel) (w_repo w)) as [[text|[rc cmd|cls msg]] r].
  - rewrite bind_eq.
    pose proof (frame_mkdir_parents E same_cmds same_cmds_fs
                  (parent (joinpath temp_dir rel)) (set_repo r w1)) as Hmk.
    destruct (mkdir_parents E _ _) as [[u|e] w2]; unfold same_cmds in Hmk; cbn [snd w_cmds set_repo] in Hmk.
    2:{ apply Hstop. rewrite Hmk. reflexivity. }
    rewrite bind_eq.
    pose proof (frame_write_text E same_cmds same_cmds_fs
                  (joinpath temp_dir rel) text w2) as Hwr.
    destruct (write_text E _ _ w2) as [[u'|e] w3]; unfold same_cmds in Hwr; cbn [snd w_cmds set_repo] in Hwr.
    2:{ apply Hstop. rewrite Hwr, Hmk. reflexivity. }
    specialize (IH (temp_files ++ [path_str (joinpath temp_dir rel)]) w3).
    destruct (materialize E self temp_dir commit_hash rest _ w3) as [o w'].
    apply Hstep. destruct IH as (issued & Hc & Hp & Hr). exists issued.
    split; [rewrite Hc, Hwr, Hmk; reflexivity |]. split; assumption.
  - specialize (IH temp_files (set_repo r w1)).
    destruct (materialize E self temp_dir commit_hash rest _ _) as [o w'].
    apply Hstep. exact IH.
  - apply Hstop. reflexivity.
Qed.

Lemma try_body_cmds target_files cb temp_dir w :
  w_cmds (try_body E self commit_hash target_files cb temp_dir w).2 =
  w_cmds (materialize E self temp_dir commit_hash target_files [] w).2.
Proof.
  unfold try_body. rewrite bind_eq.
  destruct (materialize E self temp_dir commit_hash target_files [] w) as [[tf|e] w1];
    [| reflexivity].
  destruct tf as [|t ts].
  - unfold bind, notify, ret. destruct cb; reflexivity.
  - apply (frame_run_analysis E same_cmds same_cmds_stderr
             (fun cb0 msg _ => same_cmds_notify cb0 msg) commit_hash cb (t :: ts) w1).
Qed.

Lemma pass_cmds target_files cb w :
  exists issued,
    w_cmds (analyze_commit_safely E self commit_hash target_files cb w).2
    = w_cmds w ++ issued /\
    issued `prefix_of` omap (fetch_of E self commit_hash) target_files.
Proof.
  unfold analyze_commit_safely. rewrite bind_eq. unfold notify at 1.
  set (w0 := if cb then add_progress _ w else w).
  assert (H0 : w_cmds w0 = w_cmds w) by (subst w0; destruct cb; reflexivity).
  pose proof (frame_mkdtemp_from E same_cmds same_cmds_fs same_cmds_rng
                ("git_analysis_" +:+ short commit_hash +:+ "_") (TMP_MAX E) w0) as Hmk.
  unfold mkdtemp. destruct (mkdtemp_from E _ _ w0) as [[d|e] w1]; unfold same_cmds in Hmk; cbn [snd w_cmds set_repo] in Hmk.
  - pose proof (materialize_cmds d target_files [] w1) as Hmat.
    pose proof (try_body_cmds target_files cb d w1) as Htb.
    destruct (materialize E self d commit_hash target_files [] w1) as [o2 w2].
    destruct Hmat as (issued & Hc & Hp & _). exists issued. split; [| exact Hp].
    unfold finally, catch.
    destruct (try_body E self commit_hash target_files cb d w1) as [[v|e] w3];
      cbn [snd] in Htb.
    + pose proof (frame_cleanup E same_cmds same_cmds_fs same_cmds_stderr (Some d) w3) as Hcl.
      unfold same_cmds in Hcl.
      destruct (cleanup E (Some d) w3) as [[u|e] w4]; cbn [snd] in *;
        rewrite Hcl, Htb, Hc, Hmk, H0; reflexivity.
    + rewrite on_error_eq.
      set (w3' := add_stderr _ (add_stderr _ w3)).
      pose proof (frame_cleanup E same_cmds same_cmds_fs same_cmds_stderr (Some d) w3') as Hcl.
      unfold same_cmds in Hcl.
      destruct (cleanup E (Some d) w3') as [[u|e'] w4]; cbn [snd] in *;
        rewrite Hcl; subst w3'; cbn [w_cmds add_stderr]; rewrite Htb, Hc, Hmk, H0;
        reflexivity.
  - exists []. split; [| apply prefix_nil]. unfold finally. rewrite on_error_eq.
    cbn [cleanup ret snd w_cmds add_stderr]. rewrite Hmk, H0. symmetry. apply app_nil_r.
Qed.

End Lookups.

(** X3. The git commands one pass runs are lookups [git show <commit>:<path>]
    of target files whose path relative to the repository does not start
    with two dots, in the order of the target list and without gaps: the
    commands the pass adds to the log are a prefix of the lookups of the
    target files.  No command is run for a file outside the repository,
    and no other git command is run. *)
Theorem X3_pass_lookups (E : Env) (self : SafeGitHistoryAnalyzer) (commit_hash : string)
    (target_files : list string) (cb : bool) (w : World) :
  let '(_, w') := analyze_commit_safely E self commit_hash target_files cb w in
  exists issued,
    w_cmds w' = w_cmds w ++ issued /\
    issued `prefix_of` omap (fetch_of E self commit_hash) target_files.
Proof.
  pose proof (pass_cmds E self commit_hash target_files cb w) as H.
  destruct (analyze_commit_safely E self commit_hash target_files cb w) as [o w'].
  exact H.
Qed.

(* ===================================================================== *)
(** * The footprint of a pass on the file system *)
(* ===================================================================== *)

(** A target file that is looked up lands at or below the sandbox
    directory. *)
Lemma landing_under (cwd : path) (file_path start rel : string) (d : path) :
  Forall (fun c => no_char "/" c = true) cwd ->
  relpath cwd file_path start = Some rel -> startswith ".." rel = false ->
  exists l, joinpath d rel = d ++ l.
Proof.
  intros Hcwd Hrel Hdd. unfold relpath in Hrel.
  destruct (nonempty file_path); [| discriminate]. injection Hrel as Hrel.
  unfold rel_list in Hrel.
  pose proof (abspath_clean cwd file_path Hcwd) as Hclean.
  destruct (length (abspath cwd start)
            - commonprefix_len (abspath cwd start) (abspath cwd file_path)) as [|k].
  - cbn [List.repeat app] in Hrel.
    pose proof (Forall_drop _ (commonprefix_len (abspath cwd start) (abspath cwd file_path))
                  _ Hclean) as Hl.
    destruct (List.skipn _ (abspath cwd file_path)) as [|x l] eqn:Hs.
    + subst rel. exists []. reflexivity.
    + exists (x :: l). subst rel. apply (joinpath_join d (x :: l)). exact Hl.
  - assert (Hj : rel = join "/" (".." :: List.repeat ".." k ++
                     List.skipn (commonprefix_len (abspath cwd start) (abspath cwd file_path))
                       (abspath cwd file_path)))
      by (rewrite <- Hrel; reflexivity).
    rewrite Hj, startswith_dotdot_join in Hdd. discriminate Hdd.
Qed.

#[local] Instance within_refl d : Reflexive (within d).
Proof. intros w. repeat split; auto. Qed.

#[local] Instance within_trans d : Transitive (within d).
Proof.
  intros a b c (F1 & K1 & N1) (F2 & K2 & N2). repeat split.
  - intros p Hp. rewrite F2, F1 by exact Hp. reflexivity.
  - intros p Hp Hin. apply K2, K1; assumption.
  - intros p Hin. destruct (N2 p Hin) as [Hb | H]; [apply N1, Hb | right; exact H].
Qed.

#[local] Instance same_fs_refl : Reflexive same_fs.
Proof. intros w. split; reflexivity. Qed.

#[local] Instance same_fs_trans : Transitive same_fs.
Proof. intros a b c [D1 F1] [D2 F2]. split; congruence. Qed.

Lemma same_fs_stderr w msg : same_fs w (add_stderr msg w).
Proof. split; reflexivity. Qed.

Lemma same_fs_notify cb msg : preserves same_fs (notify cb msg).
Proof. intros w. unfold notify. destruct cb; split; reflexivity. Qed.

Lemma same_fs_within d w w' : same_fs w w' -> within d w w'.
Proof.
  intros [Hd Hf]. repeat split.
  - intros p _. rewrite Hf. reflexivity.
  - intros p _ Hin. rewrite Hd. exact Hin.
  - intros p Hin. left. rewrite <- Hd. exact Hin.
Qed.

Lemma ancestors_prefix (d p : path) : p ∈ ancestors d -> p `prefix_of` d.
Proof.
  unfold ancestors. intros Hin. apply list_elem_of_In, in_map_iff in Hin.
  destruct Hin as (k & <- & _). apply prefix_take.
Qed.

Lemma removelast_prefix (l : path) : removelast l `prefix_of` l.
Proof.
  induction l as [|x [|y l] IH]; cbn [removelast]; [reflexivity | apply prefix_nil |].
  apply prefix_cons, IH.
Qed.

Section Footprint.
Context (E : Env) (d : path).

Lemma within_mkdir_parents (l : list string) w :
  within d w (mkdir_parents E (parent (d ++ l)) w).2 /\
  w_dirs w ⊆ w_dirs (mkdir_parents E (parent (d ++ l)) w).2.
Proof.
  unfold mkdir_parents. destruct (io_fault E _ w); [split; reflexivity |].
  destruct (existsb _ _); [split; reflexivity |]. cbn [snd set_fs w_dirs w_files].
  split; [| intros p Hp; apply elem_of_union; right; exact Hp].
  repeat split; cbn [w_files w_dirs].
  - intros p _ Hin. apply elem_of_union. right. exact Hin.
  - intros p Hin. apply elem_of_union in Hin as [Hin | Hin]; [| left; exact Hin].
    right. apply elem_of_list_to_set, ancestors_prefix in Hin.
    assert (Hp : p `prefix_of` d ++ l).
    { etransitivity; [exact Hin | apply removelast_prefix]. }
    destruct (prefix_weak_total p d (d ++ l) Hp (prefix_app_r d d l (reflexivity d)));
      [right | left]; assumption.
Qed.

Lemma within_write_text (l : list string) text w :
  within d w (write_text E (d ++ l) text w).2 /\
  w_dirs (write_text E (d ++ l) text w).2 = w_dirs w.
Proof.
  unfold write_text. destruct (io_fault E _ w); [split; reflexivity |].
  destruct (_ || _); [split; reflexivity |].
  destruct (_ || _); [| split; reflexivity]. cbn [snd set_fs w_dirs w_files].
  split; [| reflexivity]. repeat split; cbn [w_files w_dirs]; auto.
  intros p Hp. apply lookup_insert_ne. intros <-. apply Hp.
  unfold under. apply prefix_app_r. reflexivity.
Qed.

Lemma within_set_repo r argv w : within d w (set_repo r (add_cmd argv w)).
Proof. apply same_fs_within. split; reflexivity. Qed.

Context (Hcwd : Forall (fun c => no_char "/" c = true) (cwd E)).
Context (self : SafeGitHistoryAnalyzer) (commit_hash : string).

(** The loop over the target files writes at the sandbox directory and
    below it only, and removes nothing. *)
Lemma materialize_within target_files temp_files w :
  within d w (materialize E self d commit_hash target_files temp_files w).2 /\
  w_dirs w ⊆ w_dirs (materialize E self d commit_hash target_files temp_files w).2.
Proof.
  revert temp_files w.
  induction target_files as [|f rest IH]; intros temp_files w; cbn [materialize].
  { split; reflexivity. }
  destruct (relpath _ _ _) as [rel|] eqn:Hrel; [| split; reflexivity].
  destruct (startswith ".." rel) eqn:Hdd; [apply IH |].
  destruct (landing_under _ _ _ _ d Hcwd Hrel Hdd) as (l & Hl). rewrite Hl.
  rewrite bind_eq, get_file_content_at_commit_eq.
  set (w1 := add_cmd (show_argv commit_hash rel) w).
  destruct (git E (show_argv commit_hash rel) (w_repo w)) as [[text|[rc cmd|cls msg]] r].
  - rewrite bind_eq.
    destruct (within_mkdir_parents l (set_repo r w1)) as [Hmk Hmk'].
    destruct (mkdir_parents E _ _) as [[u|e] w2]; cbn [snd] in *.
    2:{ split; [| exact Hmk']. etransitivity; [apply (within_set_repo r (show_argv commit_hash rel) w) | exact Hmk]. }
    rewrite bind_eq.
    destruct (within_write_text l text w2) as [Hwr Hwr'].
    destruct (write_text E _ _ w2) as [[u'|e] w3]; cbn [snd] in *.
    2:{ split; [| rewrite Hwr'; exact Hmk'].
        etransitivity; [apply (within_set_repo r (show_argv commit_hash rel) w) |].
        etransitivity; [exact Hmk | exact Hwr]. }
    destruct (IH (temp_files ++ [path_str (d ++ l)]) w3) as [H1 H2]. split.
    + etransitivity; [apply (within_set_repo r (show_argv commit_hash rel) w) |].
      etransitivity; [exact Hmk |]. etransitivity; [exact Hwr | exact H1].
    + etransitivity; [| exact H2]. rewrite Hwr'. exact Hmk'.
  - destruct (IH temp_files (set_repo r w1)) as [H1 H2]. split; [| exact H2].
    etransitivity; [apply (within_set_repo r (show_argv commit_hash rel) w) | exact H1].
  - split; [apply within_set_repo | reflexivity].
Qed.

Lemma try_body_within target_files cb w :
  let w' := (catch (try_body E self commit_hash target_files cb d)
                   (on_error commit_hash) w).2 in
  within d w w' /\ w_dirs w ⊆ w_dirs w'.
Proof.
  cbn zeta. unfold catch, try_body. rewrite bind_eq.
  destruct (materialize_within target_files [] w) as [Hm Hm'].
  destruct (materialize E self d commit_hash target_files [] w) as [[tf|e] w1];
    cbn [snd] in *.
  - assert (Hrest : forall m : M pyval, preserves same_fs m ->
              let w' := (match m w1 with
                         | (Ret a, w'0) => (Ret a, w'0)
                         | (Raise e, w'0) => on_error commit_hash e w'0
                         end).2 in
              within d w w' /\ w_dirs w ⊆ w_dirs w').
    { intros m Hpres. specialize (Hpres w1). cbn zeta.
      destruct (m w1) as [[a|e] w2]; cbn [snd] in *.
      - destruct Hpres as [Hd Hf]. split; [| rewrite Hd; exact Hm'].
        etransitivity; [exact Hm | apply same_fs_within; split; assumption].
      - rewrite on_error_eq. cbn [snd].
        destruct Hpres as [Hd Hf]. split; [| cbn [w_dirs add_stderr]; rewrite Hd; exact Hm'].
        etransitivity; [exact Hm |]. apply same_fs_within. split; cbn; assumption. }
    destruct tf as [|t ts].
    + apply (Hrest (notify cb _ ;;; ret PyNone)).
      intros w0. unfold bind, notify, ret. destruct cb; split; reflexivity.
    + apply (Hrest (run_analysis E commit_hash cb (t :: ts))).
      apply (frame_run_analysis E same_fs same_fs_stderr
               (fun cb0 msg _ => same_fs_notify cb0 msg)).
  - rewrite on_error_eq. cbn [snd]. split; [| exact Hm'].
    etransitivity; [exact Hm |]. apply same_fs_within. split; reflexivity.
Qed.

Lemma cleanup_within w :
  within d w (cleanup E (Some d) w).2 /\
  (io_fault E (OpRmtree d) w = None -> d ∈ w_dirs w ->
   forall p, under d p -> path_exists p (cleanup E (Some d) w).2 = false).
Proof.
  cbn [cleanup]. rewrite bind_eq. unfold os_path_exists.
  destruct (path_exists d w) eqn:Hex.
  - unfold catch, rmtree. destruct (io_fault E (OpRmtree d) w) as [e|].
    + cbn [snd print_stderr]. split; [apply same_fs_within, same_fs_stderr | discriminate].
    + cbn [snd]. split.
      * repeat split; cbn [w_files w_dirs set_fs].
        -- intros p Hp. destruct (w_files w !! p) as [x|] eqn:Hx.
           ++ apply map_lookup_filter_Some. split; [exact Hx | exact Hp].
           ++ apply map_lookup_filter_None. left. exact Hx.
        -- intros p Hp Hin. apply elem_of_filter. split; assumption.
        -- intros p Hin. apply elem_of_filter in Hin as [_ Hin]. left. exact Hin.
      * intros _ _ p Hp. unfold path_exists. cbn [w_files w_dirs set_fs].
        apply orb_false_iff. split; apply bool_decide_eq_false.
        -- rewrite elem_of_filter. intros [Hn _]. apply Hn, Hp.
        -- intros [x Hx]. apply map_lookup_filter_Some in Hx as [_ Hn]. apply Hn, Hp.
  - cbn [snd ret]. split; [reflexivity |]. intros _ Hin. exfalso.
    unfold path_exists in Hex. apply orb_false_iff in Hex as [Hex _].
    apply bool_decide_eq_false in Hex. apply Hex, Hin.
Qed.

End Footprint.

(** X4. The footprint of a pass.  Once [mkdtemp] has created the sandbox
    directory of a pass, the pass changes the file system at that
    directory and below it only: every file elsewhere has the content it
    had, no directory elsewhere is removed, and a directory that is new
    elsewhere is an ancestor of the sandbox directory.  When removing the
    tree does not fail, nothing is left at the sandbox directory or
    below it. *)
Theorem X4_sandbox_footprint (E : Env) (self : SafeGitHistoryAnalyzer)
    (commit_hash : string) (target_files : list string) (progress_callback : bool)
    (w w1 : World) (temp_dir : path) :
  Forall (fun c => no_char "/" c = true) (cwd E) ->
  mkdtemp E ("git_analysis_" +:+ short commit_hash +:+ "_")
    (notify progress_callback ("Analyzing commit " +:+ short commit_hash +:+ "...") w).2
  = (Ret temp_dir, w1) ->
  let w' := (analyze_commit_safely E self commit_hash target_files progress_callback w).2 in
  within temp_dir w w' /\
  ((forall w2, io_fault E (OpRmtree temp_dir) w2 = None) ->
   forall p, under temp_dir p -> path_exists p w' = false).
Proof.
  intros Hcwd Hmk. cbn zeta.
  remember (analyze_commit_safely E self commit_hash target_files progress_callback w)
    as res eqn:Hres.
  unfold analyze_commit_safely in Hres. rewrite bind_eq in Hres. unfold notify at 1 in Hres.
  unfold notify in Hmk. cbn [snd] in Hmk. rewrite Hmk in Hres.
  apply mkdtemp_from_fresh in Hmk as (_ & _ & Hdirs & Hfiles & _).
  assert (H01 : within temp_dir w w1).
  { repeat split.
    - intros p _. rewrite Hfiles. destruct progress_callback; reflexivity.
    - intros p _ Hin. rewrite Hdirs. apply elem_of_union. right.
      destruct progress_callback; exact Hin.
    - intros p Hin. rewrite Hdirs in Hin. apply elem_of_union in Hin as [Hin | Hin].
      + apply elem_of_singleton in Hin as ->. right. left. unfold under. reflexivity.
      + left. destruct progress_callback; exact Hin. }
  assert (Hd1 : temp_dir ∈ w_dirs w1).
  { rewrite Hdirs. apply elem_of_union. left. apply elem_of_singleton. reflexivity. }
  unfold finally in Hres.
  destruct (try_body_within E temp_dir Hcwd self commit_hash target_files
              progress_callback w1) as [H12 Hgrow].
  destruct (catch _ _ w1) as [o w2]. cbn [snd] in H12, Hgrow.
  destruct (cleanup_within E temp_dir w2) as [H23 Hgone].
  destruct (cleanup E (Some temp_dir) w2) as [[u|e] w3]; subst res; cbn [snd] in *;
    (split; [etransitivity; [exact H01 | etransitivity; [exact H12 | exact H23]] |]);
    intros Hok p Hp; apply (Hgone (Hok w2) (Hgrow _ Hd1) p Hp).
Qed.

Lemma X4_sandbox_footprint_witness :
  let w' := (analyze_commit_safely Sample.env Sample.analyzer "b2b2b2b" Sample.targets true
               Sample.world0).2 in
  within ["tmp"; "git_analysis_b2b2b2b_0"] Sample.world0 w' /\
  forall p, under ["tmp"; "git_analysis_b2b2b2b_0"] p -> path_exists p w' = false.
Proof.
  destruct (X4_sandbox_footprint Sample.env Sample.analyzer "b2b2b2b" Sample.targets true
              Sample.world0
              (mkdtemp Sample.env ("git_analysis_" +:+ short "b2b2b2b" +:+ "_")
                 (notify true ("Analyzing commit " +:+ short "b2b2b2b" +:+ "...")
                    Sample.world0).2).2
              ["tmp"; "git_analysis_b2b2b2b_0"]) as [H1 H2].
  - repeat constructor.
  - vm_compute. reflexivity.
  - split; [exact H1 | apply H2; intros w2; reflexivity].
Defined.

(* ===================================================================== *)
(** * Reading the output of [git log --oneline] *)
(* ===================================================================== *)

Lemma append_assoc3 (a b c : string) : (a +:+ b) +:+ c = a +:+ (b +:+ c).
Proof. induction a as [|x a IH]; [reflexivity |]. rewrite !append_cons, IH. reflexivity. Qed.

Lemma list_ascii_app (a b : string) :
  list_ascii_of_string (a +:+ b) = list_ascii_of_string a ++ list_ascii_of_string b.
Proof.
  induction a as [|x a IH]; [reflexivity |].
  rewrite append_cons. cbn [list_ascii_of_string]. rewrite IH. reflexivity.
Qed.

Lemma string_of_list_app (l1 l2 : list ascii) :
  string_of_list_ascii (l1 ++ l2) = string_of_list_ascii l1 +:+ string_of_list_ascii l2.
Proof.
  induction l1 as [|x l1 IH]; [reflexivity |].
  cbn [app string_of_list_ascii]. rewrite IH. reflexivity.
Qed.

Lemma rev_cons (c : ascii) (s : string) : PyStr.rev (String c s) = PyStr.rev s +:+ String c "".
Proof.
  unfold PyStr.rev. cbn [list_ascii_of_string List.rev]. apply string_of_list_app.
Qed.

Lemma rev_snoc (a : string) (c : ascii) : PyStr.rev (a +:+ String c "") = String c (PyStr.rev a).
Proof.
  unfold PyStr.rev. rewrite list_ascii_app. cbn [list_ascii_of_string].
  rewrite rev_unit. reflexivity.
Qed.

Lemma nonempty_snoc (x : string) (c : ascii) : nonempty (x +:+ String c "") = true.
Proof. destruct x; reflexivity. Qed.

Lemma nonempty_rev (s : string) : nonempty (PyStr.rev s) = nonempty s.
Proof. destruct s as [|c s]; [reflexivity |]. rewrite rev_cons. apply nonempty_snoc. Qed.

Lemma nonempty_false (s : string) : nonempty s = false -> s = "".
Proof. destruct s; [reflexivity | discriminate]. Qed.

Lemma lstrip_snoc (x : string) (c : ascii) :
  lstrip (x +:+ String c "") =
  if nonempty (lstrip x) then lstrip x +:+ String c ""
  else if isspace c then "" else String c "".
Proof.
  induction x as [|a x IH].
  - rewrite append_nil. cbn [lstrip nonempty]. destruct (isspace c); reflexivity.
  - rewrite append_cons. cbn [lstrip]. destruct (isspace a); [exact IH | reflexivity].
Qed.

(** [rstrip], from the left. *)
Lemma rstrip_cons (c : ascii) (s : string) :
  rstrip (String c s) =
  if nonempty (rstrip s) then String c (rstrip s)
  else if isspace c then "" else String c "".
Proof.
  unfold rstrip. rewrite rev_cons, lstrip_snoc, nonempty_rev.
  destruct (nonempty (lstrip (PyStr.rev s))); [apply rev_snoc |].
  destruct (isspace c); reflexivity.
Qed.

Lemma rstrip_nil : rstrip "" = "".
Proof. reflexivity. Qed.

Lemma rstrip_no_space (h : string) : no_space h = true -> rstrip h = h.
Proof.
  induction h as [|c h IH]; [reflexivity |]. cbn [no_space]. intros H.
  apply andb_true_iff in H as [Hc Hh]. apply negb_true_iff in Hc.
  rewrite rstrip_cons, (IH Hh), Hc. destruct h; reflexivity.
Qed.

Lemma rstrip_app_nonempty (a b : string) :
  nonempty (rstrip b) = true -> rstrip (a +:+ b) = a +:+ rstrip b.
Proof.
  intros Hb. induction a as [|c a IH]; [reflexivity |].
  rewrite !append_cons, rstrip_cons, IH.
  assert (Hne : nonempty (a +:+ rstrip b) = true).
  { destruct a; [rewrite append_nil; exact Hb | reflexivity]. }
  rewrite Hne. reflexivity.
Qed.

Lemma rstrip_app_token (h t : string) : token h -> rstrip (h +:+ t) = h +:+ rstrip t.
Proof.
  intros [Hne Hh]. destruct (nonempty (rstrip t)) eqn:Ht.
  - apply rstrip_app_nonempty, Ht.
  - rewrite (nonempty_false _ Ht). clear Hne.
    induction h as [|c h IH]; [rewrite !append_nil; apply nonempty_false, Ht |].
    cbn [no_space] in Hh. apply andb_true_iff in Hh as [Hc Hh]. apply negb_true_iff in Hc.
    rewrite !append_cons, rstrip_cons, (IH Hh), Hc.
    destruct h; reflexivity.
Qed.

Lemma rstrip_snoc_space (s : string) (c : ascii) :
  isspace c = true -> rstrip (s +:+ String c "") = rstrip s.
Proof.
  intros Hc. induction s as [|a s IH].
  - rewrite append_nil, rstrip_cons, rstrip_nil, Hc. reflexivity.
  - rewrite append_cons, !rstrip_cons, IH. reflexivity.
Qed.

Lemma no_char_rstrip (c : ascii) (s : string) :
  no_char c s = true -> no_char c (rstrip s) = true.
Proof.
  induction s as [|a s IH]; [reflexivity |]. cbn [no_char]. intros H.
  apply andb_true_iff in H as [Ha Hs]. rewrite rstrip_cons.
  destruct (nonempty (rstrip s)).
  - cbn [no_char]. rewrite Ha, (IH Hs). reflexivity.
  - destruct (isspace a); [reflexivity |]. cbn [no_char]. rewrite Ha. reflexivity.
Qed.

Lemma no_char_app (c : ascii) (a b : string) :
  no_char c a = true -> no_char c b = true -> no_char c (a +:+ b) = true.
Proof.
  intros Ha Hb. induction a as [|x a IH]; [exact Hb |].
  cbn [no_char] in Ha. apply andb_true_iff in Ha as [Hx Ha].
  rewrite append_cons. cbn [no_char]. rewrite Hx, (IH Ha). reflexivity.
Qed.

Lemma no_space_no_LF (h : string) : no_space h = true -> no_char LF h = true.
Proof.
  induction h as [|c h IH]; [reflexivity |]. cbn [no_space no_char]. intros H.
  apply andb_true_iff in H as [Hc Hh]. rewrite (IH Hh), andb_true_r.
  apply negb_true_iff. apply negb_true_iff in Hc.
  destruct (Ascii.eqb_spec c LF) as [-> |]; [discriminate Hc | reflexivity].
Qed.

Lemma lstrip_token_app (h t : string) : token h -> lstrip (h +:+ t) = h +:+ t.
Proof.
  intros [Hne Hh]. destruct h as [|c h]; [discriminate Hne |].
  cbn [no_space] in Hh. apply andb_true_iff in Hh as [Hc _]. apply negb_true_iff in Hc.
  rewrite append_cons. cbn [lstrip]. rewrite Hc. reflexivity.
Qed.

Lemma split_token (h t : string) : token h -> word_end t -> split (h +:+ t) = h :: split t.
Proof.
  intros [Hne Hh] Ht. induction h as [|a h IH]; [discriminate Hne |]. clear Hne.
  cbn [no_space] in Hh. apply andb_true_iff in Hh as [Ha Hh]. apply negb_true_iff in Ha.
  rewrite append_cons. cbn [split]. rewrite Ha. destruct h as [|b h].
  - rewrite append_nil. destruct Ht as [-> | (c & t' & -> & Hc)]; [reflexivity |].
    rewrite Hc. reflexivity.
  - rewrite append_cons. pose proof Hh as Hh'. cbn [no_space] in Hh'.
    apply andb_true_iff in Hh' as [Hb _]. apply negb_true_iff in Hb. rewrite Hb.
    rewrite <- append_cons, (IH eq_refl Hh). reflexivity.
Qed.

Lemma strip_token_nonempty (h t : string) : token h -> nonempty (strip (h +:+ t)) = true.
Proof.
  intros Hh. unfold strip. rewrite (lstrip_token_app h t Hh), (rstrip_app_token h t Hh).
  destruct Hh as [Hne _]. destruct h; [discriminate Hne | reflexivity].
Qed.

Lemma word_end_rstrip_space (s : string) : word_end (rstrip (String " " s)).
Proof.
  rewrite rstrip_cons. destruct (nonempty (rstrip s)); [| left; reflexivity].
  right. eexists _, _. split; reflexivity.
Qed.

Lemma commits_of_lines_token (h t : string) (rest : list string) :
  token h -> word_end t ->
  commits_of_lines ((h +:+ t) :: rest) =
  match commits_of_lines rest with
  | Ret commits => Ret (h :: commits)
  | Raise e => Raise e
  end.
Proof.
  intros Hh Ht. cbn [commits_of_lines].
  rewrite (strip_token_nonempty h t Hh), (split_token h t Hh Ht). reflexivity.
Qed.

Lemma log_lines (cs : list Commit) :
  Forall oneline_ok cs -> cs <> [] ->
  nonempty (rstrip (List.fold_right (fun c acc => MiniGit.oneline c +:+ acc) "" cs)) = true /\
  commits_of_lines
    (split_on LF (rstrip (List.fold_right (fun c acc => MiniGit.oneline c +:+ acc) "" cs)))
  = Ret (List.map c_hash cs).
Proof.
  induction cs as [|c cs IH]; [congruence |]. intros Hall _.
  apply Forall_cons in Hall as [[Hh Hs] Hcs]. cbn [List.fold_right List.map].
  unfold MiniGit.oneline at 1 3.
  assert (Hline : no_char LF (c_hash c +:+ String " " (c_subject c)) = true).
  { apply no_char_app; [apply no_space_no_LF, Hh |]. cbn [no_char]. rewrite Hs. reflexivity. }
  destruct cs as [|c' cs'].
  - cbn [List.fold_right]. rewrite !append_assoc3, (rstrip_app_token _ _ Hh).
    change (" " +:+ (c_subject c +:+ String LF "" +:+ ""))
      with (String " " (c_subject c +:+ String LF "" +:+ "")).
    assert (Hr : rstrip (String " " (c_subject c +:+ String LF "" +:+ ""))
                 = rstrip (String " " (c_subject c))).
    { change (String " " (c_subject c +:+ String LF "" +:+ ""))
        with (String " " (c_subject c) +:+ String LF "").
      apply rstrip_snoc_space. reflexivity. }
    rewrite Hr. split.
    + destruct Hh as [Hne _]. destruct (c_hash c); [discriminate Hne | reflexivity].
    + rewrite split_on_no_char.
      2:{ apply no_char_app; [apply no_space_no_LF, Hh |]. apply no_char_rstrip.
          cbn [no_char]. rewrite Hs. reflexivity. }
      rewrite (commits_of_lines_token _ _ [] Hh (word_end_rstrip_space _)). reflexivity.
  - destruct (IH Hcs ltac:(congruence)) as [Hne Hrest].
    set (R := List.fold_right (fun c acc => MiniGit.oneline c +:+ acc) "" (c' :: cs')) in *.
    assert (Heq : (c_hash c +:+ " " +:+ c_subject c +:+ String LF "") +:+ R
                  = (c_hash c +:+ String " " (c_subject c)) +:+ String LF R).
    { rewrite !append_assoc3. reflexivity. }
    rewrite Heq.
    rewrite (rstrip_app_nonempty (c_hash c +:+ String " " (c_subject c)) (String LF R)).
    2:{ rewrite rstrip_cons, Hne. reflexivity. }
    rewrite rstrip_cons, Hne. split.
    + destruct Hh as [Hn _]. destruct (c_hash c); [discriminate Hn | reflexivity].
    + rewrite (split_on_app_sep LF _ (rstrip R) Hline).
      rewrite (commits_of_lines_token (c_hash c) (String " " (c_subject c)) _ Hh).
      2:{ right. eexists _, _. split; reflexivity. }
      rewrite Hrest. reflexivity.
Qed.



(* ===================================================================== *)
(** * The progress display reads the messages of the traversal *)
(* ===================================================================== *)

Lemma pretty_N_char_digit (d : N) :
  (d < 10)%N ->
  isdigit (pretty_N_char d) = true /\ Progress.digit_value (pretty_N_char d) = Z.of_N d.
Proof.
  intros Hd.
  assert (d = 0 \/ d = 1 \/ d = 2 \/ d = 3 \/ d = 4 \/ d = 5 \/ d = 6 \/ d = 7 \/ d = 8
          \/ d = 9)%N as H by lia.
  repeat (destruct H as [-> | H]; [split; reflexivity |]). subst d. split; reflexivity.
Qed.

Lemma pretty_N_go_digits (x : N) (s : string) :
  all_digits s = true -> all_digits (pretty_N_go x s) = true.
Proof.
  revert s. induction (N.lt_wf_0 x) as [x _ IH]. intros s Hs.
  destruct (decide (x = 0)%N) as [-> | Hx]; [rewrite pretty_N_go_0; exact Hs |].
  rewrite pretty_N_go_step by lia. apply IH; [apply N.div_lt; lia |].
  cbn [all_digits]. rewrite Hs, andb_true_r.
  apply pretty_N_char_digit, N.mod_lt. lia.
Qed.

Lemma pretty_N_go_value (x : N) (s : string) :
  Progress.int_unsigned (pretty_N_go x s) =
  if decide (x = 0)%N then Progress.int_unsigned s else Progress.int_digits (Z.of_N x) s.
Proof.
  revert s. induction (N.lt_wf_0 x) as [x _ IH]. intros s.
  destruct (decide (x = 0)%N) as [-> | Hx]; [rewrite pretty_N_go_0; reflexivity |].
  rewrite pretty_N_go_step by lia. rewrite IH by (apply N.div_lt; lia).
  destruct (pretty_N_char_digit (x `mod` 10)%N) as [Hd Hv]; [apply N.mod_lt; lia |].
  assert (Hx10 : (Z.of_N x = 10 * Z.of_N (x `div` 10) + Z.of_N (x `mod` 10))%Z).
  { pose proof (N.div_mod x 10 ltac:(lia)) as Hdm. lia. }
  destruct (decide (x `div` 10 = 0)%N) as [H0 | H0].
  - cbn [Progress.int_unsigned]. rewrite Hd, Hv. rewrite Hx10, H0. reflexivity.
  - cbn [Progress.int_digits]. rewrite Hd, Hv, <- Hx10. reflexivity.
Qed.

Lemma pretty_nat_digits (n : nat) : all_digits (pretty n) = true.
Proof.
  unfold pretty, pretty_nat, pretty, pretty_N.
  destruct (decide (N.of_nat n = 0)%N); [reflexivity |]. apply pretty_N_go_digits. reflexivity.
Qed.

Lemma pretty_nat_value (n : nat) : Progress.int_unsigned (pretty n) = Some (Z.of_nat n).
Proof.
  unfold pretty, pretty_nat, pretty, pretty_N.
  destruct (decide (N.of_nat n = 0)%N) as [H0 | H0].
  - replace n with 0 by lia. reflexivity.
  - rewrite pretty_N_go_value. destruct (decide (N.of_nat n = 0)%N); [contradiction |].
    cbn [Progress.int_digits]. rewrite nat_N_Z. reflexivity.
Qed.

Lemma pretty_nat_nonempty (n : nat) : nonempty (pretty n) = true.
Proof.
  pose proof (pretty_nat_value n) as H. destruct (pretty n); [discriminate H | reflexivity].
Qed.

Lemma isdigit_not_space (c : ascii) : isdigit c = true -> isspace c = false.
Proof.
  unfold isdigit, isspace. cbv zeta. intros H.
  apply andb_true_iff in H as [H1 H2]. apply Nat.leb_le in H1. apply Nat.leb_le in H2.
  apply orb_false_iff. split; apply andb_false_iff; right; apply Nat.leb_gt; lia.
Qed.

Lemma all_digits_no_space (s : string) : all_digits s = true -> no_space s = true.
Proof.
  induction s as [|c s IH]; [reflexivity |]. cbn [all_digits no_space]. intros H.
  apply andb_true_iff in H as [Hc Hs]. rewrite (isdigit_not_space c Hc), (IH Hs). reflexivity.
Qed.

Lemma all_digits_no_char (c : ascii) (s : string) :
  isdigit c = false -> all_digits s = true -> no_char c s = true.
Proof.
  intros Hc. induction s as [|a s IH]; [reflexivity |]. cbn [all_digits no_char]. intros H.
  apply andb_true_iff in H as [Ha Hs]. rewrite (IH Hs), andb_true_r.
  apply negb_true_iff. destruct (Ascii.eqb_spec a c) as [-> |]; [congruence | reflexivity].
Qed.

(** [int] reads back what [str] printed. *)
Lemma int_of_str_pretty (n : nat) : Progress.int_of_str (pretty n) = Some (Z.of_nat n).
Proof.
  pose proof (pretty_nat_digits n) as Hd. pose proof (pretty_nat_value n) as Hv.
  pose proof (pretty_nat_nonempty n) as Hne.
  unfold Progress.int_of_str, strip.
  assert (Hl : lstrip (pretty n) = pretty n).
  { destruct (pretty n) as [|c s]; [reflexivity |]. cbn [all_digits] in Hd.
    apply andb_true_iff in Hd as [Hc _]. cbn [lstrip].
    rewrite (isdigit_not_space c Hc). reflexivity. }
  rewrite Hl, (rstrip_no_space _ (all_digits_no_space _ Hd)).
  destruct (pretty n) as [|c s]; [discriminate Hne |].
  cbn [all_digits] in Hd. apply andb_true_iff in Hd as [Hc _].
  destruct (Ascii.eqb_spec c "+") as [-> |]; [discriminate Hc |].
  destruct (Ascii.eqb_spec c "-") as [-> |]; [discriminate Hc |].
  destruct c as [[] [] [] [] [] [] [] []]; try exact Hv; congruence.
Qed.

Lemma no_space_app (a b : string) :
  no_space a = true -> no_space b = true -> no_space (a +:+ b) = true.
Proof.
  intros Ha Hb. induction a as [|x a IH]; [exact Hb |].
  cbn [no_space] in Ha. apply andb_true_iff in Ha as [Hx Ha].
  rewrite append_cons. cbn [no_space]. rewrite Hx, (IH Ha). reflexivity.
Qed.

Lemma contains_app_r (sub a b : string) : contains sub b = true -> contains sub (a +:+ b) = true.
Proof.
  intros Hb. induction a as [|x a IH]; [exact Hb |].
  rewrite append_cons. cbn [contains]. rewrite IH. apply orb_true_r.
Qed.

Lemma before_cons (sep c : ascii) (s : string) :
  Ascii.eqb c sep = false -> before sep (String c s) = String c (before sep s).
Proof.
  intros Hc. unfold before. cbn [split_on]. rewrite Hc.
  destruct (split_on sep s); reflexivity.
Qed.

Lemma hd_cons_hd (c : ascii) (l : list string) :
  l <> [] -> List.hd "" (Progress.cons_hd c l) = String c (List.hd "" l).
Proof. destruct l; [congruence | reflexivity]. Qed.

Lemma split_str_from_nonempty (sep : string) (skip : nat) (s : string) :
  Progress.split_str_from sep skip s <> [].
Proof.
  revert skip. induction s as [|c s IH]; intros skip; cbn [Progress.split_str_from];
    [congruence |].
  destruct skip; [| apply IH]. destruct (startswith sep _); [congruence |].
  specialize (IH 0). destruct (Progress.split_str_from sep 0 s); [congruence |].
  cbn. congruence.
Qed.

(** The piece before the next separator, cut at the first colon, when
    the text up to that colon has neither a colon nor the first
    character of the separator. *)
Lemma before_colon_piece (p : ascii) (sep' a b : string) :
  no_char p a = true -> no_char ":" a = true -> Ascii.eqb p ":" = false ->
  before ":" (List.hd "" (Progress.split_str_from (String p sep') 0 (a +:+ String ":" b))) = a.
Proof.
  intros Hp Hc Hpc. induction a as [|x a IH].
  - rewrite append_nil. cbn [Progress.split_str_from startswith].
    rewrite Hpc. cbn [andb]. rewrite hd_cons_hd by apply split_str_from_nonempty.
    unfold before. cbn [split_on]. rewrite Ascii.eqb_refl. reflexivity.
  - cbn [no_char] in Hp, Hc.
    apply andb_true_iff in Hp as [Hx Hp]. apply andb_true_iff in Hc as [Hx' Hc].
    apply negb_true_iff in Hx. apply negb_true_iff in Hx'.
    rewrite append_cons. cbn [Progress.split_str_from startswith].
    rewrite (Ascii.eqb_sym p x), Hx. cbn [andb].
    rewrite hd_cons_hd by apply split_str_from_nonempty.
    rewrite before_cons by exact Hx'. rewrite (IH Hp Hc). reflexivity.
Qed.

Lemma startswith_app (p x : string) : startswith p (p +:+ x) = true.
Proof.
  induction p as [|c p IH]; [reflexivity |].
  rewrite append_cons. cbn [startswith]. rewrite Ascii.eqb_refl, IH. reflexivity.
Qed.

Lemma split_str_from_skip (sep a rest : string) :
  Progress.split_str_from sep (String.length a) (a +:+ rest) = Progress.split_str_from sep 0 rest.
Proof.
  induction a as [|c a IH]; [reflexivity |].
  rewrite append_cons. cbn [String.length Progress.split_str_from]. exact IH.
Qed.

(** A string that starts with the separator: the first piece is empty
    and the rest is split after the separator. *)
Lemma split_str_from_sep (p : ascii) (sep' rest : string) :
  Progress.split_str_from (String p sep') 0 (String p sep' +:+ rest) =
  "" :: Progress.split_str_from (String p sep') 0 rest.
Proof.
  pose proof (startswith_app (String p sep') rest) as Hs.
  rewrite append_cons in *. cbn [Progress.split_str_from]. rewrite Hs.
  cbn [String.length Nat.sub]. rewrite Nat.sub_0_r, split_str_from_skip. reflexivity.
Qed.

Lemma strip_counter (a b : string) :
  all_digits a = true -> nonempty a = true -> all_digits b = true ->
  strip (String " " (a +:+ String "/" b)) = a +:+ String "/" b.
Proof.
  intros Ha Hne Hb. unfold strip. cbn [lstrip].
  change (isspace " ") with true. cbv iota.
  rewrite (lstrip_token_app a (String "/" b)) by (split; [exact Hne | apply all_digits_no_space, Ha]).
  apply rstrip_no_space, no_space_app; [apply all_digits_no_space, Ha |].
  cbn [no_space]. rewrite (all_digits_no_space b Hb). reflexivity.
Qed.

(** X6. The window reads the counter of the traversal.  On the message
    that opens the pass of the revision with index [i] out of [total],
    as the traversal words it, the callback of the window logs the
    message, sets its counter to [i + 1] and asks for the progress
    [i + 1] of [total] with the status [commits], whatever the hash is. *)
Theorem X6_progress_reads_counter (total i : nat) (commit_hash : string) (v : Progress.View) :
  Progress.enhanced_progress_callback (processing_msg total i commit_hash) v =
  Progress.update_progress (Z.of_nat (i + 1)) (Z.of_nat total) "commits"
    (Progress.set_commit_count (Z.of_nat (i + 1))
       (Progress.progress_callback (processing_msg total i commit_hash) v)).
Proof.
  unfold Progress.enhanced_progress_callback. cbv zeta.
  set (v1 := Progress.progress_callback _ v).
  set (A := pretty (i + 1)). set (B := pretty total).
  assert (HA : all_digits A = true) by apply pretty_nat_digits.
  assert (HB : all_digits B = true) by apply pretty_nat_digits.
  assert (HAne : nonempty A = true) by apply pretty_nat_nonempty.
  assert (Hmsg : processing_msg total i commit_hash =
                 "Processing commit" +:+
                 (String " " (A +:+ String "/" B) +:+ String ":" (String " " (short commit_hash)))).
  { unfold processing_msg. fold A B. rewrite !append_cons, !append_nil.
    do 18 f_equal. rewrite append_assoc3. reflexivity. }
  rewrite Hmsg. clear Hmsg.
  assert (Hin : contains "Processing commit"
                  ("Processing commit" +:+
                   (String " " (A +:+ String "/" B)
                    +:+ String ":" (String " " (short commit_hash)))) = true).
  { set (rest := String " " _ +:+ _).
    assert (Hs : startswith "Processing commit" ("Processing commit" +:+ rest) = true)
      by apply startswith_app.
    destruct ("Processing commit" +:+ rest); cbn [contains]; rewrite Hs; reflexivity. }
  rewrite Hin.
  assert (Hpiece : List.nth_error
            (Progress.split_str "Processing commit"
               ("Processing commit" +:+
                (String " " (A +:+ String "/" B)
                 +:+ String ":" (String " " (short commit_hash))))) 1
          = Some (List.hd "" (Progress.split_str_from "Processing commit" 0
                    (String " " (A +:+ String "/" B)
                     +:+ String ":" (String " " (short commit_hash)))))).
  { set (rest := String " " _ +:+ _). unfold Progress.split_str.
    rewrite (split_str_from_sep "P" "rocessing commit" rest). cbn [List.nth_error].
    pose proof (split_str_from_nonempty "Processing commit" 0 rest) as Hne.
    destruct (Progress.split_str_from "Processing commit" 0 rest); [congruence | reflexivity]. }
  rewrite Hpiece. clear Hpiece Hin.
  rewrite (before_colon_piece "P" "rocessing commit" (String " " (A +:+ String "/" B))).
  2:{ cbn [no_char]. change (negb (Ascii.eqb " " "P")) with true. cbn [andb].
      apply no_char_app; [apply all_digits_no_char; [reflexivity | exact HA] |].
      cbn [no_char]. rewrite (all_digits_no_char "P" B eq_refl HB). reflexivity. }
  2:{ cbn [no_char]. change (negb (Ascii.eqb " " ":")) with true. cbn [andb].
      apply no_char_app; [apply all_digits_no_char; [reflexivity | exact HA] |].
      cbn [no_char]. rewrite (all_digits_no_char ":" B eq_refl HB). reflexivity. }
  2:{ reflexivity. }
  rewrite (strip_counter A B HA HAne HB).
  assert (Hslash : contains "/" (A +:+ String "/" B) = true).
  { apply contains_app_r. cbn [contains startswith]. rewrite Ascii.eqb_refl. reflexivity. }
  rewrite Hslash.
  rewrite (split_on_app_sep "/" A B (all_digits_no_char "/" A eq_refl HA)).
  rewrite (split_on_no_char "/" B (all_digits_no_char "/" B eq_refl HB)).
  unfold A, B. rewrite !int_of_str_pretty. reflexivity.
Qed.

(* ===================================================================== *)
(** * The branches of [_parse] *)
(* ===================================================================== *)

Lemma startswith_inv (q s : string) : startswith q s = true -> exists r, s = q +:+ r.
Proof.
  revert s. induction q as [|c q IH]; intros s H; [exists s; reflexivity |].
  destruct s as [|a s]; [discriminate H |]. cbn [startswith] in H.
  apply andb_true_iff in H as [Hc Hq]. apply Ascii.eqb_eq in Hc as ->.
  destruct (IH s Hq) as (r & ->). exists r. reflexivity.
Qed.

Lemma contains_of_startswith (sub s : string) : startswith sub s = true -> contains sub s = true.
Proof. intros H. destruct s; cbn [contains]; rewrite H; reflexivity. Qed.

Lemma contains_cons (sub : string) (c : ascii) (s : string) :
  contains sub s = true -> contains sub (String c s) = true.
Proof. intros H. cbn [contains]. rewrite H. apply orb_true_r. Qed.

(** A string that contains [p +:+ q] contains [q]. *)
Lemma contains_suffix (p q s : string) : contains (p +:+ q) s = true -> contains q s = true.
Proof.
  assert (Hstart : forall s, startswith (p +:+ q) s = true -> contains q s = true).
  { intros s0 H. apply startswith_inv in H as (r & ->). rewrite append_assoc3.
    apply contains_app_r, contains_of_startswith, startswith_app. }
  induction s as [|c s IH]; cbn [contains]; intros H.
  - apply orb_true_iff in H as [H | H]; [| discriminate H]. apply (Hstart "" H).
  - apply orb_true_iff in H as [H | H]; [apply (Hstart _ H) |].
    apply contains_cons, IH, H.
Qed.

(** X7. A line that names [target_include_directories] contains
    [include_directories], so the first branch of the chain takes it:
    the line is handled by [_parse_include_directories], and the branch
    that calls [_parse_target_include_directories] is never reached. *)
Theorem X7_target_include_branch_unreached (fs : gset path) (source_dir : path)
    (line : string) (following : list string) (st : CMake.Settings) :
  contains "target_include_directories" (lower line) = true ->
  CMake.dispatch fs source_dir line following st =
  CMake._parse_include_directories fs source_dir line st.
Proof.
  intros H. unfold CMake.dispatch.
  rewrite (contains_suffix "target_" "include_directories" (lower line) H). reflexivity.
Qed.

Lemma X7_target_include_branch_unreached_witness :
  CMake.dispatch CMakeSample.fs ["proj"] "Target_Include_Directories(app PRIVATE src)" []
    CMake.initial_settings =
  CMake._parse_include_directories CMakeSample.fs ["proj"]
    "Target_Include_Directories(app PRIVATE src)" CMake.initial_settings.
Proof.
  apply (X7_target_include_branch_unreached CMakeSample.fs ["proj"]
           "Target_Include_Directories(app PRIVATE src)" [] CMake.initial_settings).
  vm_compute. reflexivity.
Defined.

(** On that line the name of the target and the scope keyword are looked
    up as directories, like the directory itself. *)
Example target_name_taken_as_directory :
  CMake.include_dirs
    (CMake.dispatch {[ ["proj"; "app"]; ["proj"; "PRIVATE"]; ["proj"; "src"] ]} ["proj"]
       "target_include_directories(app PRIVATE src)" [] CMake.initial_settings)
  = ["/proj/app"; "/proj/PRIVATE"; "/proj/src"].
Proof. vm_compute. reflexivity. Qed.

(* ===================================================================== *)
(** * What every parse keeps *)
(* ===================================================================== *)




Section ParseInvariant.
Import CMake.
Context (fs : gset path) (source_dir : path) (P : Settings -> Prop).
Context (P_inc : forall arg st, exists_ fs (_resolve_path source_dir arg) = true -> P st ->
                   P (append_include_dir (path_str (_resolve_path source_dir arg)) st)).
Context (P_file : forall key arg st, exists_ fs (_resolve_path source_dir arg) = true -> P st ->
                    P (append_file key (path_str (_resolve_path source_dir arg)) st)).
Context (P_def : forall arg st, P st -> P (append_definition (definition_name arg) st)).
Context (P_std : forall v st, nonempty v = true -> all_digits v = true -> P st ->
                              P (set_cxx_standard v st)).







End ParseInvariant.








(* ===================================================================== *)
(** * The compile arguments *)
(* ===================================================================== *)

Section SearchList.
Import CMakeArgs.
Context (os_path_exists : string -> bool).

Lemma scan_search_list_entries (lines all : list string) (flag : bool) (acc : list string) :
  (forall line, line ∈ lines -> line ∈ all) ->
  Forall (fun p => os_path_exists p = true /\ search_list_entry all p) acc ->
  Forall (fun p => os_path_exists p = true /\ search_list_entry all p)
    (scan_search_list os_path_exists lines flag acc).
Proof.
  revert flag acc. induction lines as [|line rest IH]; intros flag acc Hsub Hacc;
    cbn [scan_search_list]; [exact Hacc |].
  assert (Hrest : forall l, l ∈ rest -> l ∈ all).
  { intros l Hl. apply Hsub. right. exact Hl. }
  destruct (_ || _); [apply IH; assumption |].
  destruct ((flag && startswith "/" (strip line)) || startswith "C:" (strip line)) eqn:Hcond;
    [| apply IH; assumption].
  destruct (os_path_exists (strip line)) eqn:Hex; [| apply IH; assumption].
  apply IH; [exact Hrest |]. apply Forall_app. split; [exact Hacc |].
  apply Forall_cons. split; [| apply Forall_nil_2]. split; [exact Hex |].
  exists line. split; [apply Hsub; left |]. split; [reflexivity |].
  apply orb_true_iff in Hcond as [H | H]; [left | right; exact H].
  apply andb_true_iff in H as [_ H]. exact H.
Qed.

End SearchList.


(** X10. The standard include paths.  Every path
    [_find_standard_include_paths] returns exists, and is a line of the
    standard error of the compiler, stripped, that starts with [/] or
    with [C:]; when the compiler cannot be run the list is empty. *)
Theorem X10_standard_include_paths_exist (os_path_exists : string -> bool)
    (clang : outcome string) :
  match clang with
  | Ret stderr =>
      Forall (fun p => os_path_exists p = true /\
                       search_list_entry (split_on LF stderr) p)
        (CMakeArgs._find_standard_include_paths os_path_exists clang)
  | Raise _ => CMakeArgs._find_standard_include_paths os_path_exists clang = []
  end.
Proof.
  destruct clang as [stderr|e]; [| reflexivity].
  unfold CMakeArgs._find_standard_include_paths.
  apply scan_search_list_entries; [intros line H; exact H | apply Forall_nil_2].
Qed.

(** The end of the search list sets the flag again: an absolute path on a
    later line is taken as well. *)
Example line_after_end_marker_taken :
  CMakeArgs._find_standard_include_paths (fun _ => true)
    (Ret (join (String LF "")
            [ "/before/the/list";
              "#include <...> search starts here:";
              " /usr/include";
              "End of search list.";
              "/usr/bin/ld" ]))
  = ["/usr/include"; "/usr/bin/ld"].
Proof. vm_compute. reflexivity. Qed.

(** X11. Without a descriptor.  When the file [CMakeLists.txt] does not
    exist, the compile arguments are the default standard [c++17], the
    standard include paths, the directory of the source file and the
    directory the descriptor would be in, and no definition. *)
Theorem X11_compile_args_without_descriptor (os_path_exists : string -> bool)
    (clang : outcome string) (fs : gset path) (read_text : path -> outcome string)
    (cmake source_file : path) :
  cmake ∉ fs ->
  CMakeArgs.parse_cmake_for_analysis os_path_exists clang fs read_text cmake source_file =
  Ret ("-std=c++17" ::
       List.map (fun p => "-I" +:+ p)
         (CMakeArgs._find_standard_include_paths os_path_exists clang) ++
       ["-I" +:+ path_str (parent source_file); "-I" +:+ path_str (parent cmake)]).
Proof.
  intros Hno. unfold CMakeArgs.parse_cmake_for_analysis, CMake.CMakeParser_init, CMake.exists_.
  rewrite bool_decide_eq_false_2 by exact Hno.
  unfold CMakeArgs.get_compile_args. cbn [CMake.settings CMake.source_dir
    CMake.initial_settings CMake.cxx_standard CMake.include_dirs CMake.definitions List.map].
  rewrite !app_nil_r, <- !app_assoc. reflexivity.
Qed.

Lemma X11_compile_args_without_descriptor_witness :
  CMakeArgs.parse_cmake_for_analysis (fun _ => true)
    (Raise (PyError "FileNotFoundError" "clang++")) CMakeSample.fs CMakeSample.read_text
    ["elsewhere"; "CMakeLists.txt"] ["proj"; "src"; "main.cpp"] =
  Ret ["-std=c++17"; "-I/proj/src"; "-I/elsewhere"].
Proof.
  apply (X11_compile_args_without_descriptor (fun _ => true)
           (Raise (PyError "FileNotFoundError" "clang++")) CMakeSample.fs CMakeSample.read_text
           ["elsewhere"; "CMakeLists.txt"] ["proj"; "src"; "main.cpp"]).
  vm_compute. intros H. discriminate H.
Defined.



(* ===================================================================== *)
(** * Comments and blank lines *)
(* ===================================================================== *)

Lemma passed_over_file_line (raw : string) :
  passed_over raw = true ->
  startswith ")" (strip raw) = false /\
  nonempty (strip raw) && negb (startswith "#" (strip raw)) = false.
Proof.
  unfold passed_over. intros H. apply orb_true_iff in H as [H | H].
  - apply negb_true_iff in H. rewrite H. apply nonempty_false in H. rewrite H.
    split; reflexivity.
  - rewrite H. split; [| apply andb_false_r].
    destruct (strip raw) as [|c s]; [reflexivity |]. cbn [startswith] in *.
    apply andb_true_iff in H as [Hc _]. apply Ascii.eqb_eq in Hc as <-. reflexivity.
Qed.

Section Comments.
Import CMake.
Context (fs : gset path) (source_dir : path) (raw : string) (Hraw : passed_over raw = true).

Lemma file_list_passes_over (before after : list string) key st :
  _parse_file_list fs source_dir (before ++ raw :: after) key st =
  _parse_file_list fs source_dir (before ++ after) key st.
Proof.
  revert st. induction before as [|x before IH]; intros st.
  - cbn [app _parse_file_list]. destruct (passed_over_file_line raw Hraw) as [-> ->].
    reflexivity.
  - cbn [app _parse_file_list]. destruct (startswith ")" _); [reflexivity |].
    destruct (_ && _); apply IH.
Qed.

Lemma dispatch_passes_over line (before after : list string) st :
  dispatch fs source_dir line (before ++ raw :: after) st =
  dispatch fs source_dir line (before ++ after) st.
Proof. unfold dispatch. rewrite !file_list_passes_over. reflexivity. Qed.

Lemma parse_lines_passes_over (before after : list string) st :
  parse_lines fs source_dir (before ++ raw :: after) st =
  parse_lines fs source_dir (before ++ after) st.
Proof.
  revert st. induction before as [|x before IH]; intros st.
  - cbn [app parse_lines]. unfold passed_over in Hraw. rewrite Hraw. reflexivity.
  - cbn [app parse_lines]. destruct (_ || _); [apply IH |].
    rewrite dispatch_passes_over. apply IH.
Qed.

End Comments.

(** X13. Comments and blank lines do not count.  A line that is empty
    once stripped, or that starts with [#], can be put anywhere among
    the lines of a descriptor, inside a list of files as well, without
    changing the settings that are parsed. *)
Theorem X13_comment_lines_ignored (fs : gset path) (source_dir : path) (raw : string)
    (before after : list string) (st : CMake.Settings) :
  passed_over raw = true ->
  CMake.parse_lines fs source_dir (before ++ raw :: after) st =
  CMake.parse_lines fs source_dir (before ++ after) st.
Proof. intros Hraw. apply parse_lines_passes_over, Hraw. Qed.

Lemma X13_comment_lines_ignored_witness :
  CMake.parse_lines CMakeSample.fs ["proj"]
    (List.firstn 7 CMakeSample.lines ++ "  # not a file" :: List.skipn 7 CMakeSample.lines)
    CMake.initial_settings =
  CMake.parse_lines CMakeSample.fs ["proj"]
    (List.firstn 7 CMakeSample.lines ++ List.skipn 7 CMakeSample.lines)
    CMake.initial_settings.
Proof.
  apply (X13_comment_lines_ignored CMakeSample.fs ["proj"] "  # not a file"
           (List.firstn 7 CMakeSample.lines) (List.skipn 7 CMakeSample.lines)
           CMake.initial_settings).
  vm_compute. reflexivity.
Defined.

(* ===================================================================== *)
(** * The list of files of the window *)
(* ===================================================================== *)

Section FileListProofs.
Import FileList.
Context (cwd repo_path : path).


End FileListProofs.


(** [add_file] does not look at the list: the same file can be added
    twice. *)
Example add_file_repeats :
  let win := FileList.mkWindow ["/repo/a.py"] [] [] in
  FileList.files_listbox (FileList.add_file ["home"] ["repo"] true "/repo/a.py" win).2
  = ["/repo/a.py"; "/repo/a.py"] /\
  FileList.files_listbox (FileList.add_files ["home"] ["repo"] true ["/repo/a.py"] win).2
  = ["/repo/a.py"].
Proof. vm_compute. split; reflexivity. Qed.

(* ===================================================================== *)
(** * The files of a descriptor *)
(* ===================================================================== *)


Lemma split_on_join_ok (l : list string) :
  Forall part_ok l -> l <> [] -> split_on "/" (join "/" l) = l.
Proof.
  intros Hl. apply split_on_join. eapply Forall_impl; [exact Hl |]. intros c [_ H]. exact H.
Qed.

Lemma filter_ok (l : list string) :
  Forall part_ok l -> List.filter (fun c => negb (is_dot_or_empty c)) l = l.
Proof.
  induction 1 as [|c l [Hc _] _ IH]; [reflexivity |]. cbn. rewrite Hc, IH. reflexivity.
Qed.

(** [Path(str(p))] is [p]. *)
Lemma Path_path_str (p : path) : Forall part_ok p -> Path (path_str p) = p.
Proof.
  intros Hp. unfold Path, parse_parts, path_str.
  change ("/" +:+ join "/" p) with (String "/" (join "/" p)).
  cbn [split_on]. rewrite Ascii.eqb_refl. cbn [List.filter is_dot_or_empty].
  change (String.eqb "" "" || String.eqb "" ".") with true. cbn [negb].
  destruct p as [|x p]; [reflexivity |].
  rewrite split_on_join_ok by (assumption || congruence). apply filter_ok, Hp.
Qed.




(* ===================================================================== *)
(** * Variable references in paths *)
(* ===================================================================== *)

Lemma startswith_dollar (old' s : string) :
  no_char "$" s = true -> startswith (String "$" old') s = false.
Proof.
  destruct s as [|c s]; [reflexivity |]. cbn [no_char startswith]. intros H.
  apply andb_true_iff in H as [Hc _]. apply negb_true_iff in Hc.
  rewrite Ascii.eqb_sym, Hc. reflexivity.
Qed.

Lemma replace_fuel_none (fuel : nat) (old' new s : string) :
  no_char "$" s = true -> replace_fuel fuel (String "$" old') new s = s.
Proof.
  revert s. induction fuel as [|fuel IH]; intros s Hs; [reflexivity |].
  destruct s as [|c s]; [reflexivity |]. cbn [replace_fuel].
  rewrite (startswith_dollar old' _ Hs). cbn [no_char] in Hs.
  apply andb_true_iff in Hs as [_ Hs]. rewrite (IH s Hs). reflexivity.
Qed.

Lemma replace_none (old' new s : string) :
  no_char "$" s = true -> PyStr.replace (String "$" old') new s = s.
Proof. apply replace_fuel_none. Qed.

Lemma drop_app (a r : string) : PyStr.drop (String.length a) (a +:+ r) = r.
Proof. induction a as [|c a IH]; [destruct r; reflexivity |]. rewrite append_cons. exact IH. Qed.

(** A reference at the start of the string is replaced. *)
Lemma replace_prefix (old' new r : string) :
  no_char "$" r = true ->
  PyStr.replace (String "$" old') new (String "$" old' +:+ r) = new +:+ r.
Proof.
  intros Hr. unfold PyStr.replace.
  assert (Hlen : String.length (String "$" old' +:+ r) = S (String.length (old' +:+ r)))
    by reflexivity.
  rewrite Hlen. clear Hlen.
  assert (Hstep : forall fuel,
            replace_fuel (S fuel) (String "$" old') new (String "$" old' +:+ r)
            = new +:+ replace_fuel fuel (String "$" old') new
                        (PyStr.drop (String.length (String "$" old')) (String "$" old' +:+ r))).
  { intros fuel. pose proof (startswith_app (String "$" old') r) as Hs.
    rewrite append_cons in *. cbn [replace_fuel]. rewrite Hs. reflexivity. }
  rewrite Hstep, drop_app, replace_fuel_none by exact Hr. reflexivity.
Qed.

Lemma mismatch_startswith (p a x : string) :
  mismatch p a = true -> startswith p (a +:+ x) = false.
Proof.
  revert a. induction p as [|c p IH]; intros a H; [discriminate H |].
  destruct a as [|d a]; [discriminate H |]. rewrite append_cons. cbn [mismatch startswith] in *.
  destruct (Ascii.eqb c d); [cbn [andb]; apply IH, H | reflexivity].
Qed.

(** Another reference at the start of the string is left alone. *)
Lemma replace_other (old' new a' r : string) :
  mismatch (String "$" old') (String "$" a') = true ->
  no_char "$" (a' +:+ r) = true ->
  PyStr.replace (String "$" old') new (String "$" a' +:+ r) = String "$" a' +:+ r.
Proof.
  intros Hm Hr. unfold PyStr.replace.
  pose proof (mismatch_startswith _ _ r Hm) as Hs.
  rewrite append_cons in *. cbn [String.length replace_fuel]. rewrite Hs.
  rewrite replace_fuel_none by exact Hr. reflexivity.
Qed.

Lemma no_char_join (c : ascii) (l : list string) :
  Ascii.eqb "/" c = false -> Forall (fun x => no_char c x = true) l ->
  no_char c (join "/" l) = true.
Proof.
  intros Hc. induction 1 as [|x l Hx Hl IH]; [reflexivity |].
  destruct l as [|y l]; [exact Hx |].
  change (join "/" (x :: y :: l)) with (x +:+ String "/" (join "/" (y :: l))).
  apply no_char_app; [exact Hx |]. cbn [no_char]. rewrite Hc. exact IH.
Qed.

Lemma join_app (a b : list string) :
  a <> [] -> b <> [] -> join "/" (a ++ b) = join "/" a +:+ String "/" (join "/" b).
Proof.
  intros Ha Hb. induction a as [|x a IH]; [congruence |].
  destruct a as [|y a].
  - destruct b as [|z b]; [congruence | reflexivity].
  - change (join "/" ((x :: y :: a) ++ b)) with (x +:+ String "/" (join "/" ((y :: a) ++ b))).
    rewrite IH by congruence.
    change (join "/" (x :: y :: a)) with (x +:+ String "/" (join "/" (y :: a))).
    rewrite !append_assoc3. reflexivity.
Qed.

Section Variables.
Context (source_dir comps : path).
Context (Hdir : Forall plain source_dir) (Hdir_ne : source_dir <> []).
Context (Hcomps : Forall plain comps) (Hcomps_ne : comps <> []).

Lemma plain_ok (l : list string) : Forall plain l -> Forall part_ok l.
Proof. intros H. eapply Forall_impl; [exact H |]. intros c [Hc _]. exact Hc. Qed.

Lemma plain_no_dollar (l : list string) : Forall plain l -> no_char "$" (join "/" l) = true.
Proof.
  intros H. apply no_char_join; [reflexivity |].
  eapply Forall_impl; [exact H |]. intros c [_ Hc]. exact Hc.
Qed.

Lemma dir_no_dollar : no_char "$" (path_str source_dir) = true.
Proof. unfold path_str. apply no_char_app; [reflexivity | apply plain_no_dollar, Hdir]. Qed.

Lemma resolved_no_dollar :
  no_char "$" (path_str source_dir +:+ String "/" (join "/" comps)) = true.
Proof.
  apply no_char_app; [apply dir_no_dollar |]. cbn [no_char].
  rewrite (plain_no_dollar comps Hcomps). reflexivity.
Qed.

Lemma tail_no_dollar : no_char "$" (String "/" (join "/" comps)) = true.
Proof. cbn [no_char]. rewrite (plain_no_dollar comps Hcomps). reflexivity. Qed.

Lemma Path_resolved :
  Path (path_str source_dir +:+ String "/" (join "/" comps)) = source_dir ++ comps.
Proof.
  unfold path_str at 1. rewrite append_assoc3, <- join_app by assumption.
  apply (Path_path_str (source_dir ++ comps)), Forall_app. split; apply plain_ok; assumption.
Qed.

Lemma isabs_resolved : isabs (path_str source_dir +:+ String "/" (join "/" comps)) = true.
Proof. reflexivity. Qed.

Lemma isabs_relative : isabs (join "/" comps) = false.
Proof.
  destruct comps as [|x l]; [congruence |].
  apply Forall_cons in Hcomps as [[[Hx Hs] _] _].
  destruct x as [|a x]; [discriminate Hx |].
  cbn [no_char] in Hs. apply andb_true_iff in Hs as [Ha _]. apply negb_true_iff in Ha.
  unfold isabs. destruct l as [|y l]; cbn [join].
  - cbn [startswith]. rewrite Ascii.eqb_sym, Ha. reflexivity.
  - rewrite append_cons. cbn [startswith]. rewrite Ascii.eqb_sym, Ha. reflexivity.
Qed.

Lemma resolve_relative : CMake._resolve_path source_dir (join "/" comps) = source_dir ++ comps.
Proof.
  unfold CMake._resolve_path.
  pose proof (plain_no_dollar comps Hcomps) as Hx.
  rewrite (replace_none "{CMAKE_SOURCE_DIR}" _ _ Hx).
  rewrite (replace_none "{CMAKE_CURRENT_SOURCE_DIR}" _ _ Hx).
  rewrite (replace_none "{CMAKE_CURRENT_LIST_DIR}" _ _ Hx).
  rewrite isabs_relative. unfold joinpath. rewrite isabs_relative.
  assert (Hpp : parse_parts (join "/" comps) = comps).
  { unfold parse_parts. rewrite split_on_join_ok by (try apply plain_ok; assumption).
    apply filter_ok, plain_ok, Hcomps. }
  rewrite Hpp. apply Path_path_str, Forall_app. split; apply plain_ok; assumption.
Qed.

Lemma resolve_variable (v : string) :
  v ∈ cmake_variables ->
  CMake._resolve_path source_dir (v +:+ String "/" (join "/" comps)) = source_dir ++ comps.
Proof.
  intros Hv. unfold cmake_variables in Hv.
  pose proof tail_no_dollar as Ht. pose proof resolved_no_dollar as Hr.
  unfold CMake._resolve_path.
  apply elem_of_cons in Hv as [-> | Hv]; [| apply elem_of_cons in Hv as [-> | Hv];
    [| apply elem_of_cons in Hv as [-> | Hv]; [| inversion Hv]]].
  - rewrite (replace_prefix "{CMAKE_SOURCE_DIR}" _ _ Ht).
    rewrite (replace_none "{CMAKE_CURRENT_SOURCE_DIR}" _ _ Hr).
    rewrite (replace_none "{CMAKE_CURRENT_LIST_DIR}" _ _ Hr).
    rewrite isabs_resolved. apply Path_resolved.
  - rewrite (replace_other "{CMAKE_SOURCE_DIR}" _ "{CMAKE_CURRENT_SOURCE_DIR}")
      by (reflexivity || (apply no_char_app; [reflexivity | exact Ht])).
    rewrite (replace_prefix "{CMAKE_CURRENT_SOURCE_DIR}" _ _ Ht).
    rewrite (replace_none "{CMAKE_CURRENT_LIST_DIR}" _ _ Hr).
    rewrite isabs_resolved. apply Path_resolved.
  - rewrite (replace_other "{CMAKE_SOURCE_DIR}" _ "{CMAKE_CURRENT_LIST_DIR}")
      by (reflexivity || (apply no_char_app; [reflexivity | exact Ht])).
    rewrite (replace_other "{CMAKE_CURRENT_SOURCE_DIR}" _ "{CMAKE_CURRENT_LIST_DIR}")
      by (reflexivity || (apply no_char_app; [reflexivity | exact Ht])).
    rewrite (replace_prefix "{CMAKE_CURRENT_LIST_DIR}" _ _ Ht).
    rewrite isabs_resolved. apply Path_resolved.
Qed.

End Variables.

(** X16. References to the source directory.  An argument made of one of
    the three variable references, a slash and a relative path resolves
    to that relative path below the source directory, the same path the
    relative path alone resolves to.  The components are plain: kept by
    [pathlib] and without a dollar sign. *)
Theorem X16_variable_resolves_to_source_dir (source_dir comps : path) (v : string) :
  Forall plain source_dir -> source_dir <> [] -> Forall plain comps -> comps <> [] ->
  v ∈ cmake_variables ->
  CMake._resolve_path source_dir (v +:+ "/" +:+ join "/" comps) = source_dir ++ comps /\
  CMake._resolve_path source_dir (join "/" comps) = source_dir ++ comps.
Proof.
  intros Hdir Hne Hcomps Hcne Hv. split.
  - apply (resolve_variable source_dir comps Hdir Hne Hcomps Hcne v Hv).
  - apply (resolve_relative source_dir comps Hdir Hcomps Hcne).
Qed.

Lemma X16_variable_resolves_to_source_dir_witness :
  CMake._resolve_path ["proj"] ("${CMAKE_CURRENT_LIST_DIR}" +:+ "/" +:+ join "/" ["include"; "app.h"])
  = ["proj"; "include"; "app.h"] /\
  CMake._resolve_path ["proj"] (join "/" ["include"; "app.h"]) = ["proj"; "include"; "app.h"].
Proof.
  apply (X16_variable_resolves_to_source_dir ["proj"] ["include"; "app.h"]
           "${CMAKE_CURRENT_LIST_DIR}").
  - repeat (apply Forall_cons; split; [repeat split |]); apply Forall_nil_2.
  - discriminate.
  - repeat (apply Forall_cons; split; [repeat split |]); apply Forall_nil_2.
  - discriminate.
  - unfold cmake_variables. right. right. left.
Defined.

(* ===================================================================== *)
(** * How the window shows a failure *)
(* ===================================================================== *)

Lemma lower_app (a b : string) : lower (a +:+ b) = lower a +:+ lower b.
Proof.
  induction a as [|c a IH]; [reflexivity |].
  rewrite append_cons. cbn [lower]. rewrite IH. reflexivity.
Qed.

Lemma log_level_error (message : string) :
  contains "error" (lower message) = true -> log_level message "normal" = "error".
Proof.
  intros H. unfold log_level. change (String.eqb "normal" "normal") with true.
  cbv iota zeta. rewrite H. reflexivity.
Qed.

(** X17. A failure of the analysis is shown as an error.  The note a pass
    sends through the progress callback when the analysis raises is
    logged by the window, which is given no level for it, with the tag
    [error], whatever the hash and the text of the exception are. *)
Theorem X17_analysis_failure_tagged_error (commit_hash : string) (e : exn) :
  log_level (analysis_error_note commit_hash e) "normal" = "error".
Proof.
  apply log_level_error. unfold analysis_error_note.
  rewrite lower_app.
  change (lower "Error during analysis for commit ")
    with ("error" +:+ " during analysis for commit ").
  rewrite append_assoc3. apply contains_of_startswith, startswith_app.
Qed.

(* ===================================================================== *)
(** * Nothing to look up *)
(* ===================================================================== *)

Section NothingAccepted.
Context (E : Env) (self : SafeGitHistoryAnalyzer).


Lemma no_lookups target_files commit_hash :
  Forall (fun f => ¬ accepted (cwd E) (repo_path self) f) target_files ->
  omap (fetch_of E self commit_hash) target_files = [].
Proof.
  induction 1 as [|f l Hf _ IH]; [reflexivity |].
  rewrite omap_cons_eq, IH. unfold fetch_of.
  destruct (relpath _ _ _) as [rel|] eqn:Hrel; [| reflexivity].
  destruct (startswith ".." rel) eqn:Hdd; [reflexivity |].
  exfalso. apply Hf. exists rel. split; assumption.
Qed.

Lemma materialize_nothing target_files temp_dir commit_hash temp_files w :
  Forall (fun f => ¬ accepted (cwd E) (repo_path self) f) target_files ->
  exists o, materialize E self temp_dir commit_hash target_files temp_files w = (o, w) /\
            forall tf, o = Ret tf -> tf = temp_files.
Proof.
  induction 1 as [|f l Hf _ IH]; cbn [materialize].
  - exists (Ret temp_files). split; [reflexivity |]. intros tf [= <-]. reflexivity.
  - destruct (relpath _ _ _) as [rel|] eqn:Hrel.
    + destruct (startswith ".." rel) eqn:Hdd; [exact IH |].
      exfalso. apply Hf. exists rel. split; assumption.
    + eexists. split; [reflexivity |]. intros tf Htf. discriminate Htf.
Qed.

Lemma pass_nothing target_files commit_hash cb w :
  Forall (fun f => ¬ accepted (cwd E) (repo_path self) f) target_files ->
  exists w', analyze_commit_safely E self commit_hash target_files cb w = (Ret PyNone, w') /\
             w_cmds w' = w_cmds w.
Proof.
  intros Hnone.
  destruct (pass_cmds E self commit_hash target_files cb w) as (issued & Hc & Hp).
  rewrite (no_lookups target_files commit_hash Hnone) in Hp. apply prefix_nil_inv in Hp. subst issued.
  rewrite app_nil_r in Hc.
  assert (Hres : exists w', analyze_commit_safely E self commit_hash target_files cb w
                            = (Ret PyNone, w')).
  { unfold analyze_commit_safely. rewrite bind_eq. unfold notify at 1.
    destruct (mkdtemp E _ _) as [[d|e] w1].
    - unfold finally, catch, try_body. rewrite bind_eq.
      destruct (materialize_nothing target_files d commit_hash [] w1 Hnone) as (o & -> & Ho).
      destruct (cleanup_log E (Some d)) with (w := w1) as (wc & Hcl & _).
      destruct o as [tf|e].
      + rewrite (Ho tf eq_refl). unfold bind, notify, ret.
        destruct (cleanup_log E (Some d)
                    (if cb then add_progress ("No files found in commit " +:+ short commit_hash) w1
                     else w1)) as (wc' & -> & _).
        eexists. reflexivity.
      + rewrite on_error_eq.
        destruct (cleanup_log E (Some d)
                    (add_stderr (traceback_line e) (add_stderr (error_line commit_hash e) w1)))
          as (wc' & -> & _).
        eexists. reflexivity.
    - unfold finally. rewrite on_error_eq. cbn [cleanup ret]. eexists. reflexivity. }
  destruct Hres as (w' & Hres). exists w'. split; [exact Hres |].
  rewrite Hres in Hc. exact Hc.
Qed.

Lemma for_commits_nothing target_files cb total i commits results w :
  Forall (fun f => ¬ accepted (cwd E) (repo_path self) f) target_files ->
  exists w', for_commits E self target_files cb total i commits results w = (Ret results, w') /\
             w_cmds w' = w_cmds w.
Proof.
  intros Hnone. revert i w. induction commits as [|c rest IH]; intros i w; cbn [for_commits].
  - exists w. split; reflexivity.
  - rewrite bind_eq. unfold notify at 1.
    set (w0 := if cb then add_progress _ w else w).
    assert (H0 : w_cmds w0 = w_cmds w) by (subst w0; destruct cb; reflexivity).
    rewrite bind_eq. destruct (pass_nothing target_files c cb w0 Hnone) as (w1 & -> & H1).
    rewrite bind_eq, store_result_eq. change (meaningful PyNone) with false. cbv iota.
    rewrite andb_false_r.
    destruct (IH (S i) w1) as (w' & -> & H'). exists w'. split; [reflexivity |].
    rewrite H', H1, H0. reflexivity.
Qed.

End NothingAccepted.

(** X18. Nothing to look up.  When no target file is accepted, the list
    being empty or every file lying outside the repository, a traversal
    runs [git log] and nothing else, and the map it returns is empty. *)
Theorem X18_no_accepted_file_no_result (E : Env) (self : SafeGitHistoryAnalyzer)
    (target_files : list string) (progress_callback : bool) (w : World) :
  Forall (fun f => ¬ accepted (cwd E) (repo_path self) f) target_files ->
  let '(o, w') := analyze_all_commits E self target_files progress_callback w in
  w_cmds w' = w_cmds w ++ [log_argv] /\
  forall final, o = Ret final -> final = ∅.
Proof.
  intros Hnone. unfold analyze_all_commits, subprocess_run. fold log_argv.
  destruct (git E log_argv (w_repo w)) as [[stdout|[rc cmd|cls msg]] r].
  - destruct (commits_of_lines _) as [commits|e].
    + destruct (for_commits_nothing E self target_files progress_callback
                  (length commits) 0 commits ∅ (set_repo r (add_cmd log_argv w)) Hnone)
        as (w' & -> & Hc).
      split; [exact Hc |]. intros final [= <-]. reflexivity.
    + split; [reflexivity |]. intros final H. discriminate H.
  - split; [reflexivity |]. intros final [= <-]. reflexivity.
  - split; [reflexivity |]. intros final H. discriminate H.
Qed.

Lemma X18_no_accepted_file_no_result_witness :
  let '(o, w') := analyze_all_commits Sample.env Sample.analyzer ["/etc/passwd"] true
                    Sample.world0 in
  w_cmds w' = w_cmds Sample.world0 ++ [log_argv] /\
  forall final, o = Ret final -> final = ∅.
Proof.
  apply (X18_no_accepted_file_no_result Sample.env Sample.analyzer ["/etc/passwd"] true
           Sample.world0).
  apply Forall_cons. split; [| apply Forall_nil_2].
  intros (rel & Hrel & Hdd). vm_compute in Hrel. injection Hrel as <-.
  vm_compute in Hdd. discriminate Hdd.
Defined.

(* ===================================================================== *)
(** * Without the analysis module *)
(* ===================================================================== *)

Section NoModule.
Context (E : Env) (Hcap : run_complete_dataflow_analysis E = None).

Lemma pass_result_none v : pass_result E v -> v = PyNone.
Proof.
  intros [Hv | (f & tf & files & d0 & Hf & _)]; [exact Hv |].
  rewrite Hcap in Hf. discriminate Hf.
Qed.

Lemma for_commits_no_module self target_files cb total i commits results w :
  exists w', for_commits E self target_files cb total i commits results w = (Ret results, w').
Proof.
  revert i w. induction commits as [|c rest IH]; intros i w; cbn [for_commits].
  - exists w. reflexivity.
  - rewrite bind_eq. unfold notify at 1. rewrite bind_eq.
    set (w0 := if cb then add_progress _ w else w).
    destruct (total_inv _ w0 (total_analyze_commit_safely E self c target_files cb))
      as (v & w1 & Hpass).
    rewrite Hpass.
    rewrite (pass_result_none v (returns_analyze_commit_safely E self c target_files cb
                                   w0 v w1 Hpass)).
    rewrite bind_eq, store_result_eq. change (meaningful PyNone) with false. cbv iota.
    apply IH.
Qed.

End NoModule.

(** X19. Without the analysis module.  When the analysis could not be
    imported, a traversal still enumerates the revisions and runs their
    passes, and the map it returns is empty: it returns the empty map
    whenever [git log] returns or exits with an error status, and raises
    what [git log] raises otherwise. *)
Theorem X19_no_module_no_result (E : Env) (self : SafeGitHistoryAnalyzer)
    (target_files : list string) (progress_callback : bool) (w : World) :
  run_complete_dataflow_analysis E = None ->
  match git E log_argv (w_repo w) with
  | (Raise (PyError cls msg), _) =>
      (analyze_all_commits E self target_files progress_callback w).1 = Raise (PyError cls msg)
  | _ => (analyze_all_commits E self target_files progress_callback w).1 = Ret ∅
  end.
Proof.
  intros Hcap. unfold analyze_all_commits, subprocess_run. fold log_argv.
  destruct (git E log_argv (w_repo w)) as [[stdout|[rc cmd|cls msg]] r]; [| reflexivity..].
  destruct (commits_of_lines_total (split_on LF (strip stdout))) as [commits ->].
  destruct (for_commits_no_module E Hcap self target_files progress_callback
              (length commits) 0 commits ∅ (set_repo r (add_cmd log_argv w))) as (w' & ->).
  reflexivity.
Qed.

Lemma X19_no_module_no_result_witness :
  (analyze_all_commits
     (mkEnv ["home"] ["tmp"] pretty 100 MiniGit.run Sample.no_fault None)
     Sample.analyzer Sample.targets true Sample.world0).1 = Ret ∅.
Proof.
  apply (X19_no_module_no_result
           (mkEnv ["home"] ["tmp"] pretty 100 MiniGit.run Sample.no_fault None)
           Sample.analyzer Sample.targets true Sample.world0).
  reflexivity.
Defined.
